(** * Content Manager MCP: frontmatter, headings, loading and search

    A shallow embedding of [src/utils/markdownUtils.ts],
    [src/utils/fileUtils.ts] and [src/utils/searchUtils.ts], followed by the
    properties of the indexing and search engine that the specification
    states about them.

    Modelling conventions.
    - A JavaScript string is a [string]: a sequence of 8-bit code units,
      read as the Latin-1 range of UTF-16.  The character classes of the
      regular expressions and [toLowerCase] are written out on that range.
    - A JavaScript number that the code computes (a score, a parsed
      value) is an IEEE 754 double: [Double.t], with the rounding of each
      operation.  Time values ([Date.getTime]) and sizes are integers [Z].
    - The plain object that [parseSimpleYaml] fills is its own properties
      together with the state of its prototype, which an assignment to
      [__proto__] reads and writes.  An object that is only read is the
      list of its entries in enumeration order.
    - [fs], [glob], [gray-matter] and [Fuse] are libraries outside the
      repository; they appear as parameters. *)

From Stdlib Require Import ZArith QArith Qminmax Lia Lqa Sorted Permutation.
From Stdlib Require Import SpecFloat.
From Stdlib Require Import Ascii String List DecimalString.
From stdpp Require Import base gmap strings list fin_maps.
Import ListNotations.
Close Scope Q_scope.
Local Open Scope string_scope.
Local Open Scope list_scope.

(** ** Characters *)

Module Char.

Definition code (c : ascii) : N := N_of_ascii c.

Definition LF : ascii := "010"%char.
Definition CR : ascii := "013"%char.
Definition dquote : ascii := "034"%char.
Definition squote : ascii := "039"%char.

Definition in_range (lo hi : N) (c : ascii) : bool :=
  ((lo <=? code c) && (code c <=? hi))%N.

Definition is_upper (c : ascii) : bool := in_range 65 90 c.
Definition is_lower (c : ascii) : bool := in_range 97 122 c.
Definition is_digit (c : ascii) : bool := in_range 48 57 c.
Definition is_hyphen (c : ascii) : bool := (code c =? 45)%N.
Definition is_underscore (c : ascii) : bool := (code c =? 95)%N.
Definition is_hash (c : ascii) : bool := (code c =? 35)%N.

(** [\w] without the unicode flag: [[A-Za-z0-9_]]. *)
Definition is_word (c : ascii) : bool :=
  is_upper c || is_lower c || is_digit c || is_underscore c.

(** [\s], which is also the set that [trim] strips: TAB, LF, VT, FF, CR,
    SPACE and NBSP are its members below U+0100. *)
Definition is_space (c : ascii) : bool :=
  in_range 9 13 c || (code c =? 32)%N || (code c =? 160)%N.

(** Line terminators below U+0100; [.] matches everything else. *)
Definition is_line_terminator (c : ascii) : bool :=
  (code c =? 10)%N || (code c =? 13)%N.
Definition dot (c : ascii) : bool := negb (is_line_terminator c).

(** [[\s\S]] *)
Definition any (c : ascii) : bool := is_space c || negb (is_space c).

(** [[^\w\s-]] *)
Definition not_word_space_hyphen (c : ascii) : bool :=
  negb (is_word c || is_space c || is_hyphen c).

(** [toLowerCase] on one code unit: A-Z, and the Latin-1 capitals
    U+00C0..U+00DE except the multiplication sign U+00D7. *)
Definition toLower (c : ascii) : ascii :=
  if is_upper c || (in_range 192 222 c && negb (code c =? 215)%N)
  then ascii_of_N (code c + 32) else c.

(** The characters a heading id is made of. *)
Definition is_anchor (c : ascii) : bool :=
  is_lower c || is_digit c || is_underscore c || is_hyphen c.

End Char.

(** ** Strings: the methods of [String.prototype] the code calls *)

Module Str.

Definition LF : string := String Char.LF EmptyString.

Fixpoint all_chars (p : ascii -> bool) (s : string) : bool :=
  match s with
  | EmptyString => true
  | String c s' => p c && all_chars p s'
  end.

Fixpoint map_chars (f : ascii -> ascii) (s : string) : string :=
  match s with
  | EmptyString => EmptyString
  | String c s' => String (f c) (map_chars f s')
  end.

Definition toLowerCase (s : string) : string := map_chars Char.toLower s.

Definition isEmpty (s : string) : bool :=
  match s with EmptyString => true | _ => false end.

(** [s.startsWith(p)] *)
Definition startsWith (s p : string) : bool := String.prefix p s.

(** [strip_prefix p s] is the rest of [s] after its prefix [p]. *)
Fixpoint strip_prefix (p s : string) : option string :=
  match p with
  | EmptyString => Some s
  | String a p' =>
      match s with
      | String b s' => if Ascii.eqb a b then strip_prefix p' s' else None
      | EmptyString => None
      end
  end.

Fixpoint rev_onto (s acc : string) : string :=
  match s with
  | EmptyString => acc
  | String c s' => rev_onto s' (String c acc)
  end.
Definition rev (s : string) : string := rev_onto s EmptyString.

(** [s.endsWith(p)] *)
Definition endsWith (s p : string) : bool := String.prefix (rev p) (rev s).

(** [s.includes(q)] *)
Fixpoint includes (s q : string) : bool :=
  String.prefix q s ||
  match s with
  | EmptyString => false
  | String _ s' => includes s' q
  end.

(** [s.indexOf(c)] for a one-character needle; [None] stands for -1. *)
Fixpoint indexOf (s : string) (c : ascii) : option nat :=
  match s with
  | EmptyString => None
  | String a s' =>
      if Ascii.eqb a c then Some 0
      else match indexOf s' c with Some i => Some (S i) | None => None end
  end.

(** [s.slice(b, e)] with JavaScript's treatment of negative and
    out-of-range indices; [e = None] is the one-argument form. *)
Definition clampIndex (len i : Z) : Z :=
  (if i <? 0 then Z.max (len + i) 0 else Z.min i len)%Z.

Definition slice (s : string) (b : Z) (e : option Z) : string :=
  let len := Z.of_nat (String.length s) in
  let from := clampIndex len b in
  let to := match e with Some e => clampIndex len e | None => len end in
  substring (Z.to_nat from) (Z.to_nat (to - from)) s.

Fixpoint dropWhile (p : ascii -> bool) (s : string) : string :=
  match s with
  | EmptyString => EmptyString
  | String c s' => if p c then dropWhile p s' else s
  end.

Definition trimStart (s : string) : string := dropWhile Char.is_space s.
Definition trimEnd (s : string) : string := rev (dropWhile Char.is_space (rev s)).
Definition trim (s : string) : string := trimEnd (trimStart s).

(** [s.split(sep)] for a one-character separator: never an empty list. *)
Fixpoint split (sep : ascii) (s : string) : list string :=
  match s with
  | EmptyString => [EmptyString]
  | String c s' =>
      if Ascii.eqb c sep then EmptyString :: split sep s'
      else match split sep s' with
           | piece :: rest => String c piece :: rest
           | [] => [String c EmptyString]
           end
  end.

(** [pieces.join(sep)] *)
Fixpoint join (sep : string) (pieces : list string) : string :=
  match pieces with
  | [] => EmptyString
  | [p] => p
  | p :: rest => p +:+ sep +:+ join sep rest
  end.

(** ["x".repeat(n)] *)
Fixpoint repeat (s : string) (n : nat) : string :=
  match n with
  | O => EmptyString
  | S n' => s +:+ repeat s n'
  end.

(** Conversion of a non-negative integer inside a template literal. *)
Definition ofNat (n : nat) : string := NilEmpty.string_of_uint (Nat.to_uint n).

End Str.

(** ** Regular expressions

    The patterns of the source are flat sequences of anchors, literals and
    quantified character classes, some of them captured.  [run] is the
    backtracking matcher of ECMAScript on such sequences: a greedy
    quantifier tries the longest repetition first, a lazy one the
    shortest, and the first alternative for which the rest of the pattern
    matches wins. *)

Module RegExp.

Inductive node : Type :=
| Bol                                   (* ^ *)
| Eol                                   (* $ *)
| Lit (l : string)
| Rep (cls : ascii -> bool) (lo : nat) (hi : option nat)
      (greedy : bool) (capture : bool).

Record t : Type := mk { source : list node; multiline : bool }.

Record MatchResult : Type := mkMatch {
  index : nat;             (* match.index *)
  matched : string;        (* match[0] *)
  groups : list string     (* match[1], match[2], ... *)
}.

(** [group m i] is [match[i]] for [i >= 1]. *)
Definition group (m : MatchResult) (i : nat) : option string :=
  nth_error (groups m) (pred i).

(** [prev] is the code unit before the current position, [None] at the
    start of the input. *)
Definition at_bol (ml : bool) (prev : option ascii) : bool :=
  match prev with
  | None => true
  | Some c => ml && Char.is_line_terminator c
  end.

Definition at_eol (ml : bool) (s : string) : bool :=
  match s with
  | EmptyString => true
  | String c _ => ml && Char.is_line_terminator c
  end.

Fixpoint last_char (l : string) (prev : option ascii) : option ascii :=
  match l with
  | EmptyString => prev
  | String c l' => last_char l' (Some c)
  end.

Definition has_room (hi : option nat) : bool :=
  match hi with Some O => false | _ => true end.

Definition less_room (hi : option nat) : option nat :=
  match hi with Some n => Some (pred n) | None => None end.

(** A quantified class followed by the continuation [k].  The result is
    the number of code units the class took and what [k] returned. *)
Fixpoint rep {R : Type} (cls : ascii -> bool) (greedy : bool)
    (k : option ascii -> string -> option R)
    (lo : nat) (hi : option nat) (prev : option ascii) (s : string)
    : option (nat * R) :=
  if greedy then
    match
      match s with
      | String c s' =>
          if cls c && has_room hi then
            match rep cls greedy k (pred lo) (less_room hi) (Some c) s' with
            | Some (n, r) => Some (S n, r)
            | None => None
            end
          else None
      | EmptyString => None
      end
    with
    | Some r => Some r
    | None =>
        match lo with
        | O => match k prev s with Some r => Some (O, r) | None => None end
        | S _ => None
        end
    end
  else
    match
      match lo with
      | O => match k prev s with Some r => Some (O, r) | None => None end
      | S _ => None
      end
    with
    | Some r => Some r
    | None =>
        match s with
        | String c s' =>
            if cls c && has_room hi then
              match rep cls greedy k (pred lo) (less_room hi) (Some c) s' with
              | Some (n, r) => Some (S n, r)
              | None => None
              end
            else None
        | EmptyString => None
        end
    end.

(** [run ml r prev s]: match the nodes [r] at the head of [s]; the result
    is the length of the match and the captures in order. *)
Fixpoint run (ml : bool) (r : list node) (prev : option ascii) (s : string)
    : option (nat * list string) :=
  match r with
  | [] => Some (O, [])
  | Bol :: r' => if at_bol ml prev then run ml r' prev s else None
  | Eol :: r' => if at_eol ml s then run ml r' prev s else None
  | Lit l :: r' =>
      match Str.strip_prefix l s with
      | Some s' =>
          match run ml r' (last_char l prev) s' with
          | Some (n, caps) => Some (String.length l + n, caps)
          | None => None
          end
      | None => None
      end
  | Rep cls lo hi greedy capture :: r' =>
      match rep cls greedy (run ml r') lo hi prev s with
      | Some (n, (m, caps)) =>
          Some (n + m, if capture then substring 0 n s :: caps else caps)
      | None => None
      end
  end.

(** The leftmost match at or after the current position:
    [regex.exec(s)] / [s.match(regex)] without the [g] flag. *)
Fixpoint search (re : t) (prev : option ascii) (s : string) (idx : nat)
    : option MatchResult :=
  match run (multiline re) (source re) prev s with
  | Some (n, caps) => Some (mkMatch idx (substring 0 n s) caps)
  | None =>
      match s with
      | String c s' => search re (Some c) s' (S idx)
      | EmptyString => None
      end
  end.

Definition exec (re : t) (s : string) : option MatchResult :=
  search re None s 0.

(** [regex.test(s)] *)
Definition test (re : t) (s : string) : bool :=
  match exec re s with Some _ => true | None => false end.

(** All matches of a [g] pattern, each search resuming at the end of the
    previous match: the loop [while ((m = re.exec(s)) !== null)].  [skip]
    counts the code units of the last match still to be passed.  After an
    empty match the scan moves on by one code unit, as [replace] and
    [matchAll] do; a pattern that cannot match the empty string, like the
    heading pattern, never takes that branch. *)
Fixpoint execAll (re : t) (prev : option ascii) (s : string)
    (idx skip : nat) : list MatchResult :=
  match skip with
  | S k =>
      match s with
      | String c s' => execAll re (Some c) s' (S idx) k
      | EmptyString => []
      end
  | O =>
      match run (multiline re) (source re) prev s with
      | Some (n, caps) =>
          mkMatch idx (substring 0 n s) caps ::
          match s with
          | String c s' => execAll re (Some c) s' (S idx) (pred n)
          | EmptyString => []
          end
      | None =>
          match s with
          | String c s' => execAll re (Some c) s' (S idx) O
          | EmptyString => []
          end
      end
  end.

(** [s.replace(re, by)] for a [g] pattern and a replacement without [$]. *)
Fixpoint replaceAll (re : t) (by_ : string) (prev : option ascii)
    (s : string) (skip : nat) : string :=
  match skip with
  | S k =>
      match s with
      | String c s' => replaceAll re by_ (Some c) s' k
      | EmptyString => EmptyString
      end
  | O =>
      match run (multiline re) (source re) prev s with
      | Some (S k, _) =>
          by_ +:+
          match s with
          | String c s' => replaceAll re by_ (Some c) s' k
          | EmptyString => EmptyString
          end
      | Some (O, _) =>
          by_ +:+
          match s with
          | String c s' => String c (replaceAll re by_ (Some c) s' O)
          | EmptyString => EmptyString
          end
      | None =>
          match s with
          | String c s' => String c (replaceAll re by_ (Some c) s' O)
          | EmptyString => EmptyString
          end
      end
  end.

Definition replace (re : t) (by_ : string) (s : string) : string :=
  replaceAll re by_ None s 0.

End RegExp.

(** ** Numbers

    A JavaScript number is an IEEE 754 double.  Every finite double is an
    integer multiple of 2^-1074 (the smallest positive double), and
    [Double.t] holds that integer: [one] is 2^1074.  The exact sum or
    difference of two doubles is again a multiple of 2^-1074; [round]
    brings it back to a double, 53 significant bits with ties to even, as
    the operations [+] and [-] do. *)

Module Double.

Definition t : Type := Z.

Definition zero : t := 0%Z.
Definition one : t := (2 ^ 1074)%Z.

(** [n / d] rounded to the nearest integer, a tie to the even one. *)
Definition rneDiv (n d : Z) : Z :=
  let q := (n / d)%Z in
  let r := (n mod d)%Z in
  match (2 * r ?= d)%Z with
  | Lt => q
  | Gt => (q + 1)%Z
  | Eq => if Z.even q then q else (q + 1)%Z
  end.

(** The double nearest to [n / d] units of 2^-1074, for [0 <= n] and
    [0 < d].  Below 2^53 units every integer is a double (these are the
    subnormal numbers and the first binade of the normal ones); from
    there on the doubles are the multiples of 2^k, where [k] is the
    number of bits of the integer part beyond 53. *)
Definition roundPos (n d : Z) : Z :=
  let k := Z.max 0 (Z.log2 (n / d) - 52) in
  (rneDiv n (d * 2 ^ k) * 2 ^ k)%Z.

Definition roundRatio (n d : Z) : Z :=
  if (n <? 0)%Z then (- roundPos (- n) d)%Z else roundPos n d.

Definition round (n : Z) : t := roundRatio n 1.

(** [a + b], [a - b] and [Math.min(a, b)] on finite doubles.  The sums
    and differences formed in this program stay below 2^32 (a score grows
    by at most 0.4 per array element), far from 2^1024, where a double
    would overflow to [Infinity]. *)
Definition add (a b : t) : t := round (a + b).
Definition sub (a b : t) : t := round (a - b).
Definition min (a b : t) : t := Z.min a b.

(** [a * b], used where the specification's formula is read in doubles:
    the program itself only adds and subtracts. *)
Definition mul (a b : t) : t := roundRatio (a * b) one.

(** The value of a decimal literal such as [0.4]: the nearest double. *)
Definition ofQ (q : Q) : t := roundRatio (Qnum q * one) (Zpos (Qden q)).

(** The real number a double stands for. *)
Definition toQ (d : t) : Q := Qmake d (Z.to_pos one).

(** The number value of a non-negative decimal numeral [n / d], as
    [parseInt] and [parseFloat] return it: the nearest double, or
    [Infinity] when that would be 2^1024 or more. *)
Inductive number : Type :=
| Finite (d : t)
| PosInfinity.

Definition ofRatio (n d : Z) : number :=
  let r := roundRatio (n * one) d in
  if (2 ^ (1024 + 1074) <=? r)%Z then PosInfinity else Finite r.

(** The same doubles in the Standard Library's specification of IEEE 754
    binary64, for comparison. *)
Definition toSpec (d : t) : spec_float := binary_normalize 53 1024 d (-1074) false.

Definition ofSpec (f : spec_float) : option t :=
  match f with
  | S754_zero _ => Some 0%Z
  | S754_finite s m e => Some ((if s then -1 else 1) * Zpos m * 2 ^ (e + 1074))%Z
  | _ => None
  end.

End Double.

(** ** [src/utils/markdownUtils.ts] *)

Module Markdown.
Import RegExp.

(** *** Headings *)

Record Heading : Type := mkHeading {
  level : nat;
  text : string;
  id : string
}.

(** [/^(#{1,6})\s+(.+)$/gm] *)
Definition headingRegex : RegExp.t :=
  RegExp.mk
    [ Bol;
      Rep Char.is_hash 1 (Some 6) true true;
      Rep Char.is_space 1 None true false;
      Rep Char.dot 1 None true true;
      Eol ]
    true.

(** [/[^\w\s-]/g] and [/\s+/g] *)
Definition notSlugCharRegex : RegExp.t :=
  RegExp.mk [Rep Char.not_word_space_hyphen 1 (Some 1) true false] false.
Definition spacesRegex : RegExp.t :=
  RegExp.mk [Rep Char.is_space 1 None true false] false.

(** [text.toLowerCase().replace(/[^\w\s-]/g, '').replace(/\s+/g, '-')] *)
Definition slug (text : string) : string :=
  RegExp.replace spacesRegex "-"
    (RegExp.replace notSlugCharRegex EmptyString (Str.toLowerCase text)).

(** The body of the [while] loop: one heading per match. *)
Definition headingOfMatch (m : MatchResult) : Heading :=
  let level := match group m 1 with Some g => String.length g | None => O end in
  let text := match group m 2 with Some g => Str.trim g | None => EmptyString end in
  mkHeading level text (slug text).

Definition extractHeadings (content : string) : list Heading :=
  map headingOfMatch (execAll headingRegex None content 0 0).

(** [null] is [None]. *)
Definition generateTableOfContents (content : string) : option string :=
  let headings := extractHeadings content in
  match headings with
  | [] => None
  | _ =>
      let toc :=
        Str.join Str.LF
          (map (fun h =>
                  Str.repeat "  " (level h - 1) +:+ "- [" +:+ text h +:+ "](#"
                  +:+ id h +:+ ")")
               headings) in
      Some ("## Table of Contents" +:+ Str.LF +:+ Str.LF +:+ toc)
  end.

(** *** Frontmatter *)

(** The values [parseSimpleYaml] stores. *)
Inductive YamlValue : Type :=
| YBool (b : bool)
| YNull
| YNum (x : Double.number)
| YStr (s : string).

(** [/^\d+$/] and [/^\d+\.\d+$/] *)
Definition intRegex : RegExp.t :=
  RegExp.mk [Bol; Rep Char.is_digit 1 None true false; Eol] false.
Definition floatRegex : RegExp.t :=
  RegExp.mk
    [ Bol; Rep Char.is_digit 1 None true false; Lit ".";
      Rep Char.is_digit 1 None true false; Eol ]
    false.

(** The value of the longest run of decimal digits at the head of [s],
    continuing from [acc]. *)
Fixpoint digitsValue (s : string) (acc : Z) : Z :=
  match s with
  | String c s' =>
      if Char.is_digit c
      then digitsValue s' (10 * acc + (Z.of_N (Char.code c) - 48))%Z
      else acc
  | EmptyString => acc
  end.

Fixpoint digitsPrefix (s : string) : string :=
  match s with
  | String c s' => if Char.is_digit c then String c (digitsPrefix s') else EmptyString
  | EmptyString => EmptyString
  end.

(** [parseInt(s, 10)] and [parseFloat(s)], on the strings the two tests
    above let through (digits, or digits, a dot and digits): the number
    value of the numeral, which is the nearest double. *)
Definition parseInt (s : string) : Double.number :=
  Double.ofRatio (digitsValue s 0) 1.

Definition parseFloat (s : string) : Double.number :=
  let int_part := digitsPrefix s in
  match Str.strip_prefix (int_part +:+ ".") s with
  | Some rest =>
      let frac := digitsPrefix rest in
      Double.ofRatio (digitsValue (int_part +:+ frac) 0)
                     (10 ^ Z.of_nat (String.length frac))
  | None => Double.ofRatio (digitsValue int_part 0) 1
  end.

Definition quoted (value : string) (q : ascii) : bool :=
  Str.startsWith value (String q EmptyString)
  && Str.endsWith value (String q EmptyString).

(** The chain of [if ... else if ...] of the "basic type inference". *)
Definition inferValue (value : string) : YamlValue :=
  if String.eqb value "true" then YBool true
  else if String.eqb value "false" then YBool false
  else if String.eqb value "null" then YNull
  else if RegExp.test intRegex value then YNum (parseInt value)
  else if RegExp.test floatRegex value then YNum (parseFloat value)
  else if quoted value Char.dquote || quoted value Char.squote
       then YStr (Str.slice value 1 (Some (-1)%Z))
       else YStr value.

(** What one line of the block contributes: [None] where the loop
    [continue]s, the key and the inferred value otherwise. *)
Definition parseLine (line : string) : option (string * YamlValue) :=
  let trimmed := Str.trim line in
  if Str.isEmpty trimmed || Str.startsWith trimmed "#" then None
  else
    match Str.indexOf trimmed ":"%char with
    | None => None
    | Some colonIndex =>
        let key := Str.trim (Str.slice trimmed 0 (Some (Z.of_nat colonIndex))) in
        let value := Str.trim (Str.slice trimmed (Z.of_nat colonIndex + 1) None) in
        Some (key, inferValue value)
    end.

(** The object [result], which starts as [{}]: its own properties, and
    whether its prototype has been set to [null].  While the prototype is
    [Object.prototype], the key [__proto__] is the accessor inherited from
    it. *)
Record YamlObject : Type := mkObject {
  props : gmap string YamlValue;
  nullPrototype : bool
}.

(** [obj[key]] on own properties; [{}]. *)
#[global] Instance YamlObject_lookup : Lookup string YamlValue YamlObject :=
  fun key obj => props obj !! key.
#[global] Instance YamlObject_empty : Empty YamlObject := mkObject ∅ false.

(** [result[key] = value].  An assignment to [__proto__] calls the
    inherited setter, which sets the prototype when the value is [null]
    (or an object, which no value here is) and does nothing for any other
    value; no own property is made.  Once the prototype is [null] there
    is no setter, and [__proto__] is a key like any other. *)
Definition assign (result : YamlObject) (key : string) (value : YamlValue)
    : YamlObject :=
  if String.eqb key "__proto__" && negb (nullPrototype result)
  then match value with
       | YNull => mkObject (props result) true
       | _ => result
       end
  else mkObject (<[key := value]> (props result)) (nullPrototype result).

(** One iteration of [for (const line of lines)]. *)
Definition yamlStep (result : YamlObject) (line : string) : YamlObject :=
  match parseLine line with
  | Some (key, value) => assign result key value
  | None => result
  end.

Definition parseSimpleYaml (yaml : string) : YamlObject :=
  fold_left yamlStep (Str.split Char.LF yaml) ∅.

(** [/^---\s*\n([\s\S]*?)\n---\s*\n/] *)
Definition frontmatterRegex : RegExp.t :=
  RegExp.mk
    [ Bol; Lit "---"; Rep Char.is_space 0 None true false; Lit Str.LF;
      Rep Char.any 0 None false true;
      Lit (Str.LF +:+ "---"); Rep Char.is_space 0 None true false; Lit Str.LF ]
    false.

Record Extracted : Type := mkExtracted {
  frontmatter : YamlObject;
  content : string
}.

(** [parseSimpleYaml] cannot throw, so the [catch] branch (which returns
    the same pair as the no-match branch) is never taken. *)
Definition extractFrontmatter (content : string) : Extracted :=
  match RegExp.exec frontmatterRegex content with
  | None => mkExtracted ∅ content
  | Some m =>
      let yamlContent := match group m 1 with Some g => g | None => EmptyString end in
      let frontmatter := parseSimpleYaml yamlContent in
      let contentWithoutFrontmatter :=
        Str.slice content (Z.of_nat (String.length (matched m))) None in
      mkExtracted frontmatter contentWithoutFrontmatter
  end.

End Markdown.

(** ** JavaScript values and arrays *)

Module Js.

(** What a frontmatter entry produced by [gray-matter] can hold ([.nan]
    and [.inf] numbers are left out). *)
#[warnings="-register-all"]
Inductive Value : Type :=
| Null
| Bool (b : bool)
| Num (q : Q)
| Str (s : string)
| Arr (items : list Value)
| Obj (entries : list (string * Value))
| Date (time : Z).

(** Truthiness, as tested by [if (v)]. *)
Definition truthy (v : Value) : bool :=
  match v with
  | Null => false
  | Bool b => b
  | Num q => negb (Qeq_bool q 0)
  | Str s => negb (Str.isEmpty s)
  | Arr _ | Obj _ | Date _ => true
  end.

Definition isArray (v : Value) : bool :=
  match v with Arr _ => true | _ => false end.

(** [obj[key]]; [None] is [undefined]. *)
Fixpoint getProp (entries : list (string * Value)) (key : string) : option Value :=
  match entries with
  | [] => None
  | (k, v) :: rest => if String.eqb k key then Some v else getProp rest key
  end.

(** [Array.prototype.sort(compare)].  The sort is stable (ECMAScript 2019)
    and [compare a b > 0] puts [a] after [b]; for a consistent comparator
    the result does not depend on the algorithm, and insertion from the
    right computes it. *)
Fixpoint insert {A : Type} (compare : A -> A -> Q) (x : A) (l : list A) : list A :=
  match l with
  | [] => [x]
  | y :: l' =>
      match (compare x y ?= 0)%Q with
      | Gt => y :: insert compare x l'
      | _ => x :: l
      end
  end.

Definition sort {A : Type} (compare : A -> A -> Q) (l : list A) : list A :=
  fold_right (insert compare) [] l.

(** [arr.slice(0, e)] *)
Definition slice0 {A : Type} (l : list A) (e : Z) : list A :=
  firstn (Z.to_nat (Str.clampIndex (Z.of_nat (length l)) e)) l.

(** [[...new Set(l)]]: the first occurrence of each element, in order. *)
Fixpoint uniq (seen : list string) (l : list string) : list string :=
  match l with
  | [] => []
  | x :: l' =>
      if existsb (String.eqb x) seen then uniq seen l'
      else x :: uniq (x :: seen) l'
  end.

End Js.

(** ** [src/utils/fileUtils.ts] *)

Module Files.

(** What is read of [fs.Stats]. *)
Module Fs.
Record Stats : Type := mkStats { mtime : Z; size : Z }.
End Fs.

Record ContentFile : Type := mkContentFile {
  path : string;
  name : string;
  content : string;
  frontmatter : option (list (string * Js.Value));   (* [None]: undefined *)
  lastModified : Z;
  size : Z
}.

(** The two fields of the result of [matter(content)] that are read. *)
Module Matter.
Record GrayMatterFile : Type := mkGrayMatter {
  data : list (string * Js.Value);
  content : string
}.
End Matter.

(** The file system and the libraries: [None] is a rejected promise or a
    thrown exception. *)
Record Env : Type := mkEnv {
  readFile : string -> option string;
  stat : string -> option Fs.Stats;
  matter : string -> option Matter.GrayMatterFile;
  glob : string -> string -> list string     (* pattern, cwd *)
}.

(** [path.basename]: the last component, trailing slashes ignored. *)
Fixpoint takeUntilSlash (s : string) : string :=
  match s with
  | EmptyString => EmptyString
  | String c s' =>
      if Ascii.eqb c "/"%char then EmptyString else String c (takeUntilSlash s')
  end.

Definition basename (p : string) : string :=
  Str.rev (takeUntilSlash (Str.dropWhile (Ascii.eqb "/"%char) (Str.rev p))).

(** [path.extname]: from the last dot of the basename, unless that dot is
    its first character or the basename is [..]. *)
Definition extname (p : string) : string :=
  let b := basename p in
  match Str.indexOf (Str.rev b) "."%char with
  | None => EmptyString
  | Some fromEnd =>
      let dotIndex := String.length b - 1 - fromEnd in
      if (dotIndex =? 0)%nat || String.eqb b ".." then EmptyString
      else Str.slice b (Z.of_nat dotIndex) None
  end.

Definition readContentFile (env : Env) (filePath : string) : option ContentFile :=
  content ← readFile env filePath;
  stats ← stat env filePath;
  parsed ←
    (if Str.endsWith filePath ".md" || Str.endsWith filePath ".markdown"
     then p ← matter env content; Some (Some (Matter.data p), Matter.content p)
     else Some (None, content));
  Some (mkContentFile filePath (basename filePath) (snd parsed) (fst parsed)
          (Fs.mtime stats) (Fs.size stats)).

Definition defaultExtensions : list string := [".md"; ".markdown"; ".txt"; ".mdx"].

Definition findContentFiles (env : Env) (directory : string)
    (extensions : list string) : list string :=
  let patterns := map (fun ext => "**/*" +:+ ext) extensions in
  let files := flat_map (fun pattern => glob env pattern directory) patterns in
  Js.uniq [] files.

Definition isMarkdownFile (filename : string) : bool :=
  let ext := Str.toLowerCase (extname filename) in
  existsb (String.eqb ext) [".md"; ".markdown"; ".mdx"].

(** The result of [getDirectoryStats]. *)
Record DirectoryStats : Type := mkDirectoryStats {
  totalFiles : Z;
  totalSize : Z;
  fileTypes : gmap string Z
}.

(** One iteration of [for (const file of files)]: [None] when [stat]
    rejects, and then the whole call rejects (there is no [try]). *)
Definition statsStep (env : Env) (stats : DirectoryStats) (file : string)
    : option DirectoryStats :=
  fileStat ← stat env file;
  let ext := extname file in
  Some (mkDirectoryStats
          (totalFiles stats)
          (totalSize stats + Fs.size fileStat)
          (<[ext := (default 0 (fileTypes stats !! ext) + 1)%Z]> (fileTypes stats))).

Definition getDirectoryStats (env : Env) (directory : string) : option DirectoryStats :=
  let files := findContentFiles env directory defaultExtensions in
  fold_left (fun acc file => stats ← acc; statsStep env stats file) files
    (Some (mkDirectoryStats (Z.of_nat (length files)) 0 ∅)).

(** [/\.\.\//g] and [/\.\.\\\\/g]: two dots and a slash; two dots and two
    backslashes. *)
Definition parentSlashRegex : RegExp.t := RegExp.mk [RegExp.Lit "../"] false.
Definition parentBackslashRegex : RegExp.t := RegExp.mk [RegExp.Lit "..\\"] false.

Definition sanitizePath (path : string) : string :=
  RegExp.replace parentBackslashRegex EmptyString
    (RegExp.replace parentSlashRegex EmptyString path).

End Files.

(** ** [src/utils/searchUtils.ts] *)

Module Search.
Import Files.

Record SearchResult : Type := mkResult {
  file : ContentFile;
  score : Double.t;
  matches : list string
}.

(** [{ ...file, content: '' }] *)
Definition withoutContent (f : ContentFile) : ContentFile :=
  mkContentFile (path f) (name f) EmptyString (frontmatter f)
    (lastModified f) (size f).

Definition resultFile (includeContent : bool) (f : ContentFile) : ContentFile :=
  if includeContent then f else withoutContent f.

(** *** Exact strategy *)

(** The two accumulators of the loop body: [matches] and [score]. *)
Definition Acc : Type := (list string * Double.t)%type.

(** [matches.push(entry); score += weight] *)
Definition hit (acc : Acc) (entry : string) (weight : Double.t) : Acc :=
  (fst acc ++ [entry], Double.add (snd acc) weight).

Definition searchFilename (queryLower : string) (f : ContentFile) (acc : Acc) : Acc :=
  if Str.includes (Str.toLowerCase (name f)) queryLower
  then hit acc ("Filename: " +:+ name f) (Double.ofQ 0.4)
  else acc.

(** [for (let i = 0; i < contentLines.length; i++)], from index [i] on. *)
Fixpoint searchLines (queryLower : string) (contentLines : list string)
    (i : nat) (acc : Acc) : Acc :=
  match contentLines with
  | [] => acc
  | line :: rest =>
      searchLines queryLower rest (S i)
        (if negb (Str.isEmpty line)
            && Str.includes (Str.toLowerCase line) queryLower
         then hit acc ("Line " +:+ Str.ofNat (i + 1) +:+ ": " +:+ Str.trim line)
                (Double.ofQ 0.1)
         else acc)
  end.

(** [for (const [key, value] of Object.entries(file.frontmatter))] *)
Fixpoint searchEntries (queryLower : string)
    (entries : list (string * Js.Value)) (acc : Acc) : Acc :=
  match entries with
  | [] => acc
  | (key, value) :: rest =>
      searchEntries queryLower rest
        (match value with
         | Js.Str v =>
             if Str.includes (Str.toLowerCase v) queryLower
             then hit acc (key +:+ ": " +:+ v) (Double.ofQ 0.2)
             else acc
         | _ => acc
         end)
  end.

Definition searchFrontmatter (queryLower : string) (f : ContentFile) (acc : Acc) : Acc :=
  match frontmatter f with
  | Some entries => searchEntries queryLower entries acc
  | None => acc
  end.

(** The body of [for (const file of files)]: the result pushed for
    [file], if any. *)
Definition exactResult (queryLower : string) (includeContent : bool)
    (f : ContentFile) : option SearchResult :=
  let acc := searchFilename queryLower f ([], Double.zero) in
  let acc := searchLines queryLower (Str.split Char.LF (content f)) 0 acc in
  let acc := searchFrontmatter queryLower f acc in
  if (0 <? length (fst acc))%nat
  then Some (mkResult (resultFile includeContent f)
               (Double.min (snd acc) Double.one) (firstn 5 (fst acc)))
  else None.

(** [(a, b) => b.score - a.score], of which the sort reads the sign. *)
Definition byScoreDesc (a b : SearchResult) : Q :=
  Double.toQ (Double.sub (score b) (score a)).

Definition performExactSearch (files : list ContentFile) (query : string)
    (maxResults : Z) (includeContent : bool) : list SearchResult :=
  let queryLower := Str.toLowerCase query in
  let results :=
    fold_left
      (fun results f =>
         match exactResult queryLower includeContent f with
         | Some r => results ++ [r]
         | None => results
         end)
      files [] in
  Js.slice0 (Js.sort byScoreDesc results) maxResults.

(** *** Fuzzy strategy *)

(** The options and results of the Fuse library, as far as they are
    written or read here. *)
Module FuseJs.

Record Key : Type := mkKey { name : string; weight : Q }.

Record Options : Type := mkOptions {
  keys : list Key;
  threshold : Q;
  includeMatches : bool;
  includeScore : bool;
  minMatchCharLength : Z
}.

Record Match : Type := mkMatch { key : string; value : Js.Value }.

Record Result : Type := mkResult {
  item : ContentFile;
  score : option Double.t;            (* [None]: undefined *)
  matches : option (list Match)
}.

End FuseJs.

(** [new Fuse(files, options).search(query, { limit })] *)
Definition Fuse : Type :=
  FuseJs.Options -> list ContentFile -> string -> Z -> list FuseJs.Result.

Definition fuseOptions : FuseJs.Options :=
  FuseJs.mkOptions
    [ FuseJs.mkKey "name" 0.4%Q; FuseJs.mkKey "content" 0.3%Q;
      FuseJs.mkKey "frontmatter.title" 0.2%Q; FuseJs.mkKey "frontmatter.tags" 0.1%Q ]
    0.3%Q true true 2.

Definition extractMatches (fuseMatches : list FuseJs.Match) : list string :=
  let matches :=
    fold_left
      (fun matches m =>
         match FuseJs.value m with
         | Js.Str v =>
             let truncated :=
               if (100 <? String.length v)%nat
               then Str.slice v 0 (Some 100%Z) +:+ "..."
               else v in
             matches ++ [FuseJs.key m +:+ ": " +:+ truncated]
         | _ => matches
         end)
      fuseMatches [] in
  firstn 5 matches.

Definition performFuzzySearch (fuse : Fuse) (files : list ContentFile)
    (query : string) (maxResults : Z) (includeContent : bool)
    : list SearchResult :=
  let fuseResults := fuse fuseOptions files query maxResults in
  map (fun result =>
         mkResult (resultFile includeContent (FuseJs.item result))
           (Double.sub Double.one (default Double.zero (FuseJs.score result)))
           (extractMatches (default [] (FuseJs.matches result))))
      fuseResults.

(** *** [searchNotes] *)

Record NoteSearchOptions : Type := mkOptions {
  query : string;
  directory : option string;
  includeContent : bool;
  maxResults : Z;
  fuzzy : bool
}.

(** [parseWithSchema(NoteSearchOptionsSchema, options)] on a record whose
    fields already have their types and defaults: what is left to check
    is [query.min(1)] and [maxResults.positive()]. *)
Definition validOptions (o : NoteSearchOptions) : bool :=
  negb (Str.isEmpty (query o)) && (0 <? maxResults o)%Z.

(** The documents that could be read, in the order of [filePaths]. *)
Definition readAll (env : Env) (filePaths : list string) : list ContentFile :=
  fold_left
    (fun files filePath =>
       match readContentFile env filePath with
       | Some f => files ++ [f]
       | None => files
       end)
    filePaths [].

(** [None]: the validation threw. *)
Definition searchNotes (env : Env) (fuse : Fuse) (cwd : string)
    (options : NoteSearchOptions) : option (list SearchResult) :=
  if validOptions options then
    let dir := default cwd (directory options) in
    let files := readAll env (findContentFiles env dir defaultExtensions) in
    let maxResults := if (maxResults options =? 0)%Z then 10%Z else maxResults options in
    let includeContent := includeContent options || true in
    Some (if fuzzy options
          then performFuzzySearch fuse files (query options) maxResults includeContent
          else performExactSearch files (query options) maxResults includeContent)
  else None.

(** *** Tag and date-range filters *)

Definition byLastModifiedDesc (a b : ContentFile) : Q :=
  inject_Z (lastModified b - lastModified a).

(** [tags.some(tag => fileTags.some(fileTag => typeof fileTag === 'string'
    && fileTag.toLowerCase() === tag.toLowerCase()))] *)
Definition someTagMatches (tags : list string) (fileTags : list Js.Value) : bool :=
  existsb
    (fun tag =>
       existsb
         (fun fileTag =>
            match fileTag with
            | Js.Str s => String.eqb (Str.toLowerCase s) (Str.toLowerCase tag)
            | _ => false
            end)
         fileTags)
    tags.

(** The test guarding [matchingFiles.push(file)] in [searchByTags]. *)
Definition hasMatchingTag (tags : list string) (f : ContentFile) : bool :=
  match frontmatter f with
  | None => false
  | Some entries =>
      match Js.getProp entries "tags" with
      | None => false
      | Some v =>
          Js.truthy v
          && someTagMatches tags (match v with Js.Arr items => items | _ => [v] end)
      end
  end.

Definition searchByTags (env : Env) (directory : string) (tags : list string)
    : list ContentFile :=
  let filePaths := findContentFiles env directory defaultExtensions in
  let matchingFiles :=
    fold_left
      (fun matchingFiles filePath =>
         match readContentFile env filePath with
         | Some f => if hasMatchingTag tags f then matchingFiles ++ [f] else matchingFiles
         | None => matchingFiles
         end)
      filePaths [] in
  Js.sort byLastModifiedDesc matchingFiles.

Definition searchByDateRange (env : Env) (directory : string)
    (startDate endDate : Z) : list ContentFile :=
  let filePaths := findContentFiles env directory defaultExtensions in
  let matchingFiles :=
    fold_left
      (fun matchingFiles filePath =>
         match readContentFile env filePath with
         | Some f =>
             if (startDate <=? lastModified f)%Z && (lastModified f <=? endDate)%Z
             then matchingFiles ++ [f] else matchingFiles
         | None => matchingFiles
         end)
      filePaths [] in
  Js.sort byLastModifiedDesc matchingFiles.

End Search.

(** * The specification's wording

    The definitions of this module follow the sentences of the
    specification, not the code; the theorems below compare them with the
    embedding above. *)

Module Spec.

(** *** Frontmatter parser (section 4.1) *)

(** "Split on the first [c]": the text before it and the text after it. *)
Fixpoint cut (c : ascii) (s : string) : option (string * string) :=
  match s with
  | EmptyString => None
  | String a s' =>
      if Ascii.eqb a c then Some (EmptyString, s')
      else match cut c s' with
           | Some (l, r) => Some (String a l, r)
           | None => None
           end
  end.

(** "String matching [^\d+$]": one or more digits and nothing else. *)
Definition isDigits (s : string) : bool :=
  negb (Str.isEmpty s) && Str.all_chars Char.is_digit s.

(** "String matching [^\d+\.\d+$]": digits, a dot, digits. *)
Definition isDecimal (s : string) : bool :=
  match cut "."%char s with
  | Some (int_part, frac) => isDigits int_part && isDigits frac
  | None => false
  end.

Definition firstChar (s : string) : option ascii :=
  match s with String c _ => Some c | EmptyString => None end.

Fixpoint lastChar (s : string) : option ascii :=
  match s with
  | EmptyString => None
  | String c EmptyString => Some c
  | String _ s' => lastChar s'
  end.

Fixpoint dropLast (s : string) : string :=
  match s with
  | EmptyString => EmptyString
  | String _ EmptyString => EmptyString
  | String c s' => String c (dropLast s')
  end.

Definition dropFirst (s : string) : string :=
  match s with String _ s' => s' | EmptyString => EmptyString end.

(** "Surrounding matching quotes": the value begins with the quote
    character [q] and ends with another one. *)
Definition surroundedBy (q : ascii) (s : string) : bool :=
  match s with
  | String a rest =>
      Ascii.eqb a q
      && match lastChar rest with Some b => Ascii.eqb b q | None => false end
  | EmptyString => false
  end.

(** A value that is one quote character and nothing else: it has no
    surrounding quotes. *)
Definition loneQuote (s : string) : bool :=
  String.eqb s (String Char.dquote EmptyString)
  || String.eqb s (String Char.squote EmptyString).

(** "One layer of surrounding matching quotes stripped if present". *)
Definition stripQuotes (s : string) : string :=
  if surroundedBy Char.dquote s || surroundedBy Char.squote s
  then dropLast (dropFirst s)
  else s.

(** "Value type inference, in this precedence order". *)
Definition inferSpec (raw : string) : Markdown.YamlValue :=
  if String.eqb raw "true" then Markdown.YBool true
  else if String.eqb raw "false" then Markdown.YBool false
  else if String.eqb raw "null" then Markdown.YNull
  else if isDigits raw then Markdown.YNum (Markdown.parseInt raw)
  else if isDecimal raw then Markdown.YNum (Markdown.parseFloat raw)
  else Markdown.YStr (stripQuotes raw).

(** A closing delimiter: a later line made of [---] and nothing but
    whitespace after it, ended by a line break. *)
Definition hasClosingDelimiter (content : string) : Prop :=
  exists before ws after,
    content = before +:+ Str.LF +:+ "---" +:+ ws +:+ Str.LF +:+ after
    /\ Str.all_chars Char.is_space ws = true.

(** "A leading block delimited by a line containing [---], followed by
    lines of metadata, followed by a closing [---] line": the text starts
    with a delimiter line, and a later line is a delimiter line ended by a
    line break.  A delimiter line is [---] with nothing but whitespace
    after it. *)
Definition beginsWithBlock (content : string) : Prop :=
  exists ws1 block ws2 rest,
    content
    = "---" +:+ ws1 +:+ Str.LF +:+ block +:+ Str.LF +:+ "---" +:+ ws2 +:+ Str.LF +:+ rest
    /\ Str.all_chars Char.is_space ws1 = true
    /\ Str.all_chars Char.is_space ws2 = true.

(** "Blank lines and lines whose trimmed content starts with [#] are
    skipped.  Lines without a [:] are skipped.  Split on the first [:];
    left side trimmed = key, right side trimmed = raw value." *)
Definition splitLine (line : string) : option (string * string) :=
  let trimmed := Str.trim line in
  if Str.isEmpty trimmed then None
  else if Str.startsWith trimmed "#" then None
  else match cut ":"%char trimmed with
       | None => None
       | Some (l, r) => Some (Str.trim l, Str.trim r)
       end.

Definition parseLineSpec (line : string) : option (string * Markdown.YamlValue) :=
  match splitLine line with
  | Some (key, raw) => Some (key, inferSpec raw)
  | None => None
  end.

(** The entry of a metadata line as the specification infers it, with the
    one departure of the code: a value that is a single quote character
    is taken as the empty text. *)
Definition lineEntry (line : string) : option (string * Markdown.YamlValue) :=
  match splitLine line with
  | Some (key, raw) =>
      Some (key, if loneQuote raw then Markdown.YStr EmptyString else inferSpec raw)
  | None => None
  end.

(** The value of the last entry for [k] in a list of entries. *)
Definition lastBinding {V : Type} (k : string) (entries : list (string * V)) : option V :=
  last (map snd (List.filter (fun e => String.eqb (fst e) k) entries)).

(** *** Exact strategy (section 4.5) *)

(** "Case-insensitive substring test". *)
Definition containsCI (text query : string) : bool :=
  Str.includes (Str.toLowerCase text) (Str.toLowerCase query).

Definition filenameMatches (query : string) (f : Files.ContentFile) : bool :=
  containsCI (Files.name f) query.

(** The number of body lines containing the query. *)
Definition matchingLines (query : string) (f : Files.ContentFile) : nat :=
  length (List.filter (fun line => containsCI line query)
                      (Str.split Char.LF (Files.content f))).

(** The number of string-valued frontmatter entries whose value contains
    the query. *)
Definition matchingEntries (query : string) (f : Files.ContentFile) : nat :=
  match Files.frontmatter f with
  | Some entries =>
      length (List.filter
                (fun e => match snd e with
                          | Js.Str v => containsCI v query
                          | _ => false
                          end)
                entries)
  | None => O
  end.

Definition matchCount (query : string) (f : Files.ContentFile) : nat :=
  (if filenameMatches query f then 1 else 0)
  + matchingLines query f + matchingEntries query f.

(** The score as it is accumulated: from 0, 0.4 is added for a matching
    filename, then 0.1 once for every matching line, then 0.2 once for
    every matching entry, each sum rounded to a double; the result is
    clamped to 1. *)
Definition accumulatedScore (query : string) (f : Files.ContentFile) : Double.t :=
  let s0 :=
    if filenameMatches query f
    then Double.add Double.zero (Double.ofQ 0.4) else Double.zero in
  let s1 :=
    Nat.iter (matchingLines query f) (fun s => Double.add s (Double.ofQ 0.1)) s0 in
  let s2 :=
    Nat.iter (matchingEntries query f) (fun s => Double.add s (Double.ofQ 0.2)) s1 in
  Double.min s2 Double.one.

(** 0.4 for the filename, 0.1 per line, 0.2 per entry, clamped to 1: the
    formula over the real numbers. *)
Definition exactScore (query : string) (f : Files.ContentFile) : Q :=
  Qmin (0.4 * (if filenameMatches query f then 1 else 0)
        + 0.1 * inject_Z (Z.of_nat (matchingLines query f))
        + 0.2 * inject_Z (Z.of_nat (matchingEntries query f)))%Q
       1%Q.

(** The same formula with every product and sum rounded to a double. *)
Definition exactScoreRounded (query : string) (f : Files.ContentFile) : Double.t :=
  Double.min
    (Double.add
       (Double.add
          (Double.mul (Double.ofQ 0.4)
             (if filenameMatches query f then Double.one else Double.zero))
          (Double.mul (Double.ofQ 0.1)
             (Double.round (Z.of_nat (matchingLines query f) * Double.one))))
       (Double.mul (Double.ofQ 0.2)
          (Double.round (Z.of_nat (matchingEntries query f) * Double.one))))
    Double.one.

(** "Higher is always better": descending scores, all within [0, 1]. *)
Definition scoreDescending (a b : Search.SearchResult) : Prop :=
  (Search.score b <= Search.score a)%Z.

Definition unitScore (r : Search.SearchResult) : Prop :=
  (Double.zero <= Search.score r <= Double.one)%Z.

(** The results that have exactly the score [q]. *)
Definition withScore (q : Double.t) (l : list Search.SearchResult)
    : list Search.SearchResult :=
  List.filter (fun r => (Search.score r =? q)%Z) l.

(** *** Tag and date-range filters (section 4.5) *)

(** The [tags] field "normalized to an array even when stored as a
    single scalar"; no field, no tags. *)
Definition tagsOf (f : Files.ContentFile) : list Js.Value :=
  match Files.frontmatter f with
  | Some entries =>
      match Js.getProp entries "tags" with
      | Some (Js.Arr items) => items
      | Some v => [v]
      | None => []
      end
  | None => []
  end.

(** The field "contains, case-insensitively, at least one of the desired
    tags". *)
Definition hasDesiredTag (tags : list string) (f : Files.ContentFile) : Prop :=
  exists tag s,
    In tag tags /\ In (Js.Str s) (tagsOf f)
    /\ Str.toLowerCase s = Str.toLowerCase tag.

(** The guard of the code: there is a [tags] field and it is truthy. *)
Definition tagsFieldTruthy (f : Files.ContentFile) : Prop :=
  exists entries v,
    Files.frontmatter f = Some entries
    /\ Js.getProp entries "tags" = Some v /\ Js.truthy v = true.

(** "Ordered by [lastModified] descending (most recent first)". *)
Definition recentFirst (a b : Files.ContentFile) : Prop :=
  (Files.lastModified b <= Files.lastModified a)%Z.

(** The files among [files] whose extension is [ext], and the sizes of
    the files that [stat] can read. *)
Definition countExt (ext : string) (files : list string) : nat :=
  length (List.filter (fun file => String.eqb (Files.extname file) ext) files).

Definition statSizes (env : Files.Env) (files : list string) : list Z :=
  omap (fun file => Files.Fs.size <$> Files.stat env file) files.

Definition sumZ (l : list Z) : Z := fold_right Z.add 0%Z l.

(** The line of the table of contents for one heading. *)
Definition tocLine (h : Markdown.Heading) : string :=
  Str.repeat "  " (Markdown.level h - 1) +:+ "- [" +:+ Markdown.text h +:+ "](#"
  +:+ Markdown.id h +:+ ")".

(** The text is empty or starts with something else than whitespace. *)
Definition noLeadingSpace (s : string) : bool :=
  match s with
  | String c _ => negb (Char.is_space c)
  | EmptyString => true
  end.

(** The document set of a directory: every file found that could be
    read. *)
Definition documents (env : Files.Env) (directory : string) : list Files.ContentFile :=
  Search.readAll env (Files.findContentFiles env directory Files.defaultExtensions).

End Spec.

(** * A sample directory

    Three files in the style of [examples/sample-notes], used where a
    statement is shown on concrete input.  [matter] gives, for the texts of
    the two [.md] files, what gray-matter parses from them. *)

Module Sample.
Import Files.

(** The time value of 00:00 UTC on the [n]-th day after 1970-01-01. *)
Definition utcDay (n : Z) : Z := (n * 86400000)%Z.
Definition jan01 : Z := utcDay 19723.     (* 2024-01-01T00:00:00Z *)
Definition jan15 : Z := utcDay 19737.     (* 2024-01-15T00:00:00Z *)
Definition jan31 : Z := utcDay 19753.     (* 2024-01-31T00:00:00Z *)
Definition feb01 : Z := utcDay 19754.     (* 2024-02-01T00:00:00Z *)

Definition notesText : string :=
  "---" +:+ Str.LF +:+ "title: Notes" +:+ Str.LF +:+ "tags: [mcp, tutorial]"
  +:+ Str.LF +:+ "---" +:+ Str.LF +:+ "# Notes" +:+ Str.LF +:+ "Nothing yet.".

Definition untaggedText : string :=
  "---" +:+ Str.LF +:+ "tags: ''" +:+ Str.LF +:+ "---" +:+ Str.LF +:+ "Draft.".

Definition guideText : string :=
  "---" +:+ Str.LF +:+ "title: Guide" +:+ Str.LF +:+ "---" +:+ Str.LF +:+ "# Guide".

Definition readSample (p : string) : option string :=
  if String.eqb p "/notes/typescript-notes.md" then Some notesText
  else if String.eqb p "/notes/untagged.md" then Some untaggedText
  else if String.eqb p "/notes/guide.mdx" then Some guideText
  else None.

Definition statSample (p : string) : option Fs.Stats :=
  if String.eqb p "/notes/typescript-notes.md" then Some (Fs.mkStats jan15 92)
  else if String.eqb p "/notes/untagged.md" then Some (Fs.mkStats feb01 22)
  else if String.eqb p "/notes/guide.mdx" then Some (Fs.mkStats jan01 30)
  else None.

Definition matterSample (text : string) : option Matter.GrayMatterFile :=
  if String.eqb text notesText
  then Some (Matter.mkGrayMatter
               [ ("title", Js.Str "Notes");
                 ("tags", Js.Arr [Js.Str "mcp"; Js.Str "tutorial"]) ]
               ("# Notes" +:+ Str.LF +:+ "Nothing yet."))
  else if String.eqb text untaggedText
  then Some (Matter.mkGrayMatter [("tags", Js.Str EmptyString)] "Draft.")
  else Some (Matter.mkGrayMatter [] text).

Definition globSample (pattern cwd : string) : list string :=
  if String.eqb cwd "/notes" then
    if String.eqb pattern "**/*.md"
    then ["/notes/typescript-notes.md"; "/notes/untagged.md"]
    else if String.eqb pattern "**/*.mdx" then ["/notes/guide.mdx"]
    else []
  else [].

Definition env : Env := mkEnv readSample statSample matterSample globSample.

(** The three documents as [readContentFile] builds them. *)
Definition notes : ContentFile :=
  mkContentFile "/notes/typescript-notes.md" "typescript-notes.md"
    ("# Notes" +:+ Str.LF +:+ "Nothing yet.")
    (Some [ ("title", Js.Str "Notes");
            ("tags", Js.Arr [Js.Str "mcp"; Js.Str "tutorial"]) ])
    jan15 92.

Definition untagged : ContentFile :=
  mkContentFile "/notes/untagged.md" "untagged.md" "Draft."
    (Some [("tags", Js.Str EmptyString)]) feb01 22.

Definition guide : ContentFile :=
  mkContentFile "/notes/guide.mdx" "guide.mdx" guideText None jan01 30.

(** A log of ten lines, and two documents named after a topic: one
    mentions it on two lines, the other in its title. *)
Definition tenLines : ContentFile :=
  mkContentFile "/notes/log.txt" "log.txt"
    (Str.join Str.LF
       ["todo"; "todo"; "todo"; "todo"; "todo"; "todo"; "todo"; "todo"; "todo"; "todo"])
    None jan01 49.

Definition twoLines : ContentFile :=
  mkContentFile "/notes/ts-a.md" "ts-a.md" ("ts" +:+ Str.LF +:+ "ts") (Some []) jan01 5.

Definition titled : ContentFile :=
  mkContentFile "/notes/ts-b.md" "ts-b.md" "none" (Some [("title", Js.Str "ts")]) jan01 4.

(** A stand-in for Fuse that reports two matches, best first. *)
Definition fuseSample : Search.Fuse :=
  fun _ _ _ _ =>
    [ Search.FuseJs.mkResult notes (Some (Double.ofQ 0.1))
        (Some [Search.FuseJs.mkMatch "name" (Js.Str "typescript-notes.md")]);
      Search.FuseJs.mkResult guide (Some (Double.ofQ 0.25)) None ].

End Sample.

(** * Auxiliary functions of the proofs *)

Module Aux.

(** What follows the longest run of digits at the head of [s]. *)
Fixpoint digitsRest (s : string) : string :=
  match s with
  | String c s' => if Char.is_digit c then digitsRest s' else s
  | EmptyString => EmptyString
  end.

(** Reasoning on one code unit is a finite case analysis. *)
Ltac by_cases c :=
  destruct c as [[] [] [] [] [] [] [] []]; vm_compute; intuition congruence.

End Aux.

(** * Properties *)

(** ** Characters and strings *)

Section CharFacts.
Import Char.

Import Aux.

Lemma toLower_not_upper (c : ascii) : is_upper (toLower c) = false.
Proof. by_cases c. Qed.

Lemma kept_is_anchor_or_space (c : ascii) :
  is_upper c = false -> not_word_space_hyphen c = false ->
  is_space c = false -> is_anchor c = true.
Proof. by_cases c. Qed.

Lemma anchor_not_space (c : ascii) : is_anchor c = true -> is_space c = false.
Proof. by_cases c. Qed.

Lemma anchor_not_upper (c : ascii) : is_anchor c = true -> is_upper c = false.
Proof. by_cases c. Qed.

Lemma digit_not_dot (c : ascii) : is_digit c = true -> Ascii.eqb "."%char c = false.
Proof. by_cases c. Qed.

End CharFacts.

Section StringFacts.
Import Str.

Lemma all_chars_app (p : ascii -> bool) (a b : string) :
  all_chars p (a +:+ b) = all_chars p a && all_chars p b.
Proof.
  induction a as [|c a IH]; simpl; [reflexivity|].
  rewrite IH. apply andb_assoc.
Qed.

Lemma all_chars_impl (p q : ascii -> bool) (s : string) :
  (forall c, p c = true -> q c = true) ->
  all_chars p s = true -> all_chars q s = true.
Proof.
  intros Hpq. induction s as [|c s IH]; simpl; [reflexivity|].
  intros [Hc Hs]%andb_prop. rewrite (Hpq _ Hc), (IH Hs). reflexivity.
Qed.

Lemma all_chars_map (p : ascii -> bool) (f : ascii -> ascii) (s : string) :
  (forall c, p (f c) = true) -> all_chars p (map_chars f s) = true.
Proof.
  intros Hf. induction s as [|c s IH]; simpl; [reflexivity|].
  rewrite Hf, IH. reflexivity.
Qed.

Lemma toLowerCase_no_upper (s : string) :
  all_chars (fun c => negb (Char.is_upper c)) (toLowerCase s) = true.
Proof.
  apply all_chars_map. intros c. rewrite toLower_not_upper. reflexivity.
Qed.

Lemma toLowerCase_empty (s : string) : isEmpty (toLowerCase s) = isEmpty s.
Proof. destruct s; reflexivity. Qed.

End StringFacts.

(** ** Replacing every match of a one-class pattern *)

Section ReplaceClass.
Import RegExp.

Variable cls : ascii -> bool.
Variable hi : option nat.
Hypothesis room : has_room hi = true.

(** With the minimum met, a greedy class in front of a continuation
    that always succeeds matches. *)
Lemma rep_greedy_total {R : Type} (k : option ascii -> string -> option R)
    (r0 : R) (h : option nat) (prev : option ascii) (s : string) :
  (forall prev' s', k prev' s' = Some r0) ->
  exists n, rep cls true k 0 h prev s = Some (n, r0).
Proof.
  intros Hk. revert h prev. induction s as [|c s IH]; intros h prev; cbn [rep Nat.pred].
  - rewrite Hk. exists O. reflexivity.
  - destruct (cls c && has_room h).
    + destruct (IH (less_room h) (Some c)) as [n ->]. exists (S n). reflexivity.
    + rewrite Hk. exists O. reflexivity.
Qed.

Lemma run_class_head (prev : option ascii) (c : ascii) (s : string) :
  if cls c
  then exists k, run false [Rep cls 1 hi true false] prev (String c s) = Some (S k, [])
  else run false [Rep cls 1 hi true false] prev (String c s) = None.
Proof.
  cbn [source run rep Nat.pred]. rewrite room, andb_true_r.
  destruct (cls c).
  - destruct (rep_greedy_total (fun _ _ => Some (O, @nil string)) (O, [])
                (less_room hi) (Some c) s)
      as [n ->]; [reflexivity|].
    exists n. f_equal. f_equal. lia.
  - reflexivity.
Qed.

(** What is left after the replacement: the replacement text, and the
    code units of the input that are outside the class. *)
Lemma replaceAll_class_chars (by_ : string) (p q : ascii -> bool) :
  (forall c, p c = true -> cls c = false -> q c = true) ->
  Str.all_chars q by_ = true ->
  forall (s : string) (prev : option ascii) (skip : nat),
    Str.all_chars p s = true ->
    Str.all_chars q (replaceAll (RegExp.mk [Rep cls 1 hi true false] false) by_ prev s skip) = true.
Proof.
  intros Hkeep Hby. induction s as [|c s IH]; intros prev skip Hs.
  - destruct skip; reflexivity.
  - simpl in Hs. apply andb_prop in Hs as [Hc Hs].
    destruct skip as [|k]; [|simpl; auto].
    cbn [replaceAll multiline source].
    pose proof (run_class_head prev c s) as Hrun.
    destruct (cls c) eqn:Hcls.
    + destruct Hrun as [k ->]. rewrite all_chars_app, Hby. simpl. auto.
    + rewrite Hrun. simpl. rewrite (Hkeep c Hc Hcls). simpl. auto.
Qed.

End ReplaceClass.

(** ** Heading ids *)

Lemma slug_anchor_chars (text : string) :
  Str.all_chars Char.is_anchor (Markdown.slug text) = true.
Proof.
  unfold Markdown.slug, RegExp.replace, Markdown.spacesRegex, Markdown.notSlugCharRegex.
  apply replaceAll_class_chars
    with (p := fun c => negb (Char.is_upper c)
                        && negb (Char.not_word_space_hyphen c)
                        && negb (Char.is_space c) || Char.is_space c).
  - reflexivity.
  - intros c Hp Hsp. rewrite Hsp, orb_false_r, andb_true_r in Hp.
    apply andb_prop in Hp as [Hu Hw].
    apply kept_is_anchor_or_space; [| |exact Hsp]; now apply negb_true_iff.
  - reflexivity.
  - apply replaceAll_class_chars with (p := fun c => negb (Char.is_upper c)).
    + reflexivity.
    + intros c Hu Hw. rewrite Hu, Hw. simpl. destruct (Char.is_space c); reflexivity.
    + reflexivity.
    + apply toLowerCase_no_upper.
Qed.

(** C10. Every heading id produced by [extractHeadings], on every input
    text, is made only of lowercase ASCII letters, digits, underscores and
    hyphens; in particular it holds no whitespace and no uppercase
    letter. *)
Theorem heading_ids_anchor_safe (content : string) :
  Forall (fun h =>
            Str.all_chars Char.is_anchor (Markdown.id h) = true
            /\ Str.all_chars (fun c => negb (Char.is_space c)) (Markdown.id h) = true
            /\ Str.all_chars (fun c => negb (Char.is_upper c)) (Markdown.id h) = true)
         (Markdown.extractHeadings content).
Proof.
  unfold Markdown.extractHeadings. apply Forall_map, Forall_forall.
  intros m _. cbn [Markdown.headingOfMatch Markdown.id].
  set (text := match RegExp.group m 2 with Some g => Str.trim g | None => EmptyString end).
  pose proof (slug_anchor_chars text) as Hid.
  repeat split; [exact Hid| |].
  - eapply all_chars_impl; [|exact Hid].
    intros c Hc. now rewrite (anchor_not_space c Hc).
  - eapply all_chars_impl; [|exact Hid].
    intros c Hc. now rewrite (anchor_not_upper c Hc).
Qed.

(** ** Headings: the example of the specification, and a bare [#] line *)

Example extractHeadings_title_sub :
  Markdown.extractHeadings ("# Title" +:+ Str.LF +:+ "## Sub Heading")
  = [ Markdown.mkHeading 1 "Title" "title";
      Markdown.mkHeading 2 "Sub Heading" "sub-heading" ].
Proof. vm_compute. reflexivity. Qed.

(** C8. The line [# Title] consists of one [#], whitespace and text, and
    alone it yields the record (1, Title, title).  After a line that holds
    only [#], the [\s+] of the pattern runs over the line break: the two
    lines give one heading whose text is [# Title], and no record for the
    second line. *)
Theorem extractHeadings_bare_hash_line :
  Markdown.extractHeadings "# Title" = [Markdown.mkHeading 1 "Title" "title"]
  /\ Markdown.extractHeadings ("#" +:+ Str.LF +:+ "# Title")
     = [Markdown.mkHeading 1 "# Title" "-title"].
Proof. split; vm_compute; reflexivity. Qed.

(** ** Anchored patterns and runs of digits *)

Section Anchored.
Import RegExp.

(** Without the [m] flag, [^] only matches at the start of the input. *)
Lemma search_anchored (r : list node) (c : ascii) (s : string) (idx : nat) :
  search (RegExp.mk (Bol :: r) false) (Some c) s idx = None.
Proof.
  revert c idx. induction s as [|a s IH]; intros c idx; cbn; auto.
Qed.

Lemma exec_anchored (r : list node) (s : string) :
  exec (RegExp.mk (Bol :: r) false) s
  = match run false r None s with
    | Some (n, caps) => Some (mkMatch 0 (substring 0 n s) caps)
    | None => None
    end.
Proof.
  unfold exec. destruct s as [|a s]; cbn [search multiline source run at_bol].
  - destruct (run false r None EmptyString) as [[n caps]|]; reflexivity.
  - destruct (run false r None (String a s)) as [[n caps]|]; [reflexivity|].
    apply search_anchored.
Qed.

Lemma test_anchored (r : list node) (s : string) :
  test (RegExp.mk (Bol :: r) false) s
  = match run false r None s with Some _ => true | None => false end.
Proof.
  unfold test. rewrite exec_anchored.
  destruct (run false r None s) as [[n caps]|]; reflexivity.
Qed.

(** The equations of [run], for rewriting one node at a time. *)
Lemma run_rep (ml : bool) cls lo hi greedy capture (r : list node)
    (prev : option ascii) (s : string) :
  run ml (Rep cls lo hi greedy capture :: r) prev s
  = match rep cls greedy (run ml r) lo hi prev s with
    | Some (n, (m, caps)) =>
        Some (n + m, if capture then substring 0 n s :: caps else caps)
    | None => None
    end.
Proof. reflexivity. Qed.

Lemma run_lit (ml : bool) (l : string) (r : list node)
    (prev : option ascii) (s : string) :
  run ml (Lit l :: r) prev s
  = match Str.strip_prefix l s with
    | Some s' =>
        match run ml r (last_char l prev) s' with
        | Some (n, caps) => Some (String.length l + n, caps)
        | None => None
        end
    | None => None
    end.
Proof. reflexivity. Qed.

Lemma run_bol (ml : bool) (r : list node) (prev : option ascii) (s : string) :
  run ml (Bol :: r) prev s = if at_bol ml prev then run ml r prev s else None.
Proof. reflexivity. Qed.

Lemma run_eol (ml : bool) (r : list node) (prev : option ascii) (s : string) :
  run ml (Eol :: r) prev s = if at_eol ml s then run ml r prev s else None.
Proof. reflexivity. Qed.

(** A greedy [\d+] or [\d*] in front of a continuation that cannot start
    on a digit takes the whole run of digits. *)
Lemma rep_digits {R : Type} (k : option ascii -> string -> option R) :
  (forall prev c s, Char.is_digit c = true -> k prev (String c s) = None) ->
  forall (s : string) (lo : nat) (prev : option ascii),
    rep Char.is_digit true k lo None prev s
    = if (lo <=? String.length (Markdown.digitsPrefix s))%nat
      then match k (last_char (Markdown.digitsPrefix s) prev) (Aux.digitsRest s) with
           | Some r => Some (String.length (Markdown.digitsPrefix s), r)
           | None => None
           end
      else None.
Proof.
  intros Hk. induction s as [|c s IH]; intros lo prev; cbn [rep].
  - destruct lo; reflexivity.
  - cbn [Markdown.digitsPrefix Aux.digitsRest has_room less_room].
    rewrite andb_true_r. destruct (Char.is_digit c) eqn:Hc.
    + rewrite IH. cbn [String.length last_char].
      destruct lo as [|lo]; cbn [Nat.pred Nat.leb].
      * destruct (k _ (Aux.digitsRest s)); [reflexivity|].
        now rewrite Hk.
      * destruct (lo <=? _)%nat; [|reflexivity].
        destruct (k _ (Aux.digitsRest s)); reflexivity.
    + cbn [String.length last_char]. destruct lo; [|reflexivity].
      cbn [Nat.leb]. destruct (k prev (String c s)); reflexivity.
Qed.

End Anchored.

Section DigitFacts.
Import Str.

Lemma digitsRest_empty (s : string) :
  isEmpty (Aux.digitsRest s) = all_chars Char.is_digit s.
Proof.
  induction s as [|c s IH]; cbn; [reflexivity|].
  destruct (Char.is_digit c); [exact IH|reflexivity].
Qed.

Lemma digitsPrefix_all (s : string) :
  all_chars Char.is_digit s = true -> Markdown.digitsPrefix s = s.
Proof.
  induction s as [|c s IH]; cbn; [reflexivity|].
  destruct (Char.is_digit c); [|discriminate].
  intros H. now rewrite IH.
Qed.

Lemma digitsPrefix_empty (s : string) :
  all_chars Char.is_digit s = true ->
  (1 <=? String.length (Markdown.digitsPrefix s))%nat = negb (isEmpty s).
Proof.
  intros H. rewrite (digitsPrefix_all s H). destruct s; reflexivity.
Qed.

(** The first dot of [s] comes right after its leading digits exactly
    when [cut] returns those digits. *)
Lemma cut_dot_digits (s : string) :
  match Spec.cut "."%char s with
  | Some (i, f) =>
      if all_chars Char.is_digit i
      then Markdown.digitsPrefix s = i /\ Aux.digitsRest s = String "."%char f
      else strip_prefix "." (Aux.digitsRest s) = None
  | None => strip_prefix "." (Aux.digitsRest s) = None
  end.
Proof.
  induction s as [|c s IH]; cbn [Spec.cut]; [reflexivity|].
  destruct (Ascii.eqb c "."%char) eqn:Hdot.
  - apply Ascii.eqb_eq in Hdot. subst c. cbn. auto.
  - cbn [Markdown.digitsPrefix Aux.digitsRest].
    destruct (Spec.cut "."%char s) as [[i f]|].
    + cbn [all_chars]. destruct (Char.is_digit c) eqn:Hc; cbn [andb].
      * destruct (all_chars Char.is_digit i); [|exact IH].
        destruct IH as [-> ->]. auto.
      * cbn [strip_prefix]. rewrite Ascii.eqb_sym, Hdot. reflexivity.
    + destruct (Char.is_digit c) eqn:Hc; [exact IH|].
      cbn [strip_prefix]. rewrite Ascii.eqb_sym, Hdot. reflexivity.
Qed.

End DigitFacts.

Section NumberPatterns.
Import RegExp.

Lemma run_digits_eol (prev : option ascii) (s : string) :
  run false [Rep Char.is_digit 1 None true false; Eol] prev s
  = if Spec.isDigits s then Some (String.length s, []) else None.
Proof.
  rewrite run_rep, rep_digits by reflexivity.
  unfold Spec.isDigits. destruct (Str.all_chars Char.is_digit s) eqn:Hall.
  - rewrite (digitsPrefix_empty s Hall), (digitsPrefix_all s Hall), andb_true_r.
    destruct (negb (Str.isEmpty s)); [|reflexivity].
    pose proof (digitsRest_empty s) as Hrest. rewrite Hall in Hrest.
    destruct (Aux.digitsRest s); [|discriminate]. cbn.
    now rewrite Nat.add_0_r.
  - rewrite andb_false_r.
    pose proof (digitsRest_empty s) as Hrest. rewrite Hall in Hrest.
    destruct (Aux.digitsRest s); [discriminate|]. cbn.
    now destruct (String.length (Markdown.digitsPrefix s)).
Qed.

Lemma test_intRegex (s : string) :
  test Markdown.intRegex s = Spec.isDigits s.
Proof.
  unfold Markdown.intRegex. rewrite test_anchored, run_digits_eol.
  now destruct (Spec.isDigits s).
Qed.

Lemma test_floatRegex (s : string) :
  test Markdown.floatRegex s = Spec.isDecimal s.
Proof.
  unfold Markdown.floatRegex. rewrite test_anchored, run_rep, rep_digits.
  2:{ intros prev c s' Hc. rewrite run_lit. cbn [Str.strip_prefix].
      now rewrite (digit_not_dot c Hc). }
  rewrite run_lit.
  unfold Spec.isDecimal. pose proof (cut_dot_digits s) as Hcut.
  destruct (Spec.cut "."%char s) as [[i f]|].
  - unfold Spec.isDigits at 1.
    destruct (Str.all_chars Char.is_digit i) eqn:Hi.
    + destruct Hcut as [Hp Hr]. rewrite Hp, Hr.
      cbn [Str.strip_prefix Ascii.eqb Bool.eqb]. rewrite run_digits_eol.
      rewrite andb_true_r.
      destruct i; cbn [Str.isEmpty negb String.length Nat.leb andb];
        [reflexivity|].
      now destruct (Spec.isDigits f).
    + rewrite Hcut, andb_false_r.
      now destruct (String.length (Markdown.digitsPrefix s)).
  - rewrite Hcut. now destruct (String.length (Markdown.digitsPrefix s)).
Qed.

End NumberPatterns.

(** ** Quotes, [slice] and [indexOf] *)

Section SliceFacts.
Import Str.

Lemma prefix_one_char (q : ascii) (s : string) :
  String.prefix (String q EmptyString) s
  = match Spec.firstChar s with Some a => Ascii.eqb a q | None => false end.
Proof.
  destruct s as [|a s]; cbn [String.prefix Spec.firstChar]; [reflexivity|].
  destruct (ascii_dec q a) as [->|Hne].
  - rewrite Ascii.eqb_refl. now destruct s.
  - symmetry. apply Ascii.eqb_neq. congruence.
Qed.

Lemma lastChar_cons (a : ascii) (s : string) :
  exists c, Spec.lastChar (String a s) = Some c.
Proof.
  revert a. induction s as [|b s IH]; intros a; [now exists a|].
  destruct (IH b) as [c Hc]. exists c. exact Hc.
Qed.

Lemma firstChar_rev_onto (s acc : string) :
  Spec.firstChar (rev_onto s acc)
  = match Spec.lastChar s with Some c => Some c | None => Spec.firstChar acc end.
Proof.
  revert acc. induction s as [|c s IH]; intros acc; cbn [rev_onto Spec.lastChar];
    [reflexivity|].
  rewrite IH. destruct s as [|a s]; [reflexivity|].
  now destruct (lastChar_cons a s) as [b ->].
Qed.

Lemma firstChar_rev (s : string) : Spec.firstChar (rev s) = Spec.lastChar s.
Proof.
  unfold rev. rewrite firstChar_rev_onto. now destruct (Spec.lastChar s).
Qed.

(** The test of the code accepts what is surrounded by quotes, and one
    quote character alone. *)
Lemma quoted_surroundedBy (v : string) (q : ascii) :
  Markdown.quoted v q
  = Spec.surroundedBy q v || String.eqb v (String q EmptyString).
Proof.
  unfold Markdown.quoted, startsWith, endsWith, Spec.surroundedBy.
  change (rev (String q EmptyString)) with (String q EmptyString).
  rewrite !prefix_one_char, firstChar_rev.
  destruct v as [|a [|b rest]]; [reflexivity|..]; cbn [Spec.firstChar Spec.lastChar].
  - change (String.eqb (String a EmptyString) (String q EmptyString))
      with (Ascii.eqb a q && true).
    now destruct (Ascii.eqb a q).
  - change (String.eqb (String a (String b rest)) (String q EmptyString))
      with (Ascii.eqb a q && false).
    now rewrite andb_false_r, orb_false_r.
Qed.

Lemma substring_dropLast (s : string) :
  substring 0 (String.length s - 1) s = Spec.dropLast s.
Proof.
  induction s as [|c s IH]; [reflexivity|].
  cbn [String.length]. replace (S (String.length s) - 1) with (String.length s) by lia.
  destruct s as [|a s]; [reflexivity|].
  change (Spec.dropLast (String c (String a s)))
    with (String c (Spec.dropLast (String a s))).
  rewrite <- IH. cbn [String.length substring].
  now replace (S (String.length s) - 1) with (String.length s) by lia.
Qed.

(** [value.slice(1, -1)] drops the first and the last code unit. *)
Lemma slice_1_m1 (v : string) :
  slice v 1 (Some (-1)%Z) = Spec.dropLast (Spec.dropFirst v).
Proof.
  destruct v as [|c v]; [reflexivity|].
  unfold slice, clampIndex. cbn [String.length Spec.dropFirst].
  rewrite <- substring_dropLast.
  replace (1 <? 0)%Z with false by reflexivity.
  replace (-1 <? 0)%Z with true by reflexivity.
  replace (Z.to_nat (Z.min 1 (Z.of_nat (S (String.length v))))) with 1 by lia.
  cbn [substring]. f_equal. lia.
Qed.

Lemma substring_all (s : string) : substring 0 (String.length s) s = s.
Proof. induction s as [|c s IH]; cbn; [reflexivity|]. now rewrite IH. Qed.

Lemma indexOf_lt (s : string) (c : ascii) (i : nat) :
  indexOf s c = Some i -> i < String.length s.
Proof.
  revert i. induction s as [|a s IH]; intros i; cbn; [discriminate|].
  destruct (Ascii.eqb a c).
  - intros [= <-]. lia.
  - destruct (indexOf s c) as [j|]; [|discriminate].
    intros [= <-]. specialize (IH j eq_refl). lia.
Qed.

Lemma slice_to (s : string) (i : nat) :
  i <= String.length s -> slice s 0 (Some (Z.of_nat i)) = substring 0 i s.
Proof.
  intros Hi. unfold slice, clampIndex.
  replace (0 <? 0)%Z with false by reflexivity.
  replace (Z.of_nat i <? 0)%Z with false by lia.
  f_equal; lia.
Qed.

Lemma slice_from (s : string) (i : nat) :
  i <= String.length s ->
  slice s (Z.of_nat i) None = substring i (String.length s - i) s.
Proof.
  intros Hi. unfold slice, clampIndex.
  replace (Z.of_nat i <? 0)%Z with false by lia.
  f_equal; lia.
Qed.

(** [indexOf] followed by the two [slice]s is the split at the first
    occurrence. *)
Lemma cut_indexOf (c : ascii) (s : string) :
  Spec.cut c s
  = match indexOf s c with
    | Some i =>
        Some (slice s 0 (Some (Z.of_nat i)), slice s (Z.of_nat i + 1) None)
    | None => None
    end.
Proof.
  transitivity
    (match indexOf s c with
     | Some i => Some (substring 0 i s, substring (S i) (String.length s - S i) s)
     | None => None
     end).
  - induction s as [|a s IH]; cbn [Spec.cut indexOf]; [reflexivity|].
    destruct (Ascii.eqb a c).
    + cbn [substring String.length].
      replace (S (String.length s) - 1) with (String.length s) by lia.
      now rewrite substring_all.
    + rewrite IH. destruct (indexOf s c) as [i|]; reflexivity.
  - destruct (indexOf s c) as [i|] eqn:Hi; [|reflexivity].
    apply indexOf_lt in Hi.
    rewrite slice_to by lia.
    replace (Z.of_nat i + 1)%Z with (Z.of_nat (S i)) by lia.
    now rewrite slice_from by lia.
Qed.

End SliceFacts.

(** ** A heading line on its own *)

Section HeadingLine.
Import RegExp.

Lemma append_nil_l (b : string) : EmptyString +:+ b = b.
Proof. reflexivity. Qed.

Lemma append_cons (c : ascii) (a b : string) :
  String c a +:+ b = String c (a +:+ b).
Proof. reflexivity. Qed.

Lemma append_nil_r (a : string) : a +:+ EmptyString = a.
Proof. induction a as [|c a IH]; [reflexivity|]. now rewrite append_cons, IH. Qed.

Lemma append_assoc (a b c : string) : (a +:+ b) +:+ c = a +:+ b +:+ c.
Proof. induction a as [|x a IH]; [reflexivity|]. now rewrite !append_cons, IH. Qed.

Lemma length_append (a b : string) :
  String.length (a +:+ b) = String.length a + String.length b.
Proof.
  induction a as [|c a IH]; [reflexivity|].
  rewrite append_cons. cbn [String.length]. now rewrite IH.
Qed.

Lemma substring_append_prefix (a b : string) :
  substring 0 (String.length a) (a +:+ b) = a.
Proof.
  induction a as [|c a IH].
  - rewrite append_nil_l. now destruct b.
  - rewrite append_cons. cbn [String.length substring]. now rewrite IH.
Qed.

(** A greedy class that can take the whole of [pre], and no more, does so
    when the continuation accepts what follows. *)
Lemma rep_greedy_exact {R : Type} (cls : ascii -> bool)
    (k : option ascii -> string -> option R) (rest : string) (r : R) (pre : string) :
  forall lo hi prev,
    Str.all_chars cls pre = true ->
    lo <= String.length pre ->
    match hi with Some h => String.length pre <= h | None => True end ->
    match rest with
    | String c _ => cls c = false \/ hi = Some (String.length pre)
    | EmptyString => True
    end ->
    k (last_char pre prev) rest = Some r ->
    rep cls true k lo hi prev (pre +:+ rest) = Some (String.length pre, r).
Proof.
  induction pre as [|c pre IH]; intros lo hi prev Hall Hlo Hhi Hstop Hk.
  - rewrite append_nil_l. cbn [String.length last_char] in *.
    replace lo with 0 by lia.
    destruct rest as [|c rest]; cbn [rep]; [now rewrite Hk|].
    destruct Hstop as [Hc| ->].
    + now rewrite Hc, Hk.
    + cbn [has_room]. now rewrite andb_false_r, Hk.
  - cbn [Str.all_chars] in Hall. apply andb_prop in Hall as [Hc Hall].
    rewrite append_cons. cbn [String.length last_char rep] in *. rewrite Hc.
    assert (Hroom : has_room hi = true) by (destruct hi as [[|h]|]; [lia|reflexivity..]).
    rewrite Hroom. cbn [andb].
    rewrite (IH (Nat.pred lo) (less_room hi) (Some c)); auto.
    + lia.
    + destruct hi as [h|]; cbn [less_room]; [lia|exact I].
    + destruct rest as [|c' rest]; [exact I|].
      destruct Hstop as [Hc'| ->]; [now left|]. right. reflexivity.
Qed.

Lemma repeat_hash (k : nat) :
  Str.all_chars Char.is_hash (Str.repeat "#" k) = true
  /\ String.length (Str.repeat "#" k) = k.
Proof.
  induction k as [|k [IHa IHl]]; [split; reflexivity|].
  cbn [Str.repeat]. rewrite append_cons, append_nil_l.
  cbn [Str.all_chars String.length]. rewrite IHa, IHl. split; reflexivity.
Qed.

(** Once the scan has passed the last match and reached the end of the
    input, a pattern that does not match the empty string finds nothing
    more. *)
Lemma execAll_past_end (re : RegExp.t) (s : string) :
  (forall prev, run (multiline re) (source re) prev EmptyString = None) ->
  forall prev idx skip,
    String.length s <= skip -> execAll re prev s idx skip = [].
Proof.
  intros Hempty. induction s as [|c s IH]; intros prev idx skip Hlen.
  - destruct skip; cbn [execAll]; [now rewrite Hempty|reflexivity].
  - cbn [String.length] in Hlen. destruct skip as [|skip]; [lia|].
    cbn [execAll]. apply IH. lia.
Qed.

Lemma headingRegex_not_empty (prev : option ascii) :
  run true (source Markdown.headingRegex) prev EmptyString = None.
Proof. cbn. now destruct (at_bol true prev). Qed.

(** The pattern matches a heading line, [k] hashes, a space and a text
    that starts with something else than whitespace, as a whole. *)
Lemma run_heading_line (k : nat) (text : string) (c : ascii) (t : string) :
  1 <= k <= 6 -> text = String c t ->
  Char.is_space c = false -> Str.all_chars Char.dot text = true ->
  run true (source Markdown.headingRegex) None
      (Str.repeat "#" k +:+ " " +:+ text)
  = Some (String.length (Str.repeat "#" k +:+ " " +:+ text),
          [Str.repeat "#" k; text]).
Proof.
  intros Hk Htext Hc Hdot. destruct (repeat_hash k) as [Hhash Hlen].
  cbn [source Markdown.headingRegex]. rewrite run_bol. cbn [at_bol].
  rewrite run_rep.
  erewrite (rep_greedy_exact Char.is_hash _ (" " +:+ text) _ (Str.repeat "#" k));
    [| exact Hhash | lia | lia | now left | ].
  2:{ rewrite run_rep.
      erewrite (rep_greedy_exact Char.is_space _ text _ " ");
        [| reflexivity | cbn; lia | exact I | rewrite Htext; now left | ].
      2:{ rewrite run_rep. rewrite <- (append_nil_r text) at 1.
          erewrite (rep_greedy_exact Char.dot _ EmptyString _ text);
            [| exact Hdot | rewrite Htext; cbn; lia | exact I | exact I | reflexivity ].
          reflexivity. }
      reflexivity. }
  lazy beta iota. rewrite substring_append_prefix, substring_all.
  f_equal. f_equal. rewrite !length_append. cbn [String.length]. lia.
Qed.

(** Alone in the input, such a line yields exactly the record of the
    specification. *)
Lemma extractHeadings_single_line (k : nat) (text : string) (c : ascii) (t : string) :
  1 <= k <= 6 -> text = String c t ->
  Char.is_space c = false -> Str.all_chars Char.dot text = true ->
  Markdown.extractHeadings (Str.repeat "#" k +:+ " " +:+ text)
  = [Markdown.mkHeading k (Str.trim text) (Markdown.slug (Str.trim text))].
Proof.
  intros Hk Htext Hc Hdot. unfold Markdown.extractHeadings.
  pose proof (run_heading_line k text c t Hk Htext Hc Hdot) as Hrun.
  destruct (repeat_hash k) as [_ Hlen].
  destruct k as [|k]; [lia|].
  cbn [Str.repeat] in *. rewrite !append_cons, !append_nil_l in *.
  cbn [execAll]. change (multiline Markdown.headingRegex) with true. rewrite Hrun.
  cbn [String.length Nat.pred map].
  rewrite execAll_past_end by (exact headingRegex_not_empty || lia).
  unfold Markdown.headingOfMatch, group. cbn [groups nth_error Nat.pred].
  now rewrite Hlen.
Qed.

End HeadingLine.

(** ** Type inference of frontmatter values *)

(** The inference of the code is that of the specification, except on a
    value that is one quote character, which the code takes for a quoted
    empty text. *)
Lemma inferValue_inferSpec (value : string) :
  Markdown.inferValue value
  = if Spec.loneQuote value then Markdown.YStr EmptyString else Spec.inferSpec value.
Proof.
  destruct (Spec.loneQuote value) eqn:Hlone.
  - unfold Spec.loneQuote in Hlone.
    apply orb_prop in Hlone as [Hq|Hq]; apply String.eqb_eq in Hq; subst value;
      vm_compute; reflexivity.
  - unfold Spec.loneQuote in Hlone. apply orb_false_elim in Hlone as [Hd Hs].
    unfold Markdown.inferValue, Spec.inferSpec, Spec.stripQuotes.
    rewrite test_intRegex, test_floatRegex, !quoted_surroundedBy, slice_1_m1, Hd, Hs.
    rewrite !orb_false_r.
    now destruct (Spec.surroundedBy Char.dquote value || Spec.surroundedBy Char.squote value).
Qed.

Lemma parseLine_splitLine (line : string) :
  Markdown.parseLine line
  = match Spec.splitLine line with
    | Some (key, raw) => Some (key, Markdown.inferValue raw)
    | None => None
    end.
Proof.
  unfold Markdown.parseLine, Spec.splitLine.
  rewrite cut_indexOf.
  destruct (Str.isEmpty (Str.trim line)); [reflexivity|].
  cbn [orb]. destruct (Str.startsWith (Str.trim line) "#"); [reflexivity|].
  now destruct (Str.indexOf (Str.trim line) ":"%char).
Qed.

Lemma parseLine_lineEntry (line : string) :
  Markdown.parseLine line = Spec.lineEntry line.
Proof.
  unfold Spec.lineEntry. rewrite parseLine_splitLine.
  destruct (Spec.splitLine line) as [[key raw]|]; [|reflexivity].
  now rewrite inferValue_inferSpec.
Qed.

Lemma omap_parseLine (lines : list string) :
  omap Markdown.parseLine lines = omap Spec.lineEntry lines.
Proof.
  induction lines as [|line lines IH]; [reflexivity|].
  cbn [omap list_omap]. now rewrite parseLine_lineEntry, IH.
Qed.

(** C3. Line by line the parser does what the specification says: blank
    lines, comments and lines without a colon are skipped, the line is
    split at its first colon, and the type of the trimmed value is
    inferred in the order true/false, null, integer, decimal, string with
    one layer of surrounding matching quotes stripped; the block of the
    specification gives the strings [[typescript, mcp]] and
    [2024-01-15].  There is one exception: a value that is a single quote
    character has no surrounding quotes and should stay as it is, but the
    code, which tests [startsWith] and [endsWith] on the same code unit,
    strips it to the empty string. *)
Theorem frontmatter_value_inference :
  (forall line : string,
      Markdown.parseLine line
      = match Spec.splitLine line with
        | Some (key, raw) =>
            Some (key, if Spec.loneQuote raw then Markdown.YStr EmptyString
                       else Spec.inferSpec raw)
        | None => None
        end)
  /\ (let fm :=
        Markdown.frontmatter
          (Markdown.extractFrontmatter
             ("---" +:+ Str.LF +:+ "tags: [typescript, mcp]" +:+ Str.LF
              +:+ "date: 2024-01-15" +:+ Str.LF +:+ "---" +:+ Str.LF)) in
      fm !! "tags" = Some (Markdown.YStr "[typescript, mcp]")
      /\ fm !! "date" = Some (Markdown.YStr "2024-01-15"))
  /\ Spec.parseLineSpec "title: '" = Some ("title", Markdown.YStr "'")
  /\ Markdown.parseLine "title: '" = Some ("title", Markdown.YStr EmptyString)
  /\ Markdown.frontmatter
       (Markdown.extractFrontmatter
          ("---" +:+ Str.LF +:+ "title: '" +:+ Str.LF +:+ "---" +:+ Str.LF))
       !! "title"
     = Some (Markdown.YStr EmptyString).
Proof.
  split; [|split; [split|split; [|split]]].
  - intros line. rewrite parseLine_splitLine.
    destruct (Spec.splitLine line) as [[key raw]|]; [|reflexivity].
    now rewrite inferValue_inferSpec.
  - vm_compute. reflexivity.
  - vm_compute. reflexivity.
  - vm_compute. reflexivity.
  - vm_compute. reflexivity.
  - vm_compute. reflexivity.
Qed.

(** The precedence at work on one value of each kind.  A numeral becomes
    the nearest double: 2^53 + 1 is not one and becomes 2^53. *)
Example inferValue_kinds :
  Markdown.inferValue "true" = Markdown.YBool true
  /\ Markdown.inferValue "null" = Markdown.YNull
  /\ Markdown.inferValue "42" = Markdown.YNum (Double.Finite (42 * Double.one)%Z)
  /\ Markdown.inferValue "1.50" = Markdown.YNum (Double.Finite (3 * 2 ^ 1073)%Z)
  /\ Markdown.inferValue "9007199254740993"
     = Markdown.YNum (Double.Finite (2 ^ 53 * Double.one)%Z)
  /\ Markdown.inferValue "1.5.0" = Markdown.YStr "1.5.0"
  /\ Markdown.inferValue "'it is'" = Markdown.YStr "it is"
  /\ Markdown.inferValue "'open" = Markdown.YStr "'open".
Proof. repeat split; vm_compute; reflexivity. Qed.

(** A numeral of 310 digits is beyond the largest double. *)
Example parseInt_overflow :
  Markdown.parseInt (Str.repeat "9" 310) = Double.PosInfinity.
Proof. vm_compute. reflexivity. Qed.

(** ** Repeated keys *)

(** An assignment to a key other than [__proto__] only touches that
    key. *)
Lemma assign_lookup (result : Markdown.YamlObject) (key k : string)
    (value : Markdown.YamlValue) :
  k <> "__proto__" ->
  Markdown.assign result key value !! k
  = if String.eqb key k then Some value else result !! k.
Proof.
  intros Hk. unfold Markdown.assign, lookup, Markdown.YamlObject_lookup.
  destruct (String.eqb_spec key k) as [->|Hne].
  - destruct (String.eqb_spec k "__proto__") as [->|_]; [congruence|].
    cbn [andb Markdown.props]. apply lookup_insert_eq.
  - destruct (String.eqb key "__proto__" && negb (Markdown.nullPrototype result)).
    + now destruct value.
    + cbn [Markdown.props]. now apply lookup_insert_ne.
Qed.

Lemma fold_yamlStep_lookup (lines : list string)
    (result : Markdown.YamlObject) (k : string) :
  k <> "__proto__" ->
  fold_left Markdown.yamlStep lines result !! k
  = match Spec.lastBinding k (omap Markdown.parseLine lines) with
    | Some v => Some v
    | None => result !! k
    end.
Proof.
  intros Hk. revert result.
  induction lines as [|line lines IH]; intros result; [reflexivity|].
  cbn [fold_left omap list_omap]. rewrite IH. unfold Markdown.yamlStep, Spec.lastBinding.
  destruct (Markdown.parseLine line) as [[k' v']|]; [|reflexivity].
  cbn [List.filter fst]. rewrite assign_lookup by exact Hk.
  destruct (String.eqb k' k).
  - cbn [map snd]. rewrite last_cons. now destruct (last _).
  - reflexivity.
Qed.

(** C9. When a key appears on several metadata lines, the mapping binds
    it to the value inferred from the last of them: for every block and
    every key other than [__proto__], the lookup is the last entry for
    that key among the entries of the lines (split at the first colon,
    value inferred as the specification says), and nothing when no line
    has it.  The key [__proto__] is different, because the result is a
    plain object: the assignment goes to the setter inherited from
    [Object.prototype], which ignores a text, and the mapping binds the
    key to nothing whatever the lines say. *)
Theorem parseSimpleYaml_last_line_wins :
  (forall yaml k : string,
      k <> "__proto__" ->
      Markdown.parseSimpleYaml yaml !! k
      = Spec.lastBinding k (omap Spec.lineEntry (Str.split Char.LF yaml)))
  /\ (let block := "title: first" +:+ Str.LF +:+ "draft: true" +:+ Str.LF
                   +:+ "title: second" in
      Markdown.parseSimpleYaml block !! "title" = Some (Markdown.YStr "second")
      /\ Markdown.parseSimpleYaml block !! "draft" = Some (Markdown.YBool true))
  /\ (let block := "__proto__: first" +:+ Str.LF +:+ "__proto__: second" in
      Spec.lastBinding "__proto__" (omap Spec.parseLineSpec (Str.split Char.LF block))
      = Some (Markdown.YStr "second")
      /\ Markdown.parseSimpleYaml block !! "__proto__" = None).
Proof.
  split; [|split; split; vm_compute; reflexivity].
  intros yaml k Hk. unfold Markdown.parseSimpleYaml.
  rewrite fold_yamlStep_lookup by exact Hk.
  rewrite omap_parseLine.
  now destruct (Spec.lastBinding _ _).
Qed.

(** After [__proto__: null] the object has no prototype, and a later line
    with that key makes an own property. *)
Example proto_after_null :
  Markdown.parseSimpleYaml ("__proto__: null" +:+ Str.LF +:+ "__proto__: second")
  = Markdown.mkObject {["__proto__" := Markdown.YStr "second"]} true.
Proof. vm_compute. reflexivity. Qed.

(** ** The shape of the text a pattern matches *)

Section Literals.
Import RegExp.

Lemma includes_tail (c : ascii) (s q : string) :
  Str.includes s q = true -> Str.includes (String c s) q = true.
Proof. intros H. cbn [Str.includes]. rewrite H. apply orb_true_r. Qed.

Lemma includes_prefix (s q : string) :
  String.prefix q s = true -> Str.includes s q = true.
Proof. intros H. destruct s; cbn [Str.includes]; now rewrite H. Qed.

Lemma includes_append_l (pre s q : string) :
  Str.includes s q = true -> Str.includes (pre +:+ s) q = true.
Proof.
  intros H. induction pre as [|c pre IH]; [exact H|].
  rewrite append_cons. now apply includes_tail.
Qed.

Lemma prefix_append (q s : string) : String.prefix q (q +:+ s) = true.
Proof.
  induction q as [|c q IH]; [now destruct s|].
  rewrite append_cons. cbn [String.prefix].
  destruct (ascii_dec c c); [exact IH|congruence].
Qed.

Lemma includes_append (pre q post : string) :
  Str.includes (pre +:+ q +:+ post) q = true.
Proof. apply includes_append_l, includes_prefix, prefix_append. Qed.

Lemma strip_prefix_append (l s s' : string) :
  Str.strip_prefix l s = Some s' -> s = l +:+ s'.
Proof.
  revert s. induction l as [|a l IH]; intros s; cbn [Str.strip_prefix].
  - now intros [= ->].
  - destruct s as [|b s]; [discriminate|].
    destruct (Ascii.eqb_spec a b) as [->|Hne]; [|discriminate].
    intros Hs. rewrite append_cons. f_equal. auto.
Qed.

Lemma strip_prefix_here (l s : string) : Str.strip_prefix l (l +:+ s) = Some s.
Proof.
  induction l as [|c l IH]; [reflexivity|].
  rewrite append_cons. cbn [Str.strip_prefix]. now rewrite Ascii.eqb_refl.
Qed.

(** Where a quantified class succeeds, it took a run of its class and its
    continuation succeeded on the rest. *)
Lemma rep_decompose {R : Type} (cls : ascii -> bool) (greedy : bool)
    (k : option ascii -> string -> option R) (s : string) :
  forall lo hi prev n r,
    rep cls greedy k lo hi prev s = Some (n, r) ->
    exists pre prev' s',
      s = pre +:+ s' /\ Str.all_chars cls pre = true /\ k prev' s' = Some r.
Proof.
  induction s as [|c s IH]; intros lo hi prev n r.
  - cbn [rep]. destruct greedy, lo; try discriminate;
      destruct (k prev EmptyString) eqn:Hk; try discriminate;
      intros [= <- <-]; exists EmptyString, prev, EmptyString; auto.
  - cbn [rep].
    assert (Hmore : forall n r,
               (if cls c && has_room hi
                then match rep cls greedy k (Nat.pred lo) (less_room hi) (Some c) s with
                     | Some (n, r) => Some (S n, r)
                     | None => None
                     end
                else None) = Some (n, r) ->
               exists pre prev' s',
                 String c s = pre +:+ s'
                 /\ Str.all_chars cls pre = true /\ k prev' s' = Some r).
    { intros n' r'. destruct (cls c) eqn:Hc; [|discriminate].
      destruct (has_room hi); [|discriminate]. cbn [andb].
      destruct (rep cls greedy k (Nat.pred lo) (less_room hi) (Some c) s)
        as [[n0 r0]|] eqn:Hrep; [|discriminate].
      intros [= <- <-]. destruct (IH _ _ _ _ _ Hrep) as (pre & p' & s' & -> & Hpre & Hk).
      exists (String c pre), p', s'. rewrite append_cons. cbn [Str.all_chars].
      rewrite Hc, Hpre. auto. }
    assert (Hstop : forall n r,
               match lo with
               | O => match k prev (String c s) with
                      | Some r => Some (O, r)
                      | None => None
                      end
               | S _ => None
               end = Some (n, r) ->
               exists pre prev' s',
                 String c s = pre +:+ s'
                 /\ Str.all_chars cls pre = true /\ k prev' s' = Some r).
    { intros n' r'. destruct lo; [|discriminate].
      destruct (k prev (String c s)) eqn:Hk; [|discriminate].
      intros [= <- <-]. exists EmptyString, prev, (String c s). auto. }
    destruct greedy.
    + destruct (if cls c && has_room hi then _ else _) as [[n1 r1]|] eqn:Hm.
      * intros [= <- <-]. eauto.
      * apply Hstop.
    + destruct (match lo with O => _ | S _ => _ end) as [[n1 r1]|] eqn:Hs.
      * intros [= <- <-]. eauto.
      * apply Hmore.
Qed.

(** A match of the frontmatter pattern is a block: both delimiter lines
    with the whitespace after them. *)
Lemma frontmatterRegex_block (content : string) (res : nat * list string) :
  run false (source Markdown.frontmatterRegex) None content = Some res ->
  Spec.beginsWithBlock content.
Proof.
  cbn [source Markdown.frontmatterRegex]. rewrite run_bol. cbn [at_bol].
  rewrite run_lit.
  destruct (Str.strip_prefix "---" content) as [s1|] eqn:H1; [|discriminate].
  apply strip_prefix_append in H1. subst content.
  rewrite run_rep.
  destruct (rep Char.is_space true _ 0 None _ s1) as [[n1 [m1 c1]]|] eqn:H2;
    [|discriminate].
  intros _. apply rep_decompose in H2 as (ws1 & p2 & s2 & -> & Hws1 & H2).
  rewrite run_lit in H2.
  destruct (Str.strip_prefix Str.LF s2) as [s3|] eqn:H3; [|discriminate].
  apply strip_prefix_append in H3. subst s2.
  rewrite run_rep in H2.
  destruct (rep Char.any false _ 0 None _ s3) as [[n4 [m4 c4]]|] eqn:H4;
    [|discriminate].
  clear H2. apply rep_decompose in H4 as (yaml & p5 & s5 & -> & _ & H5).
  rewrite run_lit in H5.
  destruct (Str.strip_prefix (Str.LF +:+ "---") s5) as [s6|] eqn:H6; [|discriminate].
  apply strip_prefix_append in H6. subst s5.
  rewrite run_rep in H5.
  destruct (rep Char.is_space true _ 0 None _ s6) as [[n7 [m7 c7]]|] eqn:H7;
    [|discriminate].
  clear H5. apply rep_decompose in H7 as (ws2 & p8 & s8 & -> & Hws2 & H8).
  rewrite run_lit in H8.
  destruct (Str.strip_prefix Str.LF s8) as [rest|] eqn:H9; [|discriminate].
  apply strip_prefix_append in H9. subst s8.
  exists ws1, yaml, ws2, rest. split; [|split; assumption].
  rewrite !append_assoc. reflexivity.
Qed.

(** With the minimum at zero and no maximum, a quantified class matches
    as soon as one repetition of its class leads to a match of the rest:
    backtracking finds it, or another one before it. *)
Lemma rep_complete {R : Type} (cls : ascii -> bool) (greedy : bool)
    (k : option ascii -> string -> option R) (rest pre : string) :
  forall prev,
    Str.all_chars cls pre = true ->
    k (last_char pre prev) rest <> None ->
    rep cls greedy k 0 None prev (pre +:+ rest) <> None.
Proof.
  induction pre as [|c pre IH]; intros prev Hall Hk.
  - rewrite append_nil_l. cbn [last_char] in Hk.
    destruct (k prev rest) as [r|] eqn:Hr; [|congruence].
    destruct rest as [|a rest]; cbn [rep]; rewrite Hr; destruct greedy;
      try discriminate.
    destruct (cls a && has_room None); [|discriminate].
    now destruct (rep cls true k (Nat.pred 0) (less_room None) (Some a) rest) as [[n r']|].
  - cbn [Str.all_chars] in Hall. apply andb_prop in Hall as [Hc Hall].
    rewrite append_cons. cbn [rep has_room less_room Nat.pred]. rewrite Hc. cbn [andb].
    specialize (IH (Some c) Hall Hk).
    destruct (rep cls greedy k 0 None (Some c) (pre +:+ rest)) as [[n r]|];
      [|congruence].
    destruct greedy; [discriminate|].
    now destruct (k prev (String c (pre +:+ rest))).
Qed.

Lemma run_lit_complete (l : string) (r : list node) (prev : option ascii)
    (s : string) :
  run false r (last_char l prev) s <> None ->
  run false (Lit l :: r) prev (l +:+ s) <> None.
Proof.
  intros Hr. rewrite run_lit, strip_prefix_here.
  now destruct (run false r (last_char l prev) s) as [[n caps]|].
Qed.

Lemma run_rep_complete (cls : ascii -> bool) (greedy capture : bool)
    (r : list node) (prev : option ascii) (pre rest : string) :
  Str.all_chars cls pre = true ->
  run false r (last_char pre prev) rest <> None ->
  run false (Rep cls 0 None greedy capture :: r) prev (pre +:+ rest) <> None.
Proof.
  intros Hpre Hr. rewrite run_rep.
  pose proof (rep_complete cls greedy (run false r) rest pre prev Hpre Hr) as Hrep.
  now destruct (rep cls greedy (run false r) 0 None prev (pre +:+ rest))
    as [[n [m caps]]|].
Qed.

Lemma all_chars_any (s : string) : Str.all_chars Char.any s = true.
Proof.
  induction s as [|c s IH]; [reflexivity|].
  cbn [Str.all_chars]. rewrite IH. unfold Char.any. now destruct (Char.is_space c).
Qed.

(** Conversely the pattern matches every text that begins with a block. *)
Lemma frontmatterRegex_complete (content : string) :
  Spec.beginsWithBlock content ->
  run false (source Markdown.frontmatterRegex) None content <> None.
Proof.
  intros (ws1 & block & ws2 & rest & -> & Hws1 & Hws2).
  cbn [source Markdown.frontmatterRegex]. rewrite run_bol. cbn [at_bol].
  apply run_lit_complete, run_rep_complete; [exact Hws1|].
  apply run_lit_complete, run_rep_complete; [apply all_chars_any|].
  rewrite <- append_assoc.
  apply run_lit_complete, run_rep_complete; [exact Hws2|].
  rewrite <- (append_nil_r (Str.LF +:+ rest)), append_assoc.
  apply run_lit_complete. discriminate.
Qed.

(** Three ways of not beginning with a block: no delimiter at the start,
    a first line that goes on after [---], no closing delimiter. *)
Lemma no_delimiter_no_block (content : string) :
  Str.startsWith content "---" = false -> ~ Spec.beginsWithBlock content.
Proof.
  intros Hno (ws1 & block & ws2 & rest & -> & _). unfold Str.startsWith in Hno.
  now rewrite prefix_append in Hno.
Qed.

Lemma first_line_no_block (c : ascii) (text : string) :
  Char.is_space c = false -> ~ Spec.beginsWithBlock ("---" +:+ String c text).
Proof.
  intros Hc (ws1 & block & ws2 & rest & Heq & Hws1 & _).
  rewrite !append_cons, !append_nil_l in Heq. injection Heq as Heq.
  destruct ws1 as [|a ws1].
  - rewrite append_nil_l in Heq.
    change (Str.LF +:+ ?x) with (String Char.LF x) in Heq.
    injection Heq as -> _. discriminate.
  - rewrite append_cons in Heq. injection Heq as -> _.
    cbn [Str.all_chars] in Hws1. now rewrite Hc in Hws1.
Qed.

Lemma unclosed_no_block (content : string) :
  ~ Spec.hasClosingDelimiter content -> ~ Spec.beginsWithBlock content.
Proof.
  intros Hno (ws1 & block & ws2 & rest & -> & _ & Hws2). apply Hno.
  exists ("---" +:+ ws1 +:+ Str.LF +:+ block), ws2, rest. split; [|exact Hws2].
  now rewrite !append_assoc.
Qed.

(** Without a line starting with [---] after the first, there is no
    closing delimiter. *)
Lemma no_dashes_no_closing (content : string) :
  Str.includes content (Str.LF +:+ "---") = false ->
  ~ Spec.hasClosingDelimiter content.
Proof.
  intros Hno (before & ws & after & -> & _).
  change (before +:+ Str.LF +:+ "---" +:+ ws +:+ Str.LF +:+ after)
    with (before +:+ (Str.LF +:+ "---") +:+ ws +:+ Str.LF +:+ after) in Hno.
  now rewrite includes_append in Hno.
Qed.

End Literals.

(** C4. A text that does not begin with a frontmatter block (a delimiter
    line, the block, and a closing delimiter line ended by a line break,
    where a delimiter line is [---] and nothing but whitespace) is
    returned unchanged with an empty mapping: so it is when there is no
    delimiter at the start, when the first line goes on after [---], and
    when no closing delimiter follows.  [extractFrontmatter] is a total
    function: it has no error result. *)
Theorem extractFrontmatter_without_block (content : string) :
  ~ Spec.beginsWithBlock content ->
  Markdown.extractFrontmatter content = Markdown.mkExtracted ∅ content.
Proof.
  intros Hno. unfold Markdown.extractFrontmatter, Markdown.frontmatterRegex.
  rewrite exec_anchored.
  destruct (RegExp.run false _ None content) as [[n caps]|] eqn:Hrun; [|reflexivity].
  exfalso. apply Hno, (frontmatterRegex_block content (n, caps)).
  cbn [RegExp.source Markdown.frontmatterRegex]. rewrite run_bol. exact Hrun.
Qed.

Lemma extractFrontmatter_without_block_witness :
  Markdown.extractFrontmatter ("# Notes" +:+ Str.LF +:+ "plain text")
  = Markdown.mkExtracted ∅ ("# Notes" +:+ Str.LF +:+ "plain text")
  /\ Markdown.extractFrontmatter
       ("---" +:+ Str.LF +:+ "title: draft" +:+ Str.LF +:+ "text")
     = Markdown.mkExtracted ∅
         ("---" +:+ Str.LF +:+ "title: draft" +:+ Str.LF +:+ "text")
  /\ Markdown.extractFrontmatter
       ("---" +:+ "x" +:+ Str.LF +:+ "a: b" +:+ Str.LF +:+ "---" +:+ Str.LF +:+ "body")
     = Markdown.mkExtracted ∅
         ("---" +:+ "x" +:+ Str.LF +:+ "a: b" +:+ Str.LF +:+ "---" +:+ Str.LF +:+ "body").
Proof.
  split; [|split].
  - apply extractFrontmatter_without_block, no_delimiter_no_block. reflexivity.
  - apply extractFrontmatter_without_block, unclosed_no_block, no_dashes_no_closing.
    reflexivity.
  - apply extractFrontmatter_without_block.
    apply (first_line_no_block "x" (Str.LF +:+ "a: b" +:+ Str.LF +:+ "---" +:+ Str.LF +:+ "body")).
    reflexivity.
Defined.

(** The hypothesis cannot be made weaker: where the text begins with a
    block, the pattern matches and the block is taken off. *)
Lemma extractFrontmatter_with_block (content : string) :
  Spec.beginsWithBlock content ->
  exists m, RegExp.exec Markdown.frontmatterRegex content = Some m.
Proof.
  intros Hblock. apply frontmatterRegex_complete in Hblock.
  unfold Markdown.frontmatterRegex. rewrite exec_anchored.
  cbn [RegExp.source Markdown.frontmatterRegex] in Hblock. rewrite run_bol in Hblock.
  cbn [RegExp.at_bol] in Hblock.
  destruct (RegExp.run false _ None content) as [[n caps]|]; [eauto|congruence].
Qed.

(** A line that merely starts with [---] does not close the block. *)
Example extractFrontmatter_unclosed :
  Markdown.extractFrontmatter
    ("---" +:+ Str.LF +:+ "title: draft" +:+ Str.LF +:+ "---text" +:+ Str.LF)
  = Markdown.mkExtracted ∅
      ("---" +:+ Str.LF +:+ "title: draft" +:+ Str.LF +:+ "---text" +:+ Str.LF).
Proof. vm_compute. reflexivity. Qed.

(** ** [Array.prototype.sort] with a comparator that orders by a key *)

Section SortFacts.
Context {A : Type}.
Variable key : A -> Q.
Variable compare : A -> A -> Q.

(** [compare a b > 0] exactly when [a] has the smaller key: the
    comparator sorts by descending key. *)
Hypothesis compare_gt : forall a b, (compare a b ?= 0)%Q = Gt <-> (key a < key b)%Q.

Lemma insert_Permutation (x : A) (l : list A) :
  Permutation (Js.insert compare x l) (x :: l).
Proof.
  induction l as [|y l IH]; cbn [Js.insert]; [reflexivity|].
  destruct (compare x y ?= 0)%Q; try reflexivity.
  rewrite IH. apply perm_swap.
Qed.

Lemma sort_Permutation (l : list A) : Permutation (Js.sort compare l) l.
Proof.
  induction l as [|x l IH]; cbn [Js.sort fold_right]; [reflexivity|].
  fold (Js.sort compare l). rewrite insert_Permutation. now constructor.
Qed.

Lemma insert_sorted (x : A) (l : list A) :
  StronglySorted (fun a b => (key b <= key a)%Q) l -> StronglySorted (fun a b => (key b <= key a)%Q) (Js.insert compare x l).
Proof.
  induction l as [|y l IH]; intros Hs; cbn [Js.insert].
  - repeat constructor.
  - inversion Hs as [|? ? Hl Hy]; subst.
    destruct (compare x y ?= 0)%Q eqn:Hc.
    + constructor; [exact Hs|]. constructor.
      * apply Qnot_lt_le. rewrite <- compare_gt. congruence.
      * eapply Forall_impl; [exact Hy|]. cbn beta. intros z Hz.
        assert (key y <= key x)%Q
          by (apply Qnot_lt_le; rewrite <- compare_gt; congruence).
        lra.
    + constructor; [exact Hs|]. constructor.
      * apply Qnot_lt_le. rewrite <- compare_gt. congruence.
      * eapply Forall_impl; [exact Hy|]. cbn beta. intros z Hz.
        assert (key y <= key x)%Q
          by (apply Qnot_lt_le; rewrite <- compare_gt; congruence).
        lra.
    + constructor; [auto|].
      apply (Permutation_Forall (Permutation_sym (insert_Permutation x l))).
      constructor; [|exact Hy].
      apply Qlt_le_weak. now apply compare_gt.
Qed.

Lemma sort_sorted (l : list A) : StronglySorted (fun a b => (key b <= key a)%Q) (Js.sort compare l).
Proof.
  induction l as [|x l IH]; cbn [Js.sort fold_right]; [constructor|].
  now apply insert_sorted.
Qed.

(** Insertion never moves an element past one with the same key. *)
Lemma insert_sameKey (q : Q) (x : A) (l : list A) :
  List.filter (fun a => Qeq_bool (key a) q) (Js.insert compare x l)
  = List.filter (fun a => Qeq_bool (key a) q) (x :: l).
Proof.
  induction l as [|y l IH]; cbn [Js.insert]; [reflexivity|].
  destruct (compare x y ?= 0)%Q eqn:Hc; try reflexivity.
  apply compare_gt in Hc.
  cbn [List.filter] in *. rewrite IH.
  destruct (Qeq_bool (key x) q) eqn:Hx, (Qeq_bool (key y) q) eqn:Hy; try reflexivity.
  apply Qeq_bool_iff in Hx, Hy. lra.
Qed.

Lemma sort_stable (q : Q) (l : list A) :
  List.filter (fun a => Qeq_bool (key a) q) (Js.sort compare l) = List.filter (fun a => Qeq_bool (key a) q) l.
Proof.
  induction l as [|x l IH]; cbn [Js.sort fold_right]; [reflexivity|].
  fold (Js.sort compare l). rewrite insert_sameKey.
  cbn [List.filter]. now rewrite IH.
Qed.

End SortFacts.

Lemma StronglySorted_take {A : Type} (R : A -> A -> Prop) (n : nat) (l : list A) :
  StronglySorted R l -> StronglySorted R (take n l).
Proof.
  revert n. induction l as [|x l IH]; intros [|n] Hs; cbn; try constructor.
  - inversion Hs; subst. auto.
  - inversion Hs; subst. now apply Forall_take.
Qed.

Lemma slice0_take {A : Type} (l : list A) (e : Z) :
  (0 <= e)%Z -> Js.slice0 l e = take (Z.to_nat e) l.
Proof.
  intros He. unfold Js.slice0, Str.clampIndex.
  replace (e <? 0)%Z with false by lia.
  destruct (Z.le_ge_cases e (Z.of_nat (length l))).
  - f_equal. lia.
  - rewrite !take_ge by lia. reflexivity.
Qed.

(** ** Rounding to a double *)

Section RoundFacts.
Import Double.
Local Open Scope Z_scope.

Lemma rneDiv_bounds (n d : Z) : n / d <= rneDiv n d <= n / d + 1.
Proof.
  unfold rneDiv. destruct (2 * (n mod d) ?= d); [destruct (Z.even (n / d))|..]; lia.
Qed.

Lemma rneDiv_exact (m d : Z) : 0 < d -> rneDiv (m * d) d = m.
Proof.
  intros Hd. unfold rneDiv. rewrite Z.div_mul, Z.mod_mul by lia.
  replace (2 * 0 ?= d) with Lt by (symmetry; apply Z.compare_lt_iff; lia).
  reflexivity.
Qed.

Lemma rneDiv_mono (n1 n2 d : Z) :
  0 < d -> n1 <= n2 -> rneDiv n1 d <= rneDiv n2 d.
Proof.
  intros Hd Hn.
  pose proof (Z.div_le_mono n1 n2 d Hd Hn) as Hq.
  destruct (Z.eq_dec (n1 / d) (n2 / d)) as [Heq|Hne].
  - assert (Hr : n1 mod d <= n2 mod d).
    { pose proof (Z.div_mod n1 d ltac:(lia)). pose proof (Z.div_mod n2 d ltac:(lia)).
      rewrite Heq in *. nia. }
    unfold rneDiv. rewrite Heq.
    destruct (Z.compare_spec (2 * (n1 mod d)) d), (Z.compare_spec (2 * (n2 mod d)) d);
      try destruct (Z.even (n2 / d)); lia.
  - pose proof (rneDiv_bounds n1 d). pose proof (rneDiv_bounds n2 d). lia.
Qed.

Lemma rneDiv_lower (n m d : Z) : 0 < d -> m * d <= n -> m <= rneDiv n d.
Proof.
  intros Hd Hn. rewrite <- (rneDiv_exact m d Hd). now apply rneDiv_mono.
Qed.

Lemma rneDiv_upper (n m d : Z) : 0 < d -> n <= m * d -> rneDiv n d <= m.
Proof.
  intros Hd Hn. rewrite <- (rneDiv_exact m d Hd). now apply rneDiv_mono.
Qed.

Lemma roundPos_1 (n : Z) :
  roundPos n 1
  = rneDiv n (2 ^ Z.max 0 (Z.log2 n - 52)) * 2 ^ Z.max 0 (Z.log2 n - 52).
Proof. unfold roundPos. now rewrite Z.div_1_r, Z.mul_1_l. Qed.

(** Up to 2^53 units nothing is rounded. *)
Lemma roundPos_small (n : Z) : 0 <= n < 2 ^ 53 -> roundPos n 1 = n.
Proof.
  intros Hn. rewrite roundPos_1.
  assert (Hlog : Z.log2 n <= 52).
  { destruct (Z.eq_dec n 0) as [->|Hne]; [change (Z.log2 0) with 0; lia|].
    assert (Z.log2 n < 53) by (apply Z.log2_lt_pow2; lia). lia. }
  replace (Z.max 0 (Z.log2 n - 52)) with 0 by lia.
  change (2 ^ 0) with 1. rewrite Z.mul_1_r.
  rewrite <- (Z.mul_1_r n) at 1. apply rneDiv_exact. lia.
Qed.

(** The rounded value stays within the binade of the argument. *)
Lemma roundPos_binade (n : Z) :
  2 ^ 53 <= n ->
  2 ^ Z.log2 n <= roundPos n 1 <= 2 ^ (Z.log2 n + 1).
Proof.
  intros Hn. rewrite roundPos_1.
  assert (Hlog : 53 <= Z.log2 n) by (apply Z.log2_le_pow2; lia).
  destruct (Z.log2_spec n ltac:(lia)) as [Hlo Hhi].
  replace (Z.max 0 (Z.log2 n - 52)) with (Z.log2 n - 52) by lia.
  set (k := Z.log2 n - 52) in *.
  assert (Hk : 0 < 2 ^ k) by (apply Z.pow_pos_nonneg; lia).
  assert (H52 : 2 ^ Z.log2 n = 2 ^ 52 * 2 ^ k)
    by (rewrite <- Z.pow_add_r by lia; f_equal; lia).
  assert (H53 : 2 ^ (Z.log2 n + 1) = 2 ^ 53 * 2 ^ k)
    by (rewrite <- Z.pow_add_r by lia; f_equal; lia).
  replace (Z.succ (Z.log2 n)) with (Z.log2 n + 1) in Hhi by lia.
  rewrite H52, H53. split.
  - apply Z.mul_le_mono_nonneg_r; [lia|]. apply rneDiv_lower; lia.
  - apply Z.mul_le_mono_nonneg_r; [lia|]. apply rneDiv_upper; lia.
Qed.

Lemma roundPos_mono (a b : Z) :
  0 <= a <= b -> roundPos a 1 <= roundPos b 1.
Proof.
  intros [Ha Hab].
  destruct (Z.lt_ge_cases b (2 ^ 53)) as [Hb|Hb].
  - rewrite !roundPos_small by lia. exact Hab.
  - destruct (Z.lt_ge_cases a (2 ^ 53)) as [Ha53|Ha53].
    + rewrite (roundPos_small a) by lia.
      pose proof (roundPos_binade b Hb) as [Hlo _].
      pose proof (Z.log2_le_pow2 b 53 ltac:(lia)) as [Hl _]. specialize (Hl Hb).
      pose proof (Z.pow_le_mono_r 2 53 (Z.log2 b) ltac:(lia) Hl). lia.
    + pose proof (Z.log2_le_mono a b Hab) as Hlog.
      destruct (Z.eq_dec (Z.log2 a) (Z.log2 b)) as [Heq|Hne].
      * rewrite !roundPos_1, Heq.
        apply Z.mul_le_mono_nonneg_r; [apply Z.pow_nonneg; lia|].
        apply rneDiv_mono; [apply Z.pow_pos_nonneg|]; [lia| |lia].
        pose proof (Z.log2_nonneg b). lia.
      * pose proof (roundPos_binade a Ha53) as [_ Hhi].
        pose proof (roundPos_binade b Hb) as [Hlo _].
        pose proof (Z.pow_le_mono_r 2 (Z.log2 a + 1) (Z.log2 b) ltac:(lia) ltac:(lia)).
        lia.
Qed.

Lemma roundPos_nonneg (n : Z) : 0 <= n -> 0 <= roundPos n 1.
Proof.
  intros Hn.
  rewrite <- (roundPos_small 0) at 1 by (split; [lia|apply Z.pow_pos_nonneg; lia]).
  apply roundPos_mono. lia.
Qed.

Lemma roundPos_pos (n : Z) : 0 < n -> 0 < roundPos n 1.
Proof.
  intros Hn.
  assert (H1 : roundPos 1 1 = 1) by reflexivity.
  pose proof (roundPos_mono 1 n ltac:(lia)). lia.
Qed.

(** Rounding is monotone, keeps the sign, and leaves 0 and 1 alone. *)
Lemma round_mono (a b : Z) : a <= b -> round a <= round b.
Proof.
  intros Hab. unfold round, roundRatio.
  destruct (Z.ltb_spec a 0), (Z.ltb_spec b 0); try lia.
  - pose proof (roundPos_mono (- b) (- a) ltac:(lia)). lia.
  - pose proof (roundPos_nonneg (- a) ltac:(lia)).
    pose proof (roundPos_nonneg b ltac:(lia)). lia.
  - apply roundPos_mono. lia.
Qed.

Lemma round_pos (n : Z) : 0 < round n <-> 0 < n.
Proof.
  unfold round, roundRatio. destruct (Z.ltb_spec n 0).
  - pose proof (roundPos_pos (- n) ltac:(lia)). lia.
  - destruct (Z.eq_dec n 0) as [->|Hne].
    + rewrite (roundPos_small 0) by (split; [lia|reflexivity]). lia.
    + pose proof (roundPos_pos n ltac:(lia)). lia.
Qed.

Lemma round_zero : round 0 = 0.
Proof. reflexivity. Qed.

Lemma round_one : round one = one.
Proof. reflexivity. Qed.

Lemma one_pos : 0 < one.
Proof. reflexivity. Qed.

Lemma add_nonneg (a w : t) : 0 <= a -> 0 <= w -> 0 <= add a w.
Proof.
  intros Ha Hw. unfold add. rewrite <- round_zero at 1. apply round_mono. lia.
Qed.

(** [1 - s] for a score [s] of the unit interval. *)
Lemma sub_unit (s : t) : 0 <= s <= one -> 0 <= sub one s <= one.
Proof.
  intros Hs. unfold sub. split.
  - rewrite <- round_zero at 1. apply round_mono. lia.
  - rewrite <- round_one at 2. apply round_mono. lia.
Qed.

Lemma sub_antitone (s1 s2 : t) : s1 <= s2 -> sub one s2 <= sub one s1.
Proof. intros Hs. unfold sub. apply round_mono. lia. Qed.

Lemma toQ_sign (d : t) : (toQ d ?= 0)%Q = (d ?= 0).
Proof. unfold toQ, Qcompare. cbn [Qnum Qden]. now rewrite Z.mul_1_r. Qed.

Lemma filename_weight_nonneg : 0 <= ofQ 0.4.
Proof. vm_compute. discriminate. Qed.

Lemma line_weight_nonneg : 0 <= ofQ 0.1.
Proof. vm_compute. discriminate. Qed.

Lemma entry_weight_nonneg : 0 <= ofQ 0.2.
Proof. vm_compute. discriminate. Qed.

(** 0 + 0.4 is 0.4, below 1. *)
Lemma filename_only_score : min (add zero (ofQ 0.4)) one = ofQ 0.4.
Proof. vm_compute. reflexivity. Qed.

End RoundFacts.

(** The model computes as the Standard Library's IEEE 754 binary64 does:
    on these operands for [+], [-] and [*], and for the literal [0.1] as the
    quotient of 1 by 10. *)
Example double_as_binary64 :
  let operands :=
    map Double.ofQ
      [0.1%Q; 0.2%Q; 0.4%Q; 1%Q] in
  forallb
    (fun a =>
       forallb
         (fun b =>
            match Double.ofSpec (SFadd 53 1024 (Double.toSpec a) (Double.toSpec b)),
                  Double.ofSpec (SFsub 53 1024 (Double.toSpec a) (Double.toSpec b)),
                  Double.ofSpec (SFmul 53 1024 (Double.toSpec a) (Double.toSpec b)) with
            | Some sum, Some difference, Some product =>
                (sum =? Double.add a b)%Z && (difference =? Double.sub a b)%Z
                && (product =? Double.mul a b)%Z
            | _, _, _ => false
            end)
         operands)
    operands
  = true
  /\ Double.ofSpec
       (SFdiv 53 1024 (Double.toSpec Double.one) (Double.toSpec (10 * Double.one)%Z))
     = Some (Double.ofQ 0.1).
Proof. split; vm_compute; reflexivity. Qed.

Lemma byScoreDesc_gt (a b : Search.SearchResult) :
  (Search.byScoreDesc a b ?= 0)%Q = Gt
  <-> (inject_Z (Search.score a) < inject_Z (Search.score b))%Q.
Proof.
  unfold Search.byScoreDesc, Double.sub. rewrite toQ_sign, <- Zlt_Qlt.
  rewrite Z.compare_gt_iff, round_pos. lia.
Qed.

Lemma byLastModifiedDesc_gt (a b : Files.ContentFile) :
  (Search.byLastModifiedDesc a b ?= 0)%Q = Gt
  <-> (inject_Z (Files.lastModified a) < inject_Z (Files.lastModified b))%Q.
Proof.
  unfold Search.byLastModifiedDesc. rewrite <- Qgt_alt, <- Zlt_Qlt.
  change 0%Q with (inject_Z 0). rewrite <- Zlt_Qlt. lia.
Qed.

(** ** The exact strategy: the two accumulators of the loop *)

Section ExactFacts.
Import Search.

Lemma fold_push_omap {X Y : Type} (f : X -> option Y) (l : list X) (acc : list Y) :
  fold_left (fun acc x => match f x with Some y => acc ++ [y] | None => acc end) l acc
  = acc ++ omap f l.
Proof.
  revert acc. induction l as [|x l IH]; intros acc; cbn [fold_left omap list_omap].
  - now rewrite app_nil_r.
  - rewrite IH. destruct (f x); [|reflexivity].
    now rewrite <- app_assoc.
Qed.

Lemma includes_empty (q : string) :
  Str.isEmpty q = false -> Str.includes EmptyString q = false.
Proof. now destruct q. Qed.

Variable query : string.
Hypothesis query_nonempty : query <> EmptyString.

Lemma lower_query_nonempty : Str.isEmpty (Str.toLowerCase query) = false.
Proof. rewrite toLowerCase_empty. now destruct query. Qed.

(** For a non-empty query the guard [line &&] changes nothing: an empty
    line contains no non-empty text. *)
Lemma line_guard (line : string) :
  negb (Str.isEmpty line) && Str.includes (Str.toLowerCase line) (Str.toLowerCase query)
  = Spec.containsCI line query.
Proof.
  unfold Spec.containsCI. destruct line; [|reflexivity].
  cbn [Str.isEmpty negb andb Str.toLowerCase Str.map_chars].
  now rewrite includes_empty by apply lower_query_nonempty.
Qed.

(** The loop over the lines pushes one entry and adds 0.1 once for every
    matching line. *)
Lemma searchLines_count (contentLines : list string) (i : nat) (acc : Acc) :
  let n := length (List.filter (fun line => Spec.containsCI line query) contentLines) in
  let acc' := searchLines (Str.toLowerCase query) contentLines i acc in
  length (fst acc') = length (fst acc) + n
  /\ snd acc' = Nat.iter n (fun s => Double.add s (Double.ofQ 0.1)) (snd acc).
Proof.
  revert i acc. induction contentLines as [|line rest IH]; intros i acc.
  - cbn [List.filter length searchLines Nat.iter nat_rect]. split; [lia|reflexivity].
  - cbn [searchLines List.filter]. rewrite line_guard.
    destruct (Spec.containsCI line query).
    + destruct (IH (S i) (hit acc ("Line " +:+ Str.ofNat (i + 1) +:+ ": " +:+ Str.trim line)
                            (Double.ofQ 0.1)))
        as [Hlen Hscore].
      cbn zeta in *. rewrite Hlen, Hscore. cbn [hit fst snd length].
      rewrite length_app. cbn [length]. split; [lia|].
      now rewrite Nat.iter_succ_r.
    + apply IH.
Qed.

Lemma searchEntries_count (entries : list (string * Js.Value)) (acc : Acc) :
  let n := length (List.filter
                     (fun e => match snd e with
                               | Js.Str v => Spec.containsCI v query
                               | _ => false
                               end) entries) in
  let acc' := searchEntries (Str.toLowerCase query) entries acc in
  length (fst acc') = length (fst acc) + n
  /\ snd acc' = Nat.iter n (fun s => Double.add s (Double.ofQ 0.2)) (snd acc).
Proof.
  revert acc. induction entries as [|[k v] rest IH]; intros acc.
  - cbn [List.filter length searchEntries Nat.iter nat_rect]. split; [lia|reflexivity].
  - cbn [searchEntries List.filter snd].
    assert (Hskip :
              let n := length (List.filter
                                 (fun e => match snd e with
                                           | Js.Str v => Spec.containsCI v query
                                           | _ => false
                                           end) rest) in
              let acc' := searchEntries (Str.toLowerCase query) rest acc in
              length (fst acc') = length (fst acc) + n
              /\ snd acc' = Nat.iter n (fun s => Double.add s (Double.ofQ 0.2)) (snd acc))
      by apply IH.
    destruct v as [|b|q|s|items|es|t]; try exact Hskip.
    fold (Spec.containsCI s query). destruct (Spec.containsCI s query); [|exact Hskip].
    destruct (IH (hit acc (k +:+ ": " +:+ s) (Double.ofQ 0.2))) as [Hlen Hscore].
    cbn zeta in *. rewrite Hlen, Hscore. cbn [hit fst snd length].
    rewrite length_app. cbn [length]. split; [lia|].
    now rewrite Nat.iter_succ_r.
Qed.

(** The result pushed for one document: none without a match, and with
    the accumulated score otherwise. *)
Lemma exactResult_spec (includeContent : bool) (f : Files.ContentFile) :
  match exactResult (Str.toLowerCase query) includeContent f with
  | Some r =>
      file r = resultFile includeContent f
      /\ score r = Spec.accumulatedScore query f
      /\ 0 < Spec.matchCount query f
  | None => Spec.matchCount query f = 0
  end.
Proof.
  unfold exactResult.
  set (a1 := searchFilename (Str.toLowerCase query) f ([], Double.zero)).
  set (a2 := searchLines (Str.toLowerCase query) (Str.split Char.LF (Files.content f)) 0 a1).
  set (a3 := searchFrontmatter (Str.toLowerCase query) f a2).
  assert (H1 : length (fst a1) = (if Spec.filenameMatches query f then 1 else 0)
               /\ snd a1 = if Spec.filenameMatches query f
                           then Double.add Double.zero (Double.ofQ 0.4)
                           else Double.zero).
  { unfold a1, searchFilename, Spec.filenameMatches, Spec.containsCI.
    destruct (Str.includes _ _); split; reflexivity. }
  destruct H1 as [L1 S1].
  destruct (searchLines_count (Str.split Char.LF (Files.content f)) 0 a1) as [L2 S2].
  fold a2 in L2, S2. cbn zeta in L2, S2.
  fold (Spec.matchingLines query f) in L2, S2.
  assert (H3 : length (fst a3) = length (fst a2) + Spec.matchingEntries query f
               /\ snd a3 = Nat.iter (Spec.matchingEntries query f)
                             (fun s => Double.add s (Double.ofQ 0.2)) (snd a2)).
  { unfold a3, searchFrontmatter, Spec.matchingEntries.
    destruct (Files.frontmatter f) as [entries|].
    - apply searchEntries_count.
    - cbn [length Nat.iter nat_rect]. split; [lia|reflexivity]. }
  destruct H3 as [L3 S3].
  assert (Hlen : length (fst a3) = Spec.matchCount query f)
    by (unfold Spec.matchCount; lia).
  rewrite Hlen.
  destruct (Nat.ltb_spec 0 (Spec.matchCount query f)) as [Hpos|Hzero]; [|lia].
  cbn [file score]. repeat split; [|exact Hpos].
  unfold Spec.accumulatedScore. cbn zeta. now rewrite S3, S2, S1.
Qed.

(** The results in scan order, before sorting: one per document with a
    match. *)
Lemma exact_hits (includeContent : bool) (files : list Files.ContentFile) :
  Forall2
    (fun r f => file r = resultFile includeContent f
                /\ score r = Spec.accumulatedScore query f)
    (omap (exactResult (Str.toLowerCase query) includeContent) files)
    (List.filter (fun f => (0 <? Spec.matchCount query f)%nat) files).
Proof.
  induction files as [|f files IH]; cbn [omap list_omap List.filter]; [constructor|].
  pose proof (exactResult_spec includeContent f) as Hf.
  destruct (exactResult (Str.toLowerCase query) includeContent f) as [r|].
  - destruct Hf as (Hfile & Hscore & Hpos).
    apply Nat.ltb_lt in Hpos. rewrite Hpos. constructor; auto.
  - rewrite Hf. exact IH.
Qed.

End ExactFacts.

Lemma performExactSearch_unfold (files : list Files.ContentFile) (query : string)
    (maxResults : Z) (includeContent : bool) :
  Search.performExactSearch files query maxResults includeContent
  = Js.slice0
      (Js.sort Search.byScoreDesc
         (omap (Search.exactResult (Str.toLowerCase query) includeContent) files))
      maxResults.
Proof.
  unfold Search.performExactSearch. now rewrite fold_push_omap.
Qed.

Lemma In_slice0 {A : Type} (x : A) (l : list A) (e : Z) :
  In x (Js.slice0 l e) -> In x l.
Proof.
  unfold Js.slice0. intros Hin.
  rewrite <- (firstn_skipn (Z.to_nat (Str.clampIndex (Z.of_nat (length l)) e)) l).
  apply in_or_app. now left.
Qed.

Lemma omap_exactResult_filter (query : string) (includeContent : bool)
    (files : list Files.ContentFile) :
  query <> EmptyString ->
  omap (Search.exactResult (Str.toLowerCase query) includeContent)
       (List.filter (fun f => (0 <? Spec.matchCount query f)%nat) files)
  = omap (Search.exactResult (Str.toLowerCase query) includeContent) files.
Proof.
  intros Hq. induction files as [|f files IH]; [reflexivity|].
  cbn [List.filter omap list_omap].
  pose proof (exactResult_spec query Hq includeContent f) as Hf.
  destruct (Search.exactResult (Str.toLowerCase query) includeContent f) as [r|] eqn:Hr.
  - destruct Hf as (_ & _ & Hpos). apply Nat.ltb_lt in Hpos. rewrite Hpos.
    cbn [omap list_omap]. now rewrite Hr, IH.
  - rewrite Hf. exact IH.
Qed.

Lemma ten_lines_score :
  map Search.score (Search.performExactSearch [Sample.tenLines] "todo" 10 true)
  = [Double.ofQ 0.9999999999999999].
Proof. vm_compute. reflexivity. Qed.

Lemma ten_lines_formula :
  Qeq_bool (Spec.exactScore "todo" Sample.tenLines) 1 = true
  /\ Spec.exactScoreRounded "todo" Sample.tenLines = Double.one.
Proof. split; vm_compute; reflexivity. Qed.

Lemma below_one :
  Qeq_bool (Double.toQ (Double.ofQ 0.9999999999999999)) 1 = false
  /\ (Double.ofQ 0.9999999999999999 =? Double.one)%Z = false.
Proof. split; vm_compute; reflexivity. Qed.

(** C1 as stated fails on one input: a document with ten matching lines
    has the score 0.9999999999999999, ten times 0.1 added up in doubles,
    where the formula gives 1, over the real numbers and also with its
    products and sums rounded to doubles. *)
Lemma exact_score_ten_lines_counterexample :
  map Search.score (Search.performExactSearch [Sample.tenLines] "todo" 10 true)
  = [Double.ofQ 0.9999999999999999]
  /\ (Spec.exactScore "todo" Sample.tenLines == 1)%Q
  /\ Spec.exactScoreRounded "todo" Sample.tenLines = Double.one
  /\ ~ (Double.toQ (Double.ofQ 0.9999999999999999) == 1)%Q
  /\ Double.ofQ 0.9999999999999999 <> Double.one.
Proof.
  split; [exact ten_lines_score|].
  split; [apply Qeq_bool_iff; exact (proj1 ten_lines_formula)|].
  split; [exact (proj2 ten_lines_formula)|].
  split.
  - intros H. apply Qeq_bool_iff in H.
    rewrite (proj1 below_one) in H. discriminate.
  - intros H. apply Z.eqb_eq in H.
    rewrite (proj2 below_one) in H. discriminate.
Qed.

(** C1, amended.  For a non-empty query (the schema of [searchNotes]
    admits no other), the results of the exact strategy are, sorted and
    truncated, one result per document with at least one match, in scan
    order, whose score is the sum accumulated in double arithmetic (0.4
    for the filename, then 0.1 once per matching line, then 0.2 once per
    matching entry) clamped to 1.  Every returned result thus belongs to
    a document with a match and carries that score; a document matching
    only in its filename scores 0.4; and the documents without a match
    have no part in the result. *)
Theorem exact_score_formula (files : list Files.ContentFile) (query : string)
    (maxResults : Z) (includeContent : bool) :
  query <> EmptyString ->
  (exists hits,
      Search.performExactSearch files query maxResults includeContent
      = Js.slice0 (Js.sort Search.byScoreDesc hits) maxResults
      /\ Forall2
           (fun r f => Search.file r = Search.resultFile includeContent f
                       /\ Search.score r = Spec.accumulatedScore query f)
           hits
           (List.filter (fun f => (0 <? Spec.matchCount query f)%nat) files))
  /\ Forall
       (fun r => exists f,
            In f files /\ 0 < Spec.matchCount query f
            /\ Search.file r = Search.resultFile includeContent f
            /\ Search.score r = Spec.accumulatedScore query f)
       (Search.performExactSearch files query maxResults includeContent)
  /\ (forall f,
         Spec.filenameMatches query f = true ->
         Spec.matchingLines query f = 0 -> Spec.matchingEntries query f = 0 ->
         Spec.accumulatedScore query f = Double.ofQ 0.4)
  /\ Search.performExactSearch
       (List.filter (fun f => (0 <? Spec.matchCount query f)%nat) files)
       query maxResults includeContent
     = Search.performExactSearch files query maxResults includeContent.
Proof.
  intros Hq.
  pose proof (exact_hits query Hq includeContent files) as Hhits.
  repeat split.
  - eexists. split; [apply performExactSearch_unfold|exact Hhits].
  - apply Forall_forall. intros r Hr. apply list_elem_of_In in Hr.
    rewrite performExactSearch_unfold in Hr. apply In_slice0 in Hr.
    apply (Permutation_in _ (sort_Permutation _ _)) in Hr.
    apply list_elem_of_In, list_elem_of_lookup in Hr as [i Hi].
    destruct (Forall2_lookup_l _ _ _ _ _ Hhits Hi) as (f & Hf & Hfile & Hscore).
    apply list_elem_of_lookup_2, list_elem_of_In, filter_In in Hf as [Hin Hpos].
    exists f. repeat split; auto. now apply Nat.ltb_lt.
  - intros f Hname Hlines Hentries. unfold Spec.accumulatedScore.
    rewrite Hname, Hlines, Hentries. exact filename_only_score.
  - rewrite !performExactSearch_unfold. now rewrite omap_exactResult_filter.
Qed.

(** ** Scores stay within the unit interval *)

Section UnitScores.
Import Search.

Lemma searchLines_nonneg (ql : string) (contentLines : list string) (i : nat) (acc : Acc) :
  (0 <= snd acc)%Z -> (0 <= snd (searchLines ql contentLines i acc))%Z.
Proof.
  revert i acc. induction contentLines as [|line rest IH]; intros i acc Hacc; [exact Hacc|].
  cbn [searchLines]. apply IH.
  destruct (negb (Str.isEmpty line) && Str.includes (Str.toLowerCase line) ql);
    [|exact Hacc].
  cbn [hit snd]. apply add_nonneg; [exact Hacc|exact line_weight_nonneg].
Qed.

Lemma searchEntries_nonneg (ql : string) (entries : list (string * Js.Value)) (acc : Acc) :
  (0 <= snd acc)%Z -> (0 <= snd (searchEntries ql entries acc))%Z.
Proof.
  revert acc. induction entries as [|[k v] rest IH]; intros acc Hacc; [exact Hacc|].
  cbn [searchEntries]. apply IH.
  destruct v as [|b|q|s|items|es|t]; try exact Hacc.
  destruct (Str.includes (Str.toLowerCase s) ql); [|exact Hacc].
  cbn [hit snd]. apply add_nonneg; [exact Hacc|exact entry_weight_nonneg].
Qed.

Lemma exactResult_unit (ql : string) (includeContent : bool)
    (f : Files.ContentFile) (r : SearchResult) :
  exactResult ql includeContent f = Some r ->
  file r = resultFile includeContent f /\ Spec.unitScore r.
Proof.
  unfold exactResult.
  set (a1 := searchFilename ql f ([], Double.zero)).
  set (a2 := searchLines ql (Str.split Char.LF (Files.content f)) 0 a1).
  set (a3 := searchFrontmatter ql f a2).
  assert (H3 : (0 <= snd a3)%Z).
  { unfold a3, searchFrontmatter.
    assert (H2 : (0 <= snd a2)%Z).
    { apply searchLines_nonneg. unfold a1, searchFilename.
      destruct (Str.includes _ ql); [|cbn [snd]; reflexivity].
      cbn [hit snd]. apply add_nonneg; [reflexivity|exact filename_weight_nonneg]. }
    destruct (Files.frontmatter f); [now apply searchEntries_nonneg|exact H2]. }
  destruct (0 <? length (fst a3))%nat; [|discriminate].
  intros [= <-]. split; [reflexivity|].
  unfold Spec.unitScore, Double.min, Double.zero. cbn [score].
  pose proof one_pos. lia.
Qed.

(** The results before sorting follow the scan order of the documents. *)
Lemma exact_hits_in_scan_order (ql : string) (includeContent : bool)
    (files : list Files.ContentFile) :
  exists docs,
    sublist docs files
    /\ Forall2 (fun r f => file r = resultFile includeContent f)
               (omap (exactResult ql includeContent) files) docs.
Proof.
  induction files as [|f files (docs & Hsub & Hall)]; cbn [omap list_omap].
  - exists []. split; constructor.
  - destruct (exactResult ql includeContent f) as [r|] eqn:Hr.
    + exists (f :: docs). split; [now constructor|].
      constructor; [|exact Hall]. now apply exactResult_unit in Hr.
    + exists docs. split; [now constructor|exact Hall].
Qed.

End UnitScores.

Lemma StronglySorted_map {A B : Type} (R : A -> A -> Prop) (R' : B -> B -> Prop)
    (g : A -> B) (l : list A) :
  (forall a b, R a b -> R' (g a) (g b)) ->
  StronglySorted R l -> StronglySorted R' (map g l).
Proof.
  intros Hg. induction 1 as [|a l Hl IH Ha]; cbn [map]; constructor; [exact IH|].
  apply Forall_map. eapply Forall_impl; [exact Ha|]. intros b. apply Hg.
Qed.

Lemma sort_scoreDescending (l : list Search.SearchResult) :
  StronglySorted Spec.scoreDescending (Js.sort Search.byScoreDesc l).
Proof.
  rewrite <- (map_id (Js.sort Search.byScoreDesc l)).
  eapply StronglySorted_map;
    [|apply (sort_sorted (fun r => inject_Z (Search.score r))
               Search.byScoreDesc byScoreDesc_gt)].
  intros a b Hab. unfold Spec.scoreDescending. rewrite Zle_Qle. exact Hab.
Qed.

Lemma sort_withScore (q : Double.t) (l : list Search.SearchResult) :
  Spec.withScore q (Js.sort Search.byScoreDesc l) = Spec.withScore q l.
Proof.
  pose proof (sort_stable (fun r => inject_Z (Search.score r))
                Search.byScoreDesc byScoreDesc_gt (inject_Z q) l) as Hs.
  assert (Hext : forall l',
             Spec.withScore q l'
             = List.filter
                 (fun r => Qeq_bool (inject_Z (Search.score r)) (inject_Z q)) l').
  { intros l'. apply List.filter_ext. intros r.
    unfold Qeq_bool, inject_Z. cbn [Qnum Qden].
    rewrite !Z.mul_1_r. reflexivity. }
  now rewrite !Hext.
Qed.

(** C2. Under both strategies every score lies in [0, 1] and the list is
    in descending order of score.  For the fuzzy strategy this rests on
    what the Fuse library returns: scores in [0, 1], best (lowest) first.
    The exact strategy sorts its hits, which are in scan order, so that
    hits of equal score keep their order, and cuts the list to at most
    [maxResults] entries.  Scores are doubles, compared as the code
    compares them: by the sign of their rounded difference. *)
Theorem results_ranked (fuse : Search.Fuse) (files : list Files.ContentFile)
    (query : string) (maxResults : Z) (includeContent : bool) :
  Forall (fun fr => forall s,
              Search.FuseJs.score fr = Some s -> (Double.zero <= s <= Double.one)%Z)
         (fuse Search.fuseOptions files query maxResults) ->
  Sorted (fun a b => (default Double.zero (Search.FuseJs.score a)
                      <= default Double.zero (Search.FuseJs.score b))%Z)
         (fuse Search.fuseOptions files query maxResults) ->
  (0 <= maxResults)%Z ->
  (Forall Spec.unitScore
          (Search.performFuzzySearch fuse files query maxResults includeContent)
   /\ StronglySorted Spec.scoreDescending
        (Search.performFuzzySearch fuse files query maxResults includeContent))
  /\ (Forall Spec.unitScore
             (Search.performExactSearch files query maxResults includeContent)
      /\ StronglySorted Spec.scoreDescending
           (Search.performExactSearch files query maxResults includeContent)
      /\ length (Search.performExactSearch files query maxResults includeContent)
         <= Z.to_nat maxResults
      /\ exists docs hits sorted,
           sublist docs files
           /\ Forall2 (fun r f => Search.file r = Search.resultFile includeContent f)
                      hits docs
           /\ Permutation sorted hits
           /\ StronglySorted Spec.scoreDescending sorted
           /\ (forall q, Spec.withScore q sorted = Spec.withScore q hits)
           /\ Search.performExactSearch files query maxResults includeContent
              = take (Z.to_nat maxResults) sorted).
Proof.
  intros Hunit Hsorted Hmax. split.
  - unfold Search.performFuzzySearch. split.
    + apply Forall_map. eapply Forall_impl; [exact Hunit|].
      intros fr Hfr. unfold Spec.unitScore. cbn [Search.score]. cbn beta in Hfr.
      apply sub_unit.
      destruct (Search.FuseJs.score fr) as [s|]; cbn [default from_option id].
      * exact (Hfr s eq_refl).
      * pose proof one_pos. unfold Double.zero. lia.
    + eapply StronglySorted_map; [|apply Sorted_StronglySorted; [|exact Hsorted]].
      * intros a b Hab. unfold Spec.scoreDescending. cbn [Search.score]. cbn beta in Hab.
        now apply sub_antitone.
      * intros a b c Hab Hbc. lia.
  - rewrite performExactSearch_unfold, slice0_take by exact Hmax.
    set (hits := omap (Search.exactResult (Str.toLowerCase query) includeContent) files).
    assert (Hhits : Forall Spec.unitScore hits).
    { apply Forall_forall. intros r Hr.
      unfold hits in Hr. apply list_elem_of_omap in Hr as (f & _ & Hf).
      now apply exactResult_unit in Hf. }
    pose proof (sort_Permutation Search.byScoreDesc hits) as Hperm.
    pose proof (sort_scoreDescending hits) as Hdesc.
    repeat split.
    + apply Forall_take. now rewrite Hperm.
    + now apply StronglySorted_take.
    + rewrite length_take. lia.
    + destruct (exact_hits_in_scan_order (Str.toLowerCase query) includeContent files)
        as (docs & Hsub & Hall).
      exists docs, hits, (Js.sort Search.byScoreDesc hits).
      repeat split; auto.
      intros q. apply sort_withScore.
Qed.

Lemma exact_score_formula_witness :
  Forall
    (fun r => exists f,
         In f [Sample.notes; Sample.untagged; Sample.guide]
         /\ 0 < Spec.matchCount "typescript" f
         /\ Search.file r = Search.resultFile true f
         /\ Search.score r = Spec.accumulatedScore "typescript" f)
    (Search.performExactSearch [Sample.notes; Sample.untagged; Sample.guide]
       "typescript" 10 true).
Proof.
  apply (exact_score_formula [Sample.notes; Sample.untagged; Sample.guide]
           "typescript" 10 true).
  discriminate.
Defined.

(** The example of the specification: [typescript-notes.md], searched for
    [typescript], matches in its filename only and scores 0.4; the other
    two documents have no match and are left out. *)
Example exact_filename_only :
  Search.performExactSearch [Sample.notes; Sample.untagged; Sample.guide]
    "typescript" 10 true
  = [Search.mkResult Sample.notes (Double.ofQ 0.4) ["Filename: typescript-notes.md"]].
Proof. vm_compute. reflexivity. Qed.

(** Rounding decides an order: 0.4 + 0.1 + 0.1 is 0.6 and 0.4 + 0.2 is
    0.6000000000000001, so the document with the matching title comes
    first although it is scanned second. *)
Example exact_order_by_rounded_scores :
  map Search.file
    (Search.performExactSearch [Sample.twoLines; Sample.titled] "ts" 10 true)
  = [Sample.titled; Sample.twoLines].
Proof. vm_compute. reflexivity. Qed.

Lemma results_ranked_witness :
  Forall Spec.unitScore
    (Search.performFuzzySearch Sample.fuseSample
       [Sample.notes; Sample.untagged; Sample.guide] "notes" 10 true)
  /\ StronglySorted Spec.scoreDescending
       (Search.performExactSearch [Sample.notes; Sample.untagged; Sample.guide]
          "notes" 10 true).
Proof.
  destruct (results_ranked Sample.fuseSample
              [Sample.notes; Sample.untagged; Sample.guide] "notes" 10 true)
    as [[Hunit _] [_ [Hsorted _]]].
  - unfold Sample.fuseSample.
    constructor; [|constructor; [|constructor]];
      cbn [Search.FuseJs.score]; intros s Hs; apply (inj Some) in Hs; subst s;
      split; vm_compute; discriminate.
  - unfold Sample.fuseSample.
    constructor; [constructor; constructor|constructor].
    vm_compute. discriminate.
  - lia.
  - split; assumption.
Defined.

(** ** The document loader *)

(** What the loader returns for a readable file, by the ending of its
    path: the text as read and no frontmatter, unless the path ends in
    [.md] or [.markdown]. *)
Lemma readContentFile_unparsed (env : Files.Env) (filePath text : string)
    (stats : Files.Fs.Stats) :
  Str.endsWith filePath ".md" = false ->
  Str.endsWith filePath ".markdown" = false ->
  Files.readFile env filePath = Some text ->
  Files.stat env filePath = Some stats ->
  Files.readContentFile env filePath
  = Some (Files.mkContentFile filePath (Files.basename filePath) text None
            (Files.Fs.mtime stats) (Files.Fs.size stats)).
Proof.
  intros Hmd Hmarkdown Hread Hstat. unfold Files.readContentFile.
  rewrite Hread, Hstat, Hmd, Hmarkdown. reflexivity.
Qed.

Lemma readContentFile_parsed (env : Files.Env) (filePath text : string)
    (stats : Files.Fs.Stats) (parsed : Files.Matter.GrayMatterFile) :
  Str.endsWith filePath ".md" || Str.endsWith filePath ".markdown" = true ->
  Files.readFile env filePath = Some text ->
  Files.stat env filePath = Some stats ->
  Files.matter env text = Some parsed ->
  Files.readContentFile env filePath
  = Some (Files.mkContentFile filePath (Files.basename filePath)
            (Files.Matter.content parsed) (Some (Files.Matter.data parsed))
            (Files.Fs.mtime stats) (Files.Fs.size stats)).
Proof.
  intros Hext Hread Hstat Hmatter. unfold Files.readContentFile.
  rewrite Hread, Hstat. cbn [mbind option_bind]. rewrite Hext, Hmatter. reflexivity.
Qed.

(** C5. [isMarkdownFile] counts [.mdx] among the markdown extensions and
    the scanner looks for it, but [readContentFile] only parses paths
    ending in [.md] or [.markdown]: whatever gray-matter would return, the
    document loaded from [guide.mdx] has no frontmatter and its content
    still starts with the delimiter block. *)
Theorem readContentFile_mdx_keeps_block
    (matter : string -> option Files.Matter.GrayMatterFile)
    (glob : string -> string -> list string) :
  let env := Files.mkEnv Sample.readSample Sample.statSample matter glob in
  Files.isMarkdownFile "/notes/guide.mdx" = true
  /\ In ".mdx" Files.defaultExtensions
  /\ Files.readContentFile env "/notes/guide.mdx" = Some Sample.guide
  /\ Files.frontmatter Sample.guide = None
  /\ Str.startsWith (Files.content Sample.guide)
       ("---" +:+ Str.LF +:+ "title: Guide" +:+ Str.LF +:+ "---" +:+ Str.LF)
     = true.
Proof.
  cbn zeta. repeat split; try (vm_compute; reflexivity).
  cbn. auto.
Qed.

(** On a path ending in [.md] the loader hands the text to gray-matter and
    keeps what it returns. *)
Example readContentFile_md_parsed :
  Files.readContentFile Sample.env "/notes/typescript-notes.md" = Some Sample.notes.
Proof. vm_compute. reflexivity. Qed.

(** ** Tag and date-range filters *)

Section FilterFacts.
Import Search.

Variable env : Files.Env.

Lemma readAll_omap (filePaths : list string) :
  readAll env filePaths = omap (Files.readContentFile env) filePaths.
Proof. unfold readAll. now rewrite fold_push_omap. Qed.

(** The loop of the two filters pushes the readable documents that pass
    the test, in order. *)
Lemma fold_filter_read (test : Files.ContentFile -> bool)
    (filePaths : list string) (acc : list Files.ContentFile) :
  fold_left
    (fun matchingFiles filePath =>
       match Files.readContentFile env filePath with
       | Some f => if test f then matchingFiles ++ [f] else matchingFiles
       | None => matchingFiles
       end)
    filePaths acc
  = acc ++ List.filter test (omap (Files.readContentFile env) filePaths).
Proof.
  revert acc. induction filePaths as [|p ps IH]; intros acc;
    cbn [fold_left omap list_omap].
  - cbn. now rewrite app_nil_r.
  - rewrite IH. destruct (Files.readContentFile env p) as [f|]; [|reflexivity].
    cbn [List.filter]. destruct (test f); [|reflexivity].
    now rewrite <- app_assoc.
Qed.

Lemma sort_recentFirst (l : list Files.ContentFile) :
  StronglySorted Spec.recentFirst (Js.sort byLastModifiedDesc l).
Proof.
  rewrite <- (map_id (Js.sort byLastModifiedDesc l)).
  eapply StronglySorted_map;
    [|apply (sort_sorted (fun f => inject_Z (Files.lastModified f))
               byLastModifiedDesc byLastModifiedDesc_gt)].
  intros a b Hab. unfold Spec.recentFirst. rewrite Zle_Qle. exact Hab.
Qed.

Lemma searchByTags_unfold (directory : string) (tags : list string) :
  searchByTags env directory tags
  = Js.sort byLastModifiedDesc
      (List.filter (hasMatchingTag tags) (Spec.documents env directory)).
Proof.
  unfold searchByTags, Spec.documents. now rewrite fold_filter_read, readAll_omap.
Qed.

Lemma searchByDateRange_unfold (directory : string) (startDate endDate : Z) :
  searchByDateRange env directory startDate endDate
  = Js.sort byLastModifiedDesc
      (List.filter
         (fun f => (startDate <=? Files.lastModified f)%Z
                   && (Files.lastModified f <=? endDate)%Z)
         (Spec.documents env directory)).
Proof.
  unfold searchByDateRange, Spec.documents. now rewrite fold_filter_read, readAll_omap.
Qed.

End FilterFacts.

Lemma someTagMatches_iff (tags : list string) (fileTags : list Js.Value) :
  Search.someTagMatches tags fileTags = true
  <-> exists tag s,
        In tag tags /\ In (Js.Str s) fileTags
        /\ Str.toLowerCase s = Str.toLowerCase tag.
Proof.
  unfold Search.someTagMatches. rewrite existsb_exists. split.
  - intros (tag & Htag & Hsome). apply existsb_exists in Hsome as (v & Hv & Heq).
    destruct v as [|b|q|s|items|es|t]; try discriminate.
    apply String.eqb_eq in Heq. eauto 6.
  - intros (tag & s & Htag & Hs & Heq). exists tag. split; [exact Htag|].
    apply existsb_exists. exists (Js.Str s). split; [exact Hs|].
    now apply String.eqb_eq.
Qed.

Lemma hasMatchingTag_iff (tags : list string) (f : Files.ContentFile) :
  Search.hasMatchingTag tags f = true
  <-> Spec.tagsFieldTruthy f /\ Spec.hasDesiredTag tags f.
Proof.
  unfold Search.hasMatchingTag, Spec.tagsFieldTruthy, Spec.hasDesiredTag, Spec.tagsOf.
  destruct (Files.frontmatter f) as [entries|].
  - destruct (Js.getProp entries "tags") as [v|] eqn:Hget.
    + rewrite andb_true_iff, someTagMatches_iff. split.
      * intros [Ht Hm]. split; [exists entries, v; auto|]. now destruct v.
      * intros [(es & v' & [= <-] & Hv & Ht) Hm].
        rewrite Hget in Hv. injection Hv as <-.
        split; [exact Ht|]. now destruct v.
    + split; [discriminate|].
      intros [(es & v' & [= <-] & Hv & _) _]. congruence.
  - split; [discriminate|]. now intros [(es & v' & [=] & _) _].
Qed.

(** C6 as stated fails on one input: a [tags] field holding the empty
    string contains the desired tag [""] once normalized to an array, yet
    the guard [if (file.frontmatter?.tags)] skips the document. *)
Lemma tag_filter_empty_tag_counterexample :
  ~ (In Sample.untagged (Search.searchByTags Sample.env "/notes" [EmptyString])
     <-> In Sample.untagged (Spec.documents Sample.env "/notes")
         /\ Spec.hasDesiredTag [EmptyString] Sample.untagged).
Proof.
  intros [_ Hincl].
  assert (Hin : In Sample.untagged (Search.searchByTags Sample.env "/notes" [EmptyString])).
  { apply Hincl. split.
    - vm_compute. auto.
    - exists EmptyString, EmptyString. repeat split; cbn; auto. }
  vm_compute in Hin. exact Hin.
Qed.

(** C6, amended.  The tag filter returns exactly the documents whose
    [tags] field is present and truthy and, normalized to an array,
    contains a string equal to one of the desired tags after lowercasing
    both; the list holds documents (no score) and is ordered by
    [lastModified], most recent first.  The desired tag [Tutorial] matches
    a stored [tutorial], in an array or as a single scalar. *)
Theorem tag_filter (env : Files.Env) (directory : string) (tags : list string) :
  (forall f,
      In f (Search.searchByTags env directory tags)
      <-> In f (Spec.documents env directory)
          /\ Spec.tagsFieldTruthy f /\ Spec.hasDesiredTag tags f)
  /\ StronglySorted Spec.recentFirst (Search.searchByTags env directory tags)
  /\ (forall f entries stored,
         In f (Spec.documents env directory) ->
         Files.frontmatter f = Some entries ->
         (Js.getProp entries "tags" = Some (Js.Arr stored) /\ In (Js.Str "tutorial") stored
          \/ Js.getProp entries "tags" = Some (Js.Str "tutorial")) ->
         In f (Search.searchByTags env directory ["Tutorial"])).
Proof.
  assert (Hiff : forall tags f,
             In f (Search.searchByTags env directory tags)
             <-> In f (Spec.documents env directory)
                 /\ Spec.tagsFieldTruthy f /\ Spec.hasDesiredTag tags f).
  { intros tags' f. rewrite searchByTags_unfold.
    rewrite <- hasMatchingTag_iff, <- filter_In. split.
    - apply Permutation_in, sort_Permutation.
    - apply Permutation_in, Permutation_sym, sort_Permutation. }
  split; [apply Hiff|]. split.
  - rewrite searchByTags_unfold. apply sort_recentFirst.
  - intros f entries stored Hf Hfm Htags. apply Hiff. split; [exact Hf|].
    destruct Htags as [[Hget Hin]|Hget].
    + split.
      * exists entries, (Js.Arr stored). auto.
      * exists "Tutorial", "tutorial". unfold Spec.tagsOf. rewrite Hfm, Hget.
        repeat split; cbn; auto.
    + split.
      * exists entries, (Js.Str "tutorial"). auto.
      * exists "Tutorial", "tutorial". unfold Spec.tagsOf. rewrite Hfm, Hget.
        repeat split; cbn; auto.
Qed.

Example tag_filter_tutorial :
  Search.searchByTags Sample.env "/notes" ["Tutorial"] = [Sample.notes].
Proof. vm_compute. reflexivity. Qed.

(** C7. The date-range filter returns exactly the documents whose
    [lastModified] lies between [startDate] and [endDate], both ends
    included, most recent first.  With the range 2024-01-01 .. 2024-01-31
    a document of 2024-01-15 is returned and one of 2024-02-01 is not. *)
Theorem date_range_filter (env : Files.Env) (directory : string)
    (startDate endDate : Z) :
  (forall f,
      In f (Search.searchByDateRange env directory startDate endDate)
      <-> In f (Spec.documents env directory)
          /\ (startDate <= Files.lastModified f <= endDate)%Z)
  /\ Permutation
       (Search.searchByDateRange env directory startDate endDate)
       (List.filter
          (fun f => (startDate <=? Files.lastModified f)%Z
                    && (Files.lastModified f <=? endDate)%Z)
          (Spec.documents env directory))
  /\ StronglySorted Spec.recentFirst
       (Search.searchByDateRange env directory startDate endDate)
  /\ (forall f,
         In f (Spec.documents env directory) ->
         Files.lastModified f = Sample.jan15 ->
         In f (Search.searchByDateRange env directory Sample.jan01 Sample.jan31))
  /\ (forall f,
         Files.lastModified f = Sample.feb01 ->
         ~ In f (Search.searchByDateRange env directory Sample.jan01 Sample.jan31)).
Proof.
  assert (Hiff : forall s e f,
             In f (Search.searchByDateRange env directory s e)
             <-> In f (Spec.documents env directory)
                 /\ (s <= Files.lastModified f <= e)%Z).
  { intros s e f. rewrite searchByDateRange_unfold.
    rewrite <- Z.leb_le, <- Z.leb_le, <- andb_true_iff.
    rewrite <- (filter_In (fun f => (s <=? Files.lastModified f)%Z
                                    && (Files.lastModified f <=? e)%Z)).
    split.
    - apply Permutation_in, sort_Permutation.
    - apply Permutation_in, Permutation_sym, sort_Permutation. }
  split; [apply Hiff|]. split; [|split; [|split]].
  - rewrite searchByDateRange_unfold. apply sort_Permutation.
  - rewrite searchByDateRange_unfold. apply sort_recentFirst.
  - intros f Hf Hlm. apply Hiff. split; [exact Hf|]. rewrite Hlm.
    unfold Sample.jan01, Sample.jan15, Sample.jan31, Sample.utcDay. lia.
  - intros f Hlm Hin. apply Hiff in Hin as [_ Hrange]. rewrite Hlm in Hrange.
    unfold Sample.jan01, Sample.feb01, Sample.jan31, Sample.utcDay in Hrange. lia.
Qed.

Example date_range_january :
  Search.searchByDateRange Sample.env "/notes" Sample.jan01 Sample.jan31
  = [Sample.notes; Sample.guide].
Proof. vm_compute. reflexivity. Qed.

(** * Further properties of the code *)

(** ** The directory scanner *)

Lemma existsb_eqb_In (x : string) (l : list string) :
  existsb (String.eqb x) l = true <-> In x l.
Proof.
  rewrite existsb_exists. split.
  - intros (y & Hy & Heq). apply String.eqb_eq in Heq. now subst.
  - intros Hx. exists x. split; [exact Hx|apply String.eqb_refl].
Qed.

Lemma uniq_In (l seen : list string) (x : string) :
  In x (Js.uniq seen l) <-> In x l /\ ~ In x seen.
Proof.
  revert seen. induction l as [|y l IH]; intros seen; cbn [Js.uniq].
  - cbn. tauto.
  - destruct (existsb (String.eqb y) seen) eqn:Hy.
    + apply existsb_eqb_In in Hy. rewrite IH. cbn [In]. split.
      * tauto.
      * intros [[<-|Hx] Hn]; tauto.
    + assert (Hn : ~ In y seen).
      { intros Hin. apply existsb_eqb_In in Hin. congruence. }
      cbn [In]. rewrite IH. cbn [In]. split.
      * intros [<-|[Hx Hs]]; [tauto|]. split; [tauto|]. intros Hin. apply Hs. tauto.
      * intros [[<-|Hx] Hs]; [tauto|].
        destruct (String.eqb_spec y x) as [->|Hne]; [tauto|].
        right. split; [exact Hx|]. intros [Heq|Hin]; tauto.
Qed.

Lemma uniq_NoDup (l seen : list string) : List.NoDup (Js.uniq seen l).
Proof.
  revert seen. induction l as [|y l IH]; intros seen; cbn [Js.uniq].
  - constructor.
  - destruct (existsb (String.eqb y) seen); [apply IH|].
    constructor; [|apply IH].
    rewrite uniq_In. cbn [In]. tauto.
Qed.

(** X1. [findContentFiles] returns every path that [glob] reports for one
    of the extensions, each of them once. *)
Theorem findContentFiles_deduplicated (env : Files.Env) (directory : string)
    (extensions : list string) :
  List.NoDup (Files.findContentFiles env directory extensions)
  /\ forall p,
       In p (Files.findContentFiles env directory extensions)
       <-> exists ext,
             In ext extensions /\ In p (Files.glob env ("**/*" +:+ ext) directory).
Proof.
  unfold Files.findContentFiles. split; [apply uniq_NoDup|].
  intros p. rewrite uniq_In, in_flat_map. cbn [In]. split.
  - intros [(pattern & Hpat & Hp) _]. apply in_map_iff in Hpat as (ext & <- & Hext). eauto.
  - intros (ext & Hext & Hp). split; [|tauto].
    exists ("**/*" +:+ ext). split; [|exact Hp]. apply in_map_iff. eauto.
Qed.

(** ** [basename] *)

Section BasenameFacts.
Import Str.

Lemma all_chars_rev_onto (p : ascii -> bool) (s acc : string) :
  all_chars p (rev_onto s acc) = all_chars p s && all_chars p acc.
Proof.
  revert acc. induction s as [|c s IH]; intros acc; cbn [rev_onto all_chars];
    [reflexivity|].
  rewrite IH. cbn [all_chars]. now destruct (p c), (all_chars p s).
Qed.

Lemma all_chars_rev (p : ascii -> bool) (s : string) :
  all_chars p (rev s) = all_chars p s.
Proof. unfold rev. rewrite all_chars_rev_onto. cbn. apply andb_true_r. Qed.

Lemma all_chars_dropWhile (p q : ascii -> bool) (s : string) :
  all_chars p s = true -> all_chars p (dropWhile q s) = true.
Proof.
  induction s as [|c s IH]; cbn [dropWhile]; [reflexivity|].
  intros H. destruct (q c); [|exact H].
  cbn [all_chars] in H. apply andb_prop in H as [_ H]. auto.
Qed.

Lemma rev_onto_append (s acc : string) : rev_onto s acc = rev s +:+ acc.
Proof.
  unfold rev. revert acc. induction s as [|c s IH]; intros acc; cbn [rev_onto].
  - reflexivity.
  - rewrite IH, (IH (String c EmptyString)), append_assoc. reflexivity.
Qed.

Lemma rev_append (a b : string) : rev (a +:+ b) = rev b +:+ rev a.
Proof.
  induction a as [|c a IH].
  - rewrite append_nil_l. cbn. now rewrite append_nil_r.
  - rewrite append_cons. unfold rev. cbn [rev_onto].
    rewrite !rev_onto_append, IH, append_nil_r, append_assoc. reflexivity.
Qed.

Lemma rev_involutive (s : string) : rev (rev s) = s.
Proof.
  induction s as [|c s IH]; [reflexivity|].
  unfold rev at 2. cbn [rev_onto]. rewrite rev_onto_append, rev_append, IH.
  reflexivity.
Qed.

Lemma takeUntilSlash_no_slash (s : string) :
  all_chars (fun c => negb (Ascii.eqb c "/"%char)) (Files.takeUntilSlash s) = true.
Proof.
  induction s as [|c s IH]; cbn [Files.takeUntilSlash]; [reflexivity|].
  destruct (Ascii.eqb c "/"%char) eqn:Hc; [reflexivity|].
  cbn [all_chars]. now rewrite Hc, IH.
Qed.

Lemma takeUntilSlash_append (a b : string) :
  all_chars (fun c => negb (Ascii.eqb c "/"%char)) a = true ->
  Files.takeUntilSlash (a +:+ String "/"%char b) = a.
Proof.
  induction a as [|c a IH]; intros Ha.
  - reflexivity.
  - cbn [all_chars] in Ha. apply andb_prop in Ha as [Hc Ha].
    rewrite append_cons. cbn [Files.takeUntilSlash].
    apply negb_true_iff in Hc. rewrite Hc. now rewrite IH.
Qed.

End BasenameFacts.

Lemma basename_no_slash (p : string) :
  Str.all_chars (fun c => negb (Ascii.eqb c "/"%char)) (Files.basename p) = true.
Proof.
  unfold Files.basename. rewrite all_chars_rev. apply takeUntilSlash_no_slash.
Qed.

(** The base name of [dir/name] is [name] when [name] is not empty and
    has no slash. *)
Lemma basename_join (dir name : string) :
  name <> EmptyString ->
  Str.all_chars (fun c => negb (Ascii.eqb c "/"%char)) name = true ->
  Files.basename (dir +:+ "/" +:+ name) = name.
Proof.
  intros Hne Hname. unfold Files.basename.
  rewrite rev_append, rev_append.
  change (Str.rev "/") with "/". rewrite append_assoc.
  assert (Hrev : Str.all_chars (fun c => negb (Ascii.eqb c "/"%char)) (Str.rev name) = true)
    by now rewrite all_chars_rev.
  destruct (Str.rev name) as [|c r] eqn:Hr.
  - apply (f_equal Str.rev) in Hr. rewrite rev_involutive in Hr. now subst.
  - rewrite append_cons. cbn [Str.dropWhile].
    cbn [Str.all_chars] in Hrev. apply andb_prop in Hrev as [Hc Hrest].
    rewrite Ascii.eqb_sym. apply negb_true_iff in Hc. rewrite Hc.
    rewrite <- append_cons. rewrite append_cons with (a := EmptyString).
    rewrite append_nil_l.
    rewrite takeUntilSlash_append
      by (cbn [Str.all_chars]; rewrite Hrest; now rewrite (proj2 (negb_true_iff _) Hc)).
    rewrite <- Hr. apply rev_involutive.
Qed.

(** X2. The name of a loaded document has no slash, and the document
    loaded from [dir/name] is called [name] ([path.basename] being the
    last component of a path). *)
Theorem loaded_name_last_component (env : Files.Env) (filePath : string)
    (f : Files.ContentFile) :
  Files.readContentFile env filePath = Some f ->
  Str.all_chars (fun c => negb (Ascii.eqb c "/"%char)) (Files.name f) = true
  /\ forall dir name,
       name <> EmptyString ->
       Str.all_chars (fun c => negb (Ascii.eqb c "/"%char)) name = true ->
       filePath = dir +:+ "/" +:+ name ->
       Files.name f = name.
Proof.
  intros Hread.
  assert (Hf : Files.name f = Files.basename filePath).
  { revert Hread. unfold Files.readContentFile.
    destruct (Files.readFile env _); [|discriminate].
    destruct (Files.stat env _); [|discriminate]. cbn [mbind option_bind].
    destruct (_ || _); [destruct (Files.matter env _); [|discriminate]|];
      cbn [mbind option_bind]; now intros [= <-]. }
  rewrite Hf. split; [apply basename_no_slash|].
  intros dir name Hne Hname ->. now apply basename_join.
Qed.

Lemma loaded_name_last_component_witness :
  Files.name Sample.notes = "typescript-notes.md".
Proof.
  apply (proj2 (loaded_name_last_component Sample.env "/notes/typescript-notes.md"
                  Sample.notes eq_refl) "/notes" "typescript-notes.md");
    [discriminate|reflexivity|reflexivity].
Defined.

(** ** The document loader: when it fails *)

(** X3. Loading succeeds exactly when the file can be read and statted
    and, for a path ending in [.md] or [.markdown], gray-matter accepts
    its text.  The document then carries the path it was asked for, the
    base name of that path, the time and size of [stat], and either what
    gray-matter made of the text or the text as read and no frontmatter.
    In every other case loading fails: the file cannot be read, cannot be
    statted, or gray-matter throws. *)
Theorem readContentFile_outcome (env : Files.Env) (filePath : string) :
  match Files.readContentFile env filePath with
  | Some f =>
      exists text stats,
        Files.readFile env filePath = Some text
        /\ Files.stat env filePath = Some stats
        /\ Files.path f = filePath
        /\ Files.name f = Files.basename filePath
        /\ Files.lastModified f = Files.Fs.mtime stats
        /\ Files.size f = Files.Fs.size stats
        /\ if Str.endsWith filePath ".md" || Str.endsWith filePath ".markdown"
           then exists parsed,
                  Files.matter env text = Some parsed
                  /\ Files.content f = Files.Matter.content parsed
                  /\ Files.frontmatter f = Some (Files.Matter.data parsed)
           else Files.content f = text /\ Files.frontmatter f = None
  | None =>
      Files.readFile env filePath = None
      \/ Files.stat env filePath = None
      \/ (Str.endsWith filePath ".md" || Str.endsWith filePath ".markdown" = true
          /\ exists text,
               Files.readFile env filePath = Some text
               /\ Files.matter env text = None)
  end.
Proof.
  unfold Files.readContentFile.
  destruct (Files.readFile env filePath) as [text|]; cbn [mbind option_bind]; [|auto].
  destruct (Files.stat env filePath) as [stats|]; cbn [mbind option_bind]; [|auto].
  destruct (Str.endsWith filePath ".md" || Str.endsWith filePath ".markdown").
  - destruct (Files.matter env text) as [parsed|] eqn:Hm; cbn [mbind option_bind].
    + exists text, stats. cbn. eauto 10.
    + right. right. eauto.
  - exists text, stats. cbn. eauto 10.
Qed.

(** ** Directory statistics *)

Section DirectoryStats.
Variable env : Files.Env.

Lemma fold_statsStep_None (files : list string) :
  fold_left (fun acc file => stats ← acc; Files.statsStep env stats file) files None
  = None.
Proof. induction files as [|f files IH]; [reflexivity|exact IH]. Qed.

Lemma fold_statsStep (files : list string) :
  forall init,
    match fold_left (fun acc file => stats ← acc; Files.statsStep env stats file)
                    files (Some init) with
    | Some st =>
        Forall (fun file => is_Some (Files.stat env file)) files
        /\ Files.totalFiles st = Files.totalFiles init
        /\ Files.totalSize st
           = (Files.totalSize init + Spec.sumZ (Spec.statSizes env files))%Z
        /\ forall ext,
             Files.fileTypes st !! ext
             = if (Spec.countExt ext files =? 0)%nat
               then Files.fileTypes init !! ext
               else Some (default 0%Z (Files.fileTypes init !! ext)
                          + Z.of_nat (Spec.countExt ext files))%Z
    | None => exists file, In file files /\ Files.stat env file = None
    end.
Proof.
  induction files as [|file files IH]; intros init.
  - cbn. repeat split; [constructor|lia].
  - cbn [fold_left]. cbn [mbind option_bind]. unfold Files.statsStep at 2.
    destruct (Files.stat env file) as [fileStat|] eqn:Hstat; cbn [mbind option_bind].
    + specialize (IH (Files.mkDirectoryStats
                        (Files.totalFiles init)
                        (Files.totalSize init + Files.Fs.size fileStat)
                        (<[Files.extname file :=
                             (default 0 (Files.fileTypes init !! Files.extname file) + 1)%Z]>
                           (Files.fileTypes init)))).
      destruct (fold_left _ files _) as [st|].
      * destruct IH as (Hall & Hfiles & Hsize & Htypes). cbn [Files.totalFiles Files.totalSize Files.fileTypes] in *.
        repeat split.
        -- constructor; [now rewrite Hstat|exact Hall].
        -- exact Hfiles.
        -- rewrite Hsize. unfold Spec.statSizes. cbn [omap list_omap].
           rewrite Hstat. cbn [fmap option_fmap option_map Spec.sumZ fold_right].
           fold (Spec.statSizes env files). unfold Spec.sumZ. lia.
        -- intros ext. rewrite Htypes. unfold Spec.countExt. cbn [List.filter].
           destruct (String.eqb_spec (Files.extname file) ext) as [->|Hne].
           ++ rewrite lookup_insert_eq. cbn [length default from_option id].
              destruct (length _) as [|n]; cbn [Nat.eqb]; f_equal; lia.
           ++ rewrite lookup_insert_ne by exact Hne. reflexivity.
      * destruct IH as (f' & Hin & Hf'). exists f'. split; [now right|exact Hf'].
    + rewrite fold_statsStep_None. exists file. split; [now left|exact Hstat].
Qed.

End DirectoryStats.

(** X4. When every file found can be statted, [getDirectoryStats] counts
    the files, adds up their sizes and, for each extension, holds the
    number of files with that extension (and no entry for an extension
    that does not occur); as soon as one file cannot be statted the call
    fails. *)
Theorem getDirectoryStats_totals (env : Files.Env) (directory : string) :
  let files := Files.findContentFiles env directory Files.defaultExtensions in
  match Files.getDirectoryStats env directory with
  | Some st =>
      Forall (fun file => is_Some (Files.stat env file)) files
      /\ Files.totalFiles st = Z.of_nat (length files)
      /\ Files.totalSize st = Spec.sumZ (Spec.statSizes env files)
      /\ forall ext,
           Files.fileTypes st !! ext
           = if (Spec.countExt ext files =? 0)%nat then None
             else Some (Z.of_nat (Spec.countExt ext files))
  | None => exists file, In file files /\ Files.stat env file = None
  end.
Proof.
  cbn zeta. unfold Files.getDirectoryStats.
  pose proof (fold_statsStep env
                (Files.findContentFiles env directory Files.defaultExtensions)
                (Files.mkDirectoryStats
                   (Z.of_nat (length (Files.findContentFiles env directory
                                        Files.defaultExtensions))) 0 ∅)) as H.
  destruct (fold_left _ _ _) as [st|]; [|exact H].
  destruct H as (Hall & Hfiles & Hsize & Htypes).
  cbn [Files.totalFiles Files.totalSize Files.fileTypes] in *.
  split; [exact Hall|]. split; [exact Hfiles|]. split; [lia|].
  intros ext. rewrite Htypes, lookup_empty. cbn [default from_option id].
  destruct (_ =? 0)%nat; [reflexivity|]. f_equal.
Qed.

(** ** [sanitizePath] *)

Section LiteralReplace.
Import RegExp.

Lemma run_literal (l : string) (prev : option ascii) (s : string) :
  run false [Lit l] prev s
  = match Str.strip_prefix l s with
    | Some _ => Some (String.length l, [])
    | None => None
    end.
Proof.
  rewrite run_lit. destruct (Str.strip_prefix l s); [|reflexivity].
  cbn. now rewrite Nat.add_0_r.
Qed.

Lemma strip_prefix_prefix (l s s' : string) :
  Str.strip_prefix l s = Some s' -> String.prefix l s = true.
Proof. intros H. apply strip_prefix_append in H. subst. apply prefix_append. Qed.

(** The position before the current one does not matter to a literal. *)
Lemma replaceAll_literal_prev (l by_ : string) (s : string) :
  forall prev skip,
    replaceAll (RegExp.mk [Lit l] false) by_ prev s skip
    = replaceAll (RegExp.mk [Lit l] false) by_ None s skip.
Proof.
  induction s as [|c s IH]; intros prev skip.
  - destruct skip; cbn [replaceAll multiline source]; [|reflexivity].
    now rewrite !run_literal.
  - destruct skip as [|k]; cbn [replaceAll multiline source].
    + rewrite !run_literal. reflexivity.
    + reflexivity.
Qed.

(** A text without the literal is left as it is. *)
Lemma replace_literal_absent (l by_ : string) (s : string) :
  l <> EmptyString ->
  Str.includes s l = false -> replace (RegExp.mk [Lit l] false) by_ s = s.
Proof.
  intros Hl. unfold replace. generalize (@None ascii) as prev.
  induction s as [|c s IH]; intros prev Hs; cbn [replaceAll multiline source];
    rewrite run_literal.
  - destruct l; [congruence|reflexivity].
  - cbn [Str.includes] in Hs. apply orb_false_elim in Hs as [Hp Hs].
    destruct (Str.strip_prefix l (String c s)) as [s'|] eqn:Hstrip.
    + apply strip_prefix_prefix in Hstrip. congruence.
    + f_equal. now apply IH.
Qed.

(** One step of the scan: the literal is not at the current position, or
    it is and the scan resumes after it. *)
Lemma replaceAll_literal_miss (l by_ : string) (prev : option ascii)
    (c : ascii) (s : string) :
  Str.strip_prefix l (String c s) = None ->
  replaceAll (RegExp.mk [Lit l] false) by_ prev (String c s) 0
  = String c (replaceAll (RegExp.mk [Lit l] false) by_ None s 0).
Proof.
  intros Hmiss. cbn [replaceAll multiline source]. rewrite run_literal, Hmiss.
  now rewrite replaceAll_literal_prev.
Qed.

Lemma replaceAll_skip (l by_ : string) (a s' : string) :
  forall prev,
    replaceAll (RegExp.mk [Lit l] false) by_ prev (a +:+ s') (String.length a)
    = replaceAll (RegExp.mk [Lit l] false) by_ None s' 0.
Proof.
  induction a as [|c a IH]; intros prev.
  - rewrite append_nil_l. apply replaceAll_literal_prev.
  - rewrite append_cons. cbn [String.length replaceAll]. apply IH.
Qed.

Lemma replaceAll_literal_hit (l by_ : string) (prev : option ascii) (s s' : string) :
  l <> EmptyString ->
  Str.strip_prefix l s = Some s' ->
  replaceAll (RegExp.mk [Lit l] false) by_ prev s 0
  = by_ +:+ replaceAll (RegExp.mk [Lit l] false) by_ None s' 0.
Proof.
  intros Hl Hhit. pose proof (strip_prefix_append _ _ _ Hhit) as Hs.
  destruct l as [|c l0]; [congruence|]. subst s.
  rewrite append_cons in *. cbn [replaceAll multiline source].
  rewrite run_literal, Hhit. cbn [String.length]. now rewrite replaceAll_skip.
Qed.

End LiteralReplace.

(** X5. A path that contains neither [../] nor two dots followed by two
    backslashes comes out of [sanitizePath] unchanged. *)
Theorem sanitizePath_clean_path (path : string) :
  Str.includes path "../" = false ->
  Str.includes path "..\\" = false ->
  Files.sanitizePath path = path.
Proof.
  intros Hslash Hback. unfold Files.sanitizePath, Files.parentSlashRegex,
    Files.parentBackslashRegex.
  rewrite (replace_literal_absent "../") by (discriminate || exact Hslash).
  now rewrite (replace_literal_absent "..\\") by (discriminate || exact Hback).
Qed.

Lemma sanitizePath_clean_path_witness :
  Files.sanitizePath "/notes/2024/plan.v2.md" = "/notes/2024/plan.v2.md".
Proof. apply sanitizePath_clean_path; reflexivity. Defined.

(** X6. The sanitizer makes one pass: a doubled [....//] in front of any
    path leaves [../] in front of the sanitized rest, so its result can
    still climb out of a directory. *)
Theorem sanitizePath_nested_survives (path : string) :
  Files.sanitizePath ("....//" +:+ path) = "../" +:+ Files.sanitizePath path.
Proof.
  unfold Files.sanitizePath, Files.parentSlashRegex, Files.parentBackslashRegex,
    RegExp.replace.
  rewrite !append_cons, append_nil_l.
  rewrite (replaceAll_literal_miss "../") by (discriminate || reflexivity).
  rewrite (replaceAll_literal_miss "../") by (discriminate || reflexivity).
  rewrite (replaceAll_literal_hit "../" EmptyString None _ (String "/" path))
    by (discriminate || reflexivity).
  rewrite append_nil_l.
  rewrite (replaceAll_literal_miss "../") by (discriminate || reflexivity).
  rewrite (replaceAll_literal_miss "..\\") by (discriminate || reflexivity).
  rewrite (replaceAll_literal_miss "..\\") by (discriminate || reflexivity).
  rewrite (replaceAll_literal_miss "..\\") by (discriminate || reflexivity).
  reflexivity.
Qed.

(** ** A frontmatter block is taken apart *)

Section FrontmatterBlock.
Import RegExp.

Lemma substring_append_suffix (a b : string) :
  substring (String.length a) (String.length b) (a +:+ b) = b.
Proof.
  induction a as [|c a IH].
  - rewrite append_nil_l. apply substring_all.
  - rewrite append_cons. cbn [String.length substring]. exact IH.
Qed.

(** A greedy class whose continuation fails after every non-empty run
    takes nothing. *)
Lemma rep_greedy_stop {R : Type} (cls : ascii -> bool)
    (k : option ascii -> string -> option R) (s : string) :
  forall lo hi prev,
    (forall more s'' p,
        s = more +:+ s'' -> more <> EmptyString ->
        Str.all_chars cls more = true -> k p s'' = None) ->
    rep cls true k lo hi prev s
    = match lo with
      | O => match k prev s with Some r => Some (O, r) | None => None end
      | S _ => None
      end.
Proof.
  induction s as [|c s IH]; intros lo hi prev Hfail; cbn [rep]; [reflexivity|].
  destruct (cls c && has_room hi) eqn:Hc; [|reflexivity].
  apply andb_prop in Hc as [Hc _].
  rewrite IH.
  - rewrite (Hfail (String c EmptyString) s (Some c));
      [|reflexivity|discriminate|cbn; now rewrite Hc].
    now destruct (Nat.pred lo).
  - intros more s'' p -> Hne Hmore.
    apply (Hfail (String c more)); [reflexivity|discriminate|].
    cbn [Str.all_chars]. now rewrite Hc, Hmore.
Qed.

(** A greedy [cls*] takes the longest run after which its continuation
    succeeds. *)
Lemma rep_greedy_longest {R : Type} (cls : ascii -> bool)
    (k : option ascii -> string -> option R) (rest : string) (r : R) (pre : string) :
  forall prev,
    Str.all_chars cls pre = true ->
    (forall more s'' p,
        rest = more +:+ s'' -> more <> EmptyString ->
        Str.all_chars cls more = true -> k p s'' = None) ->
    k (last_char pre prev) rest = Some r ->
    rep cls true k 0 None prev (pre +:+ rest) = Some (String.length pre, r).
Proof.
  induction pre as [|c pre IH]; intros prev Hall Hfail Hk.
  - rewrite append_nil_l, rep_greedy_stop by exact Hfail.
    cbn [last_char] in Hk. now rewrite Hk.
  - cbn [Str.all_chars] in Hall. apply andb_prop in Hall as [Hc Hall].
    rewrite append_cons. cbn [rep has_room less_room Nat.pred String.length].
    rewrite Hc. cbn [andb]. now rewrite (IH (Some c)) by auto.
Qed.

(** A lazy [cls*] stops at the first position where its continuation
    succeeds. *)
Lemma rep_lazy_first {R : Type} (cls : ascii -> bool)
    (k : option ascii -> string -> option R) (rest : string) (r : R) (pre : string) :
  forall prev,
    Str.all_chars cls pre = true ->
    (forall p1 p2 p, pre = p1 +:+ p2 -> p2 <> EmptyString -> k p (p2 +:+ rest) = None) ->
    k (last_char pre prev) rest = Some r ->
    rep cls false k 0 None prev (pre +:+ rest) = Some (String.length pre, r).
Proof.
  induction pre as [|c pre IH]; intros prev Hall Hfail Hk.
  - rewrite append_nil_l. cbn [last_char] in Hk.
    destruct rest; cbn [rep]; now rewrite Hk.
  - cbn [Str.all_chars] in Hall. apply andb_prop in Hall as [Hc Hall].
    rewrite append_cons. cbn [rep has_room less_room Nat.pred String.length].
    rewrite <- append_cons.
    rewrite (Hfail EmptyString (String c pre) prev) by (reflexivity || discriminate).
    rewrite Hc. cbn [andb]. rewrite (IH (Some c)); auto.
    intros p1 p2 p -> Hne. apply (Hfail (String c p1)); [reflexivity|exact Hne].
Qed.

(** Where a text has no leading whitespace, the whitespace of a line
    break in front of it ends with that line break. *)
Lemma space_run_split (x more s'' : string) :
  Spec.noLeadingSpace x = true ->
  Str.LF +:+ x = more +:+ s'' -> more <> EmptyString ->
  Str.all_chars Char.is_space more = true -> s'' = x.
Proof.
  intros Hx Heq Hne Hmore. destruct more as [|a more]; [congruence|].
  change (Str.LF +:+ x) with (String Char.LF x) in Heq.
  rewrite append_cons in Heq. injection Heq as _ Hrest.
  destruct more as [|b more]; [now rewrite append_nil_l in Hrest|].
  rewrite append_cons in Hrest. subst x.
  cbn [Str.all_chars] in Hmore. apply andb_prop in Hmore as [_ Hmore].
  apply andb_prop in Hmore as [Hb _]. cbn [Spec.noLeadingSpace] in Hx.
  now rewrite Hb in Hx.
Qed.

Lemma no_line_feed_ahead (x : string) :
  Spec.noLeadingSpace x = true -> Str.strip_prefix Str.LF x = None.
Proof.
  destruct x as [|c x]; [reflexivity|]. cbn [Spec.noLeadingSpace Str.strip_prefix Str.LF].
  destruct (Ascii.eqb_spec Char.LF c) as [<-|_]; [discriminate|reflexivity].
Qed.

(** [\s*\n] in front of a text without leading whitespace: the
    whitespace [ws] and the line break. *)
Lemma run_space_line_feed (r : list node) (ws x : string) (res : nat * list string) :
  forall prev,
    Str.all_chars Char.is_space ws = true ->
    Spec.noLeadingSpace x = true ->
    run false r (Some Char.LF) x = Some res ->
    run false (Rep Char.is_space 0 None true false :: Lit Str.LF :: r) prev
        (ws +:+ Str.LF +:+ x)
    = Some (String.length ws + (1 + fst res), snd res).
Proof.
  intros prev Hws Hx Hr. rewrite run_rep.
  rewrite (rep_greedy_longest Char.is_space _ (Str.LF +:+ x) (1 + fst res, snd res) ws).
  - reflexivity.
  - exact Hws.
  - intros more s'' p Heq Hne Hmore.
    rewrite (space_run_split x more s'' Hx Heq Hne Hmore).
    rewrite run_lit. now rewrite no_line_feed_ahead.
  - rewrite run_lit, strip_prefix_here. cbn [last_char Str.LF].
    rewrite Hr. now destruct res.
Qed.

Lemma includes_suffix (pre s q : string) :
  Str.includes (pre +:+ s) q = false -> String.prefix q s = false.
Proof.
  intros Hno. destruct (String.prefix q s) eqn:Hp; [|reflexivity].
  now rewrite (includes_append_l pre s q (includes_prefix s q Hp)) in Hno.
Qed.

(** Inside a text without a line starting with [---], and up to its end,
    no closing delimiter starts. *)
Lemma closing_not_before (p2 tail : string) :
  p2 <> EmptyString ->
  String.prefix (Str.LF +:+ "---") p2 = false ->
  Str.strip_prefix (Str.LF +:+ "---") (p2 +:+ (Str.LF +:+ "---") +:+ tail) = None.
Proof.
  intros Hne Hp.
  destruct (Str.strip_prefix _ _) as [s'|] eqn:Hs; [|reflexivity]. exfalso.
  apply strip_prefix_prefix in Hs.
  change (Str.LF +:+ "---") with (String Char.LF "---") in *.
  destruct p2 as [|a [|b [|c [|d p2]]]]; [congruence|..];
    rewrite ?append_cons, ?append_nil_l in Hs; cbn [String.prefix] in Hs, Hp;
    repeat match type of Hs with
           | context [ascii_dec ?x ?y] => destruct (ascii_dec x y); try discriminate
           end;
    repeat match type of Hp with
           | context [ascii_dec ?x ?y] => destruct (ascii_dec x y); try discriminate
           end;
    try congruence.
  now destruct p2.
Qed.

End FrontmatterBlock.

(** X7. A text that opens with a frontmatter block is taken apart: for a
    block [yaml] that starts with something else than whitespace and has
    no line starting with [---], [extractFrontmatter] returns the parsed
    block and the body.  Whitespace after either delimiter, and so every
    blank line between the closing delimiter and the body, is dropped. *)
Theorem extractFrontmatter_block (ws1 yaml ws2 body : string) :
  Str.all_chars Char.is_space ws1 = true ->
  yaml <> EmptyString ->
  Spec.noLeadingSpace yaml = true ->
  Str.includes yaml (Str.LF +:+ "---") = false ->
  Str.all_chars Char.is_space ws2 = true ->
  Spec.noLeadingSpace body = true ->
  Markdown.extractFrontmatter
    ("---" +:+ ws1 +:+ Str.LF +:+ yaml +:+ Str.LF +:+ "---" +:+ ws2 +:+ Str.LF +:+ body)
  = Markdown.mkExtracted (Markdown.parseSimpleYaml yaml) body.
Proof.
  intros Hws1 Hne Hyaml Hno Hws2 Hbody.
  unfold Markdown.extractFrontmatter, Markdown.frontmatterRegex.
  rewrite exec_anchored.
  set (close := Str.LF +:+ "---").
  set (tail := close +:+ ws2 +:+ Str.LF +:+ body).
  assert (Htail : forall p,
             RegExp.run false
               [RegExp.Lit close; RegExp.Rep Char.is_space 0 None true false;
                RegExp.Lit Str.LF] p tail
             = Some (4 + (String.length ws2 + 1), [])).
  { intros p. unfold tail. rewrite run_lit, strip_prefix_here.
    rewrite (run_space_line_feed [] ws2 body (0, [])); auto. }
  assert (Hblock : forall p,
             RegExp.run false
               [RegExp.Rep Char.any 0 None false true; RegExp.Lit close;
                RegExp.Rep Char.is_space 0 None true false; RegExp.Lit Str.LF]
               p (yaml +:+ tail)
             = Some (String.length yaml + (4 + (String.length ws2 + 1)), [yaml])).
  { intros p. rewrite run_rep.
    rewrite (rep_lazy_first Char.any _ tail (4 + (String.length ws2 + 1), []) yaml).
    - now rewrite substring_append_prefix.
    - assert (Hany : forall s, Str.all_chars Char.any s = true); [|apply Hany].
      intros s. induction s as [|c s IH]; [reflexivity|].
      cbn [Str.all_chars]. rewrite IH. unfold Char.any. now destruct (Char.is_space c).
    - intros p1 p2 p' Heq Hp2. rewrite run_lit. unfold tail.
      rewrite closing_not_before; [reflexivity|exact Hp2|].
      subst yaml. now apply includes_suffix in Hno.
    - apply Htail. }
  change ("---" +:+ ws1 +:+ Str.LF +:+ yaml +:+ Str.LF +:+ "---" +:+ ws2 +:+ Str.LF +:+ body)
    with ("---" +:+ ws1 +:+ Str.LF +:+ yaml +:+ tail).
  rewrite run_lit, strip_prefix_here.
  assert (Hyt : Spec.noLeadingSpace (yaml +:+ tail) = true).
  { destruct yaml as [|c y]; [congruence|exact Hyaml]. }
  rewrite (run_space_line_feed _ ws1 (yaml +:+ tail)
             (String.length yaml + (4 + (String.length ws2 + 1)), [yaml]));
    [|exact Hws1|exact Hyt|apply Hblock].
  cbn [fst snd RegExp.group RegExp.groups nth_error Nat.pred RegExp.matched].
  f_equal.
  set (block := "---" +:+ ws1 +:+ Str.LF +:+ yaml +:+ close +:+ ws2 +:+ Str.LF).
  assert (Hcontent : "---" +:+ ws1 +:+ Str.LF +:+ yaml +:+ tail = block +:+ body).
  { unfold block, tail. now rewrite !append_assoc. }
  assert (Hlen : String.length "---" + (String.length ws1
                  + (1 + (String.length yaml + (4 + (String.length ws2 + 1)))))
                 = String.length block).
  { unfold block, close. rewrite !length_append. cbn [String.length Str.LF]. lia. }
  rewrite Hlen, Hcontent, substring_append_prefix, slice_from
    by (rewrite length_append; lia).
  rewrite length_append.
  replace (String.length block + String.length body - String.length block)
    with (String.length body) by lia.
  apply substring_append_suffix.
Qed.

Lemma extractFrontmatter_block_witness :
  Markdown.extractFrontmatter
    ("---" +:+ " " +:+ Str.LF +:+ "title: Plan" +:+ Str.LF +:+ "---" +:+ Str.LF
     +:+ Str.LF +:+ "# Plan")
  = Markdown.mkExtracted (Markdown.parseSimpleYaml "title: Plan") "# Plan".
Proof.
  apply (extractFrontmatter_block " " "title: Plan" Str.LF "# Plan");
    (reflexivity || discriminate).
Defined.

(** ** Headings: levels and texts *)

Section HeadingFacts.
Import RegExp.

(** Where a quantified class succeeds, it took a run of its class whose
    length is within the bounds of the quantifier. *)
Lemma rep_bounds {R : Type} (cls : ascii -> bool) (greedy : bool)
    (k : option ascii -> string -> option R) (s : string) :
  forall lo hi prev n r,
    rep cls greedy k lo hi prev s = Some (n, r) ->
    exists pre prev' s',
      s = pre +:+ s' /\ String.length pre = n /\ Str.all_chars cls pre = true
      /\ lo <= n /\ match hi with Some h => n <= h | None => True end
      /\ k prev' s' = Some r.
Proof.
  induction s as [|c s IH]; intros lo hi prev n r.
  - cbn [rep]. destruct greedy, lo; try discriminate;
      destruct (k prev EmptyString) eqn:Hk; try discriminate;
      intros [= <- <-]; exists EmptyString, prev, EmptyString;
      destruct hi; repeat split; auto with arith.
  - cbn [rep].
    assert (Hmore : forall n r,
               (if cls c && has_room hi
                then match rep cls greedy k (Nat.pred lo) (less_room hi) (Some c) s with
                     | Some (n, r) => Some (S n, r)
                     | None => None
                     end
                else None) = Some (n, r) ->
               exists pre prev' s',
                 String c s = pre +:+ s' /\ String.length pre = n
                 /\ Str.all_chars cls pre = true
                 /\ lo <= n /\ match hi with Some h => n <= h | None => True end
                 /\ k prev' s' = Some r).
    { intros n' r'. destruct (cls c) eqn:Hc; [|discriminate].
      destruct (has_room hi) eqn:Hroom; [|discriminate]. cbn [andb].
      destruct (rep cls greedy k (Nat.pred lo) (less_room hi) (Some c) s)
        as [[n0 r0]|] eqn:Hrep; [|discriminate].
      intros [= <- <-].
      destruct (IH _ _ _ _ _ Hrep) as (pre & p' & s' & -> & Hlen & Hpre & Hlo & Hhi & Hk).
      exists (String c pre), p', s'. rewrite append_cons. cbn [Str.all_chars String.length].
      rewrite Hc, Hpre, Hlen. repeat split; auto; [lia|].
      destruct hi as [[|h]|]; cbn [less_room has_room Nat.pred] in *;
        [discriminate|lia|exact I]. }
    assert (Hstop : forall n r,
               match lo with
               | O => match k prev (String c s) with
                      | Some r => Some (O, r)
                      | None => None
                      end
               | S _ => None
               end = Some (n, r) ->
               exists pre prev' s',
                 String c s = pre +:+ s' /\ String.length pre = n
                 /\ Str.all_chars cls pre = true
                 /\ lo <= n /\ match hi with Some h => n <= h | None => True end
                 /\ k prev' s' = Some r).
    { intros n' r'. destruct lo; [|discriminate].
      destruct (k prev (String c s)) eqn:Hk; [|discriminate].
      intros [= <- <-]. exists EmptyString, prev, (String c s).
      destruct hi; repeat split; auto with arith. }
    destruct greedy.
    + destruct (if cls c && has_room hi then _ else _) as [[n1 r1]|] eqn:Hm.
      * intros [= <- <-]. eauto.
      * apply Hstop.
    + destruct (match lo with O => _ | S _ => _ end) as [[n1 r1]|] eqn:Hs.
      * intros [= <- <-]. eauto.
      * apply Hmore.
Qed.

(** What the heading pattern captures: one to six hashes, and a text
    without line terminators. *)
Lemma run_heading_groups (prev : option ascii) (s : string) (n : nat)
    (caps : list string) :
  run true (source Markdown.headingRegex) prev s = Some (n, caps) ->
  exists g1 g2,
    caps = [g1; g2] /\ 1 <= String.length g1 <= 6
    /\ Str.all_chars Char.dot g2 = true.
Proof.
  cbn [source Markdown.headingRegex]. rewrite run_bol.
  destruct (at_bol true prev); [|discriminate]. rewrite run_rep.
  destruct (rep Char.is_hash true _ 1 (Some 6) prev s) as [[n1 [m1 c1]]|] eqn:H1;
    [|discriminate].
  intros [= <- <-].
  apply rep_bounds in H1 as (g1 & p1 & s1 & -> & Hlen1 & _ & Hlo & Hhi & H2).
  rewrite run_rep in H2.
  destruct (rep Char.is_space true _ 1 None p1 s1) as [[n2 [m2 c2]]|] eqn:H3;
    [|discriminate].
  injection H2 as _ <-.
  apply rep_bounds in H3 as (ws & p2 & s2 & -> & _ & _ & _ & _ & H4).
  rewrite run_rep in H4.
  destruct (rep Char.dot true _ 1 None p2 s2) as [[n3 [m3 c3]]|] eqn:H5;
    [|discriminate].
  injection H4 as _ <-.
  apply rep_bounds in H5 as (g2 & p3 & s3 & -> & Hlen3 & Hdot & _ & _ & H6).
  rewrite run_eol in H6. destruct (at_eol true s3); [|discriminate].
  cbn [run] in H6. injection H6 as _ <-.
  exists g1, g2. rewrite <- Hlen1, <- Hlen3, !substring_append_prefix.
  repeat split; auto; lia.
Qed.

(** Every match of a [g] pattern carries captures that [run] produced
    somewhere in the input. *)
Lemma execAll_groups (re : RegExp.t) (P : list string -> Prop) :
  (forall prev s n caps,
      run (multiline re) (source re) prev s = Some (n, caps) -> P caps) ->
  forall s prev idx skip,
    Forall (fun m => P (groups m)) (execAll re prev s idx skip).
Proof.
  intros HP. induction s as [|c s IH]; intros prev idx skip.
  - destruct skip; cbn [execAll]; [|constructor].
    destruct (run _ _ prev EmptyString) as [[n caps]|] eqn:Hr; constructor;
      [|constructor]. cbn [groups]. eapply HP, Hr.
  - destruct skip; cbn [execAll]; [|apply IH].
    destruct (run _ _ prev (String c s)) as [[n caps]|] eqn:Hr; [|apply IH].
    constructor; [|apply IH]. cbn [groups]. eapply HP, Hr.
Qed.

Lemma is_hash_eq (c : ascii) : Char.is_hash c = true -> c = "#"%char.
Proof. Aux.by_cases c. Qed.

Lemma run_heading_needs_hash (prev : option ascii) (c : ascii) (s : string) :
  Char.is_hash c = false ->
  run true (source Markdown.headingRegex) prev (String c s) = None.
Proof.
  intros Hc. cbn [source Markdown.headingRegex]. rewrite run_bol.
  destruct (at_bol true prev); [|reflexivity].
  rewrite run_rep. cbn [rep]. now rewrite Hc.
Qed.

Lemma execAll_heading_none (s : string) :
  Str.includes s "#" = false ->
  forall prev idx, execAll Markdown.headingRegex prev s idx 0 = [].
Proof.
  induction s as [|c s IH]; intros Hno prev idx; cbn [execAll];
    change (multiline Markdown.headingRegex) with true.
  - now rewrite headingRegex_not_empty.
  - cbn [Str.includes] in Hno. apply orb_false_elim in Hno as [Hp Hno].
    rewrite run_heading_needs_hash; [now apply IH|].
    destruct (Char.is_hash c) eqn:Hc; [|reflexivity].
    apply is_hash_eq in Hc. subst c. now destruct s.
Qed.

End HeadingFacts.

(** What every extracted heading satisfies. *)
Lemma headings_wellformed (content : string) :
  Forall (fun h =>
            1 <= Markdown.level h <= 6
            /\ Str.all_chars Char.dot (Markdown.text h) = true
            /\ Markdown.id h = Markdown.slug (Markdown.text h))
         (Markdown.extractHeadings content).
Proof.
  unfold Markdown.extractHeadings. apply Forall_map.
  eapply Forall_impl;
    [apply (execAll_groups Markdown.headingRegex
              (fun caps => exists g1 g2,
                   caps = [g1; g2] /\ 1 <= String.length g1 <= 6
                   /\ Str.all_chars Char.dot g2 = true));
     exact run_heading_groups|].
  intros m (g1 & g2 & Hcaps & Hlen & Hdot).
  unfold Markdown.headingOfMatch, RegExp.group. rewrite Hcaps.
  cbn [nth_error Nat.pred Markdown.level Markdown.text Markdown.id].
  split; [exact Hlen|]. split; [|reflexivity].
  unfold Str.trim, Str.trimEnd, Str.trimStart.
  rewrite all_chars_rev. apply all_chars_dropWhile.
  rewrite all_chars_rev. now apply all_chars_dropWhile.
Qed.

(** X8. Every heading that [extractHeadings] returns has a level between
    1 and 6, so that the indentation [level - 1] of its line in the table
    of contents is never negative, and a text without line breaks. *)
Theorem extractHeadings_levels (content : string) :
  Forall (fun h =>
            1 <= Markdown.level h <= 6
            /\ Str.all_chars Char.dot (Markdown.text h) = true)
         (Markdown.extractHeadings content).
Proof.
  eapply Forall_impl; [apply headings_wellformed|].
  intros h (Hlevel & Htext & _). now split.
Qed.

(** X9. A text without [#] has no headings and no table of contents. *)
Theorem no_hash_no_headings (content : string) :
  Str.includes content "#" = false ->
  Markdown.extractHeadings content = []
  /\ Markdown.generateTableOfContents content = None.
Proof.
  intros Hno. unfold Markdown.generateTableOfContents, Markdown.extractHeadings.
  now rewrite execAll_heading_none.
Qed.

Lemma no_hash_no_headings_witness :
  Markdown.extractHeadings ("Plain text," +:+ Str.LF +:+ "two lines.") = []
  /\ Markdown.generateTableOfContents ("Plain text," +:+ Str.LF +:+ "two lines.") = None.
Proof. apply no_hash_no_headings. reflexivity. Defined.

(** ** The lines of the table of contents *)

Section TableOfContents.
Import Str.

Lemma split_nonempty (sep : ascii) (s : string) : split sep s <> [].
Proof.
  induction s as [|c s IH]; cbn [split]; [discriminate|].
  destruct (Ascii.eqb c sep); [discriminate|].
  now destruct (split sep s).
Qed.

Lemma split_no_sep (sep : ascii) (s : string) :
  all_chars (fun c => negb (Ascii.eqb c sep)) s = true -> split sep s = [s].
Proof.
  induction s as [|c s IH]; cbn [split all_chars]; [reflexivity|].
  intros [Hc Hs]%andb_prop. apply negb_true_iff in Hc. now rewrite Hc, IH.
Qed.

Lemma split_append (sep : ascii) (a b : string) :
  split sep (a +:+ String sep b) = split sep a ++ split sep b.
Proof.
  induction a as [|c a IH].
  - rewrite append_nil_l. cbn [split]. now rewrite Ascii.eqb_refl.
  - rewrite append_cons. cbn [split]. rewrite IH.
    destruct (Ascii.eqb c sep); [reflexivity|].
    pose proof (split_nonempty sep a) as Hne.
    now destruct (split sep a).
Qed.

Lemma append_LF (s : string) : LF +:+ s = String Char.LF s.
Proof. reflexivity. Qed.

(** Joining lines that hold no line break and splitting the result
    gives the lines back. *)
Lemma split_join (line : string) (lines : list string) :
  Forall (fun l => all_chars (fun c => negb (Ascii.eqb c Char.LF)) l = true)
         (line :: lines) ->
  split Char.LF (join LF (line :: lines)) = line :: lines.
Proof.
  revert line. induction lines as [|l2 lines IH]; intros line Hall.
  - cbn [join]. apply split_no_sep. now inversion Hall.
  - change (join LF (line :: l2 :: lines))
      with (line +:+ LF +:+ join LF (l2 :: lines)).
    inversion Hall; subst.
    now rewrite append_LF, split_append, split_no_sep, IH.
Qed.

Lemma dot_not_LF (c : ascii) :
  Char.dot c = true -> negb (Ascii.eqb c Char.LF) = true.
Proof. Aux.by_cases c. Qed.

Lemma anchor_not_LF (c : ascii) :
  Char.is_anchor c = true -> negb (Ascii.eqb c Char.LF) = true.
Proof. Aux.by_cases c. Qed.

Lemma repeat_no_LF (n : nat) :
  all_chars (fun c => negb (Ascii.eqb c Char.LF)) (repeat "  " n) = true.
Proof.
  induction n as [|n IH]; [reflexivity|].
  cbn [repeat]. now rewrite all_chars_app, IH.
Qed.

End TableOfContents.

(** X10. The table of contents is its title, an empty line and then one
    line per heading, in the order of the headings; there is no table
    exactly when there are no headings. *)
Theorem tableOfContents_lines (content : string) :
  match Markdown.generateTableOfContents content with
  | None => Markdown.extractHeadings content = []
  | Some toc =>
      Markdown.extractHeadings content <> []
      /\ Str.split Char.LF toc
         = "## Table of Contents" :: EmptyString
           :: map Spec.tocLine (Markdown.extractHeadings content)
  end.
Proof.
  unfold Markdown.generateTableOfContents.
  pose proof (headings_wellformed content) as Hwf.
  destruct (Markdown.extractHeadings content) as [|h hs]; [reflexivity|].
  split; [discriminate|].
  change (map _ (h :: hs)) with (Spec.tocLine h :: map Spec.tocLine hs) at 1.
  rewrite !append_LF, split_append.
  change (String Char.LF ?x) with (EmptyString +:+ String Char.LF x).
  rewrite split_append, split_join; [reflexivity|].
  change (Spec.tocLine h :: map Spec.tocLine hs) with (map Spec.tocLine (h :: hs)).
  apply List.Forall_map. eapply Forall_impl; [exact Hwf|].
  intros h' (_ & Htext & Hid). unfold Spec.tocLine.
  rewrite !all_chars_app, repeat_no_LF, Hid.
  rewrite (all_chars_impl _ _ _ dot_not_LF Htext).
  rewrite (all_chars_impl _ _ _ anchor_not_LF (slug_anchor_chars _)).
  reflexivity.
Qed.

(** ** Ids that are already anchors *)

Section SlugFacts.
Import RegExp.

Lemma toLower_anchor (c : ascii) : Char.is_anchor c = true -> Char.toLower c = c.
Proof. Aux.by_cases c. Qed.

Lemma anchor_is_kept (c : ascii) :
  Char.is_anchor c = true -> Char.not_word_space_hyphen c = false.
Proof. Aux.by_cases c. Qed.

Lemma toLowerCase_anchor (s : string) :
  Str.all_chars Char.is_anchor s = true -> Str.toLowerCase s = s.
Proof.
  unfold Str.toLowerCase. induction s as [|c s IH]; cbn [Str.all_chars Str.map_chars];
    [reflexivity|].
  intros [Hc Hs]%andb_prop. now rewrite toLower_anchor, IH.
Qed.

(** Replacing the code units of a class in a text that has none of them
    changes nothing. *)
Lemma replace_class_absent (cls : ascii -> bool) (hi : option nat) (by_ s : string) :
  has_room hi = true ->
  Str.all_chars (fun c => negb (cls c)) s = true ->
  replace (RegExp.mk [Rep cls 1 hi true false] false) by_ s = s.
Proof.
  intros Hroom. unfold replace. generalize (@None ascii) as prev.
  induction s as [|c s IH]; intros prev Hs; [reflexivity|].
  cbn [Str.all_chars] in Hs. apply andb_prop in Hs as [Hc Hs].
  apply negb_true_iff in Hc.
  pose proof (run_class_head cls hi Hroom prev c s) as Hrun. rewrite Hc in Hrun.
  cbn [replaceAll multiline source]. rewrite Hrun. f_equal. now apply IH.
Qed.

Lemma slug_fixed_point (s : string) :
  Str.all_chars Char.is_anchor s = true -> Markdown.slug s = s.
Proof.
  intros Hs. unfold Markdown.slug, Markdown.notSlugCharRegex, Markdown.spacesRegex.
  rewrite toLowerCase_anchor by exact Hs.
  rewrite (replace_class_absent Char.not_word_space_hyphen (Some 1) EmptyString s);
    [|reflexivity|].
  - apply replace_class_absent; [reflexivity|].
    apply all_chars_impl with (p := Char.is_anchor); [|exact Hs].
    intros c Hc. now rewrite anchor_not_space.
  - apply all_chars_impl with (p := Char.is_anchor); [|exact Hs].
    intros c Hc. now rewrite anchor_is_kept.
Qed.

End SlugFacts.

(** X11. Making an id of an id changes nothing: a text made of [a-z],
    [0-9], [_] and [-] is its own id, and every id is such a text. *)
Theorem slug_idempotent (text : string) :
  Markdown.slug (Markdown.slug text) = Markdown.slug text.
Proof. apply slug_fixed_point, slug_anchor_chars. Qed.

(** ** Metadata blocks one after the other *)

(** X12. Parsing two blocks written one after the other gives, for
    every key other than [__proto__], the binding of the second block
    and, where the second block has none, that of the first. *)
Theorem parseSimpleYaml_append (yaml1 yaml2 k : string) :
  k <> "__proto__" ->
  Markdown.parseSimpleYaml (yaml1 +:+ Str.LF +:+ yaml2) !! k
  = match Markdown.parseSimpleYaml yaml2 !! k with
    | Some v => Some v
    | None => Markdown.parseSimpleYaml yaml1 !! k
    end.
Proof.
  intros Hk. unfold Markdown.parseSimpleYaml.
  rewrite append_LF, split_append, fold_left_app.
  rewrite !(fold_yamlStep_lookup _ _ k Hk).
  now destruct (Spec.lastBinding k (omap Markdown.parseLine (Str.split Char.LF yaml2))).
Qed.

Lemma parseSimpleYaml_append_witness :
  Markdown.parseSimpleYaml
    (("title: Plan" +:+ Str.LF +:+ "draft: true") +:+ Str.LF +:+ "draft: false")
    !! "draft"
  = Some (Markdown.YBool false).
Proof.
  rewrite (parseSimpleYaml_append ("title: Plan" +:+ Str.LF +:+ "draft: true")
             "draft: false" "draft") by discriminate.
  reflexivity.
Defined.

(** ** The match strings of a result *)

Section MatchStrings.
Import Search.

Lemma length_substring_prefix (n : nat) (s : string) :
  n <= String.length s -> String.length (substring 0 n s) = n.
Proof.
  revert n. induction s as [|c s IH]; intros [|n] Hn; cbn [substring String.length] in *;
    try reflexivity; try lia.
  rewrite IH; lia.
Qed.

Lemma extractMatches_fold (P : string -> Prop) (fuseMatches : list FuseJs.Match) :
  (forall m v,
      In m fuseMatches -> FuseJs.value m = Js.Str v ->
      P (FuseJs.key m +:+ ": "
         +:+ (if (100 <? String.length v)%nat
              then Str.slice v 0 (Some 100%Z) +:+ "..."
              else v))) ->
  forall acc,
    Forall P acc ->
    Forall P
      (fold_left
         (fun matches m =>
            match FuseJs.value m with
            | Js.Str v =>
                let truncated :=
                  if (100 <? String.length v)%nat
                  then Str.slice v 0 (Some 100%Z) +:+ "..."
                  else v in
                matches ++ [FuseJs.key m +:+ ": " +:+ truncated]
            | _ => matches
            end)
         fuseMatches acc).
Proof.
  induction fuseMatches as [|m ms IH]; intros HP acc Hacc; cbn [fold_left];
    [exact Hacc|].
  apply IH; [intros m' v Hin; apply HP; now right|].
  destruct (FuseJs.value m) as [|b|q|v|items|es|t] eqn:Hv; try exact Hacc.
  cbn zeta. apply Forall_app. split; [exact Hacc|].
  constructor; [|constructor]. apply HP; [now left|exact Hv].
Qed.

Variable query : string.
Hypothesis query_nonempty : query <> EmptyString.

(** The match strings collected for one document, before the cut to
    five, are as many as the document has matches. *)
Lemma exact_acc_length (f : Files.ContentFile) :
  length (fst (searchFrontmatter (Str.toLowerCase query) f
                 (searchLines (Str.toLowerCase query)
                    (Str.split Char.LF (Files.content f)) 0
                    (searchFilename (Str.toLowerCase query) f ([], Double.zero)))))
  = Spec.matchCount query f.
Proof.
  set (a1 := searchFilename (Str.toLowerCase query) f ([], Double.zero)).
  assert (L1 : length (fst a1) = if Spec.filenameMatches query f then 1 else 0).
  { unfold a1, searchFilename, Spec.filenameMatches, Spec.containsCI.
    now destruct (Str.includes _ _). }
  destruct (searchLines_count query query_nonempty
              (Str.split Char.LF (Files.content f)) 0 a1) as [L2 _].
  cbn zeta in L2. fold (Spec.matchingLines query f) in L2.
  unfold searchFrontmatter, Spec.matchCount, Spec.matchingEntries.
  destruct (Files.frontmatter f) as [entries|].
  - destruct (searchEntries_count query entries
                (searchLines (Str.toLowerCase query)
                   (Str.split Char.LF (Files.content f)) 0 a1)) as [L3 _].
    cbn zeta in L3. rewrite L3, L2, L1. reflexivity.
  - rewrite L2, L1. lia.
Qed.

Lemma exactResult_matches (includeContent : bool) (f : Files.ContentFile)
    (r : SearchResult) :
  exactResult (Str.toLowerCase query) includeContent f = Some r ->
  file r = resultFile includeContent f
  /\ length (matches r) = Nat.min 5 (Spec.matchCount query f)
  /\ 1 <= length (matches r) <= 5.
Proof.
  unfold exactResult. rewrite exact_acc_length.
  destruct (Nat.ltb_spec 0 (Spec.matchCount query f)) as [Hpos|_]; [|discriminate].
  intros [= <-]. cbn [file matches]. rewrite length_take, exact_acc_length.
  split; [reflexivity|]. lia.
Qed.

End MatchStrings.

(** X13. [extractMatches] returns at most five strings; each of them is
    the key of a match whose value is a string, a colon and the value,
    which is cut to its first 100 code units followed by [...] when it is
    longer. *)
Theorem extractMatches_capped (fuseMatches : list Search.FuseJs.Match) :
  length (Search.extractMatches fuseMatches) <= 5
  /\ Forall
       (fun line => exists m v shown,
            In m fuseMatches /\ Search.FuseJs.value m = Js.Str v
            /\ line = Search.FuseJs.key m +:+ ": " +:+ shown
            /\ String.length shown <= 103
            /\ (String.length v <= 100 -> shown = v)
            /\ (100 < String.length v -> shown = substring 0 100 v +:+ "..."))
       (Search.extractMatches fuseMatches).
Proof.
  unfold Search.extractMatches. cbn zeta. split; [rewrite length_take; lia|].
  apply Forall_take, extractMatches_fold; [|constructor].
  intros m v Hin Hv. exists m, v.
  destruct (Nat.ltb_spec 100 (String.length v)) as [Hlong|Hshort].
  - exists (substring 0 100 v +:+ "..."). change 100%Z with (Z.of_nat 100).
    rewrite slice_to by lia. repeat split; auto; [|lia].
    rewrite length_append, length_substring_prefix by lia. cbn. lia.
  - exists v. repeat split; auto; lia.
Qed.

(** X14. For a non-empty query every result of the exact strategy lists
    the first five matches of its document: as many strings as the
    document has matches, up to five, and at least one. *)
Theorem exact_match_strings (files : list Files.ContentFile) (query : string)
    (maxResults : Z) (includeContent : bool) :
  query <> EmptyString ->
  Forall
    (fun r => exists f,
         In f files
         /\ Search.file r = Search.resultFile includeContent f
         /\ length (Search.matches r) = Nat.min 5 (Spec.matchCount query f)
         /\ 1 <= length (Search.matches r) <= 5)
    (Search.performExactSearch files query maxResults includeContent).
Proof.
  intros Hq. apply Forall_forall. intros r Hr. apply list_elem_of_In in Hr.
  rewrite performExactSearch_unfold in Hr. apply In_slice0 in Hr.
  apply (Permutation_in _ (sort_Permutation _ _)) in Hr.
  apply list_elem_of_In, list_elem_of_omap in Hr as (f & Hf & Hres).
  exists f. split; [now apply list_elem_of_In|].
  now apply exactResult_matches.
Qed.

Lemma exact_match_strings_witness :
  Forall
    (fun r => exists f,
         In f [Sample.notes; Sample.untagged; Sample.guide]
         /\ Search.file r = Search.resultFile false f
         /\ length (Search.matches r) = Nat.min 5 (Spec.matchCount "guide" f)
         /\ 1 <= length (Search.matches r) <= 5)
    (Search.performExactSearch [Sample.notes; Sample.untagged; Sample.guide]
       "guide" 3 false).
Proof.
  apply (exact_match_strings [Sample.notes; Sample.untagged; Sample.guide]
           "guide" 3 false).
  discriminate.
Defined.

(** ** [searchNotes] with the exact strategy *)

(** X15. With [fuzzy] off, [searchNotes] throws exactly when the query is
    empty or [maxResults] is not positive.  Otherwise it returns at most
    [maxResults] results; each of them holds a document of the directory
    that has a match, with the score accumulated for it in double
    arithmetic (0.4 for the filename, 0.1 per matching line, 0.2 per
    matching entry, clamped to 1).  The document is held as it was
    loaded, content included, whatever [includeContent] says:
    [includeContent || true] is always true. *)
Theorem searchNotes_exact (env : Files.Env) (fuse : Search.Fuse) (cwd : string)
    (options : Search.NoteSearchOptions) :
  Search.fuzzy options = false ->
  match Search.searchNotes env fuse cwd options with
  | None =>
      Search.query options = EmptyString \/ (Search.maxResults options <= 0)%Z
  | Some results =>
      Search.query options <> EmptyString
      /\ (0 < Search.maxResults options)%Z
      /\ length results <= Z.to_nat (Search.maxResults options)
      /\ Forall
           (fun r =>
              In (Search.file r)
                 (Spec.documents env (default cwd (Search.directory options)))
              /\ 0 < Spec.matchCount (Search.query options) (Search.file r)
              /\ Search.score r
                 = Spec.accumulatedScore (Search.query options) (Search.file r))
           results
  end.
Proof.
  intros Hfuzzy. unfold Search.searchNotes, Search.validOptions. rewrite Hfuzzy.
  destruct (Search.query options) as [|c q] eqn:Hquery; cbn [Str.isEmpty negb andb];
    [now left|].
  destruct (Z.ltb_spec 0 (Search.maxResults options)) as [Hmax|Hmax]; [|now right].
  replace (Search.maxResults options =? 0)%Z with false by lia.
  rewrite orb_true_r. split; [discriminate|]. split; [exact Hmax|].
  rewrite performExactSearch_unfold, slice0_take by lia.
  split; [rewrite length_take; lia|].
  apply Forall_take.
  assert (Hq : String c q <> EmptyString) by discriminate.
  pose proof (exact_hits (String c q) Hq true
                (Search.readAll env
                   (Files.findContentFiles env (default cwd (Search.directory options))
                      Files.defaultExtensions))) as Hhits.
  apply Forall_forall. intros r Hr. apply list_elem_of_In in Hr.
  apply (Permutation_in _ (sort_Permutation _ _)) in Hr.
  apply list_elem_of_In, list_elem_of_lookup in Hr as [i Hi].
  destruct (Forall2_lookup_l _ _ _ _ _ Hhits Hi) as (f & Hf & Hfile & Hscore).
  apply list_elem_of_lookup_2, list_elem_of_In, filter_In in Hf as [Hin Hpos].
  cbn [Search.resultFile] in Hfile. rewrite Hfile.
  split; [exact Hin|]. split; [now apply Nat.ltb_lt|exact Hscore].
Qed.

Lemma searchNotes_exact_witness :
  match Search.searchNotes Sample.env Sample.fuseSample "/notes"
          (Search.mkOptions "typescript" None false 2 false) with
  | None => False
  | Some results =>
      length results <= 2
      /\ Forall (fun r => In (Search.file r) (Spec.documents Sample.env "/notes"))
                results
  end.
Proof.
  pose proof (searchNotes_exact Sample.env Sample.fuseSample "/notes"
                (Search.mkOptions "typescript" None false 2 false) eq_refl) as H.
  destruct (Search.searchNotes _ _ _ _) as [results|].
  - destruct H as (_ & _ & Hlen & Hall). split; [exact Hlen|].
    eapply Forall_impl; [exact Hall|]. now intros r [Hin _].
  - cbn in H. destruct H as [H|H]; [discriminate|lia].
Defined.

(** ** The document set *)

Section DocumentSet.
Variable env : Files.Env.

Lemma readContentFile_path (filePath : string) (f : Files.ContentFile) :
  Files.readContentFile env filePath = Some f -> Files.path f = filePath.
Proof.
  unfold Files.readContentFile.
  destruct (Files.readFile env filePath); [|discriminate].
  destruct (Files.stat env filePath); [|discriminate]. cbn [mbind option_bind].
  destruct (_ || _); [destruct (Files.matter env _); [|discriminate]|];
    cbn [mbind option_bind]; now intros [= <-].
Qed.

Lemma loaded_paths (filePaths : list string) (p : string) :
  In p (map Files.path (omap (Files.readContentFile env) filePaths)) -> In p filePaths.
Proof.
  induction filePaths as [|x xs IH]; cbn [omap list_omap]; [auto|].
  destruct (Files.readContentFile env x) as [f|] eqn:Hf.
  - cbn [map In]. apply readContentFile_path in Hf. intros [<-|Hin]; auto.
  - cbn [In]. auto.
Qed.

Lemma loaded_paths_NoDup (filePaths : list string) :
  List.NoDup filePaths ->
  List.NoDup (map Files.path (omap (Files.readContentFile env) filePaths)).
Proof.
  induction 1 as [|x xs Hx Hxs IH]; cbn [omap list_omap]; [constructor|].
  destruct (Files.readContentFile env x) as [f|] eqn:Hf; [|exact IH].
  cbn [map]. constructor; [|exact IH].
  apply readContentFile_path in Hf. rewrite Hf. intros Hin. now apply loaded_paths in Hin.
Qed.

Lemma filter_paths_NoDup (test : Files.ContentFile -> bool) (l : list Files.ContentFile) :
  List.NoDup (map Files.path l) -> List.NoDup (map Files.path (List.filter test l)).
Proof.
  induction l as [|f l IH]; cbn [map List.filter]; [auto|].
  intros Hnd. inversion Hnd as [|? ? Hf Hl]; subst.
  destruct (test f); [|auto]. cbn [map]. constructor; [|auto].
  intros Hin. apply Hf. apply in_map_iff in Hin as (g & Hg & Hin).
  apply in_map_iff. exists g. split; [exact Hg|]. now apply filter_In in Hin.
Qed.

End DocumentSet.

(** X16. No path is loaded twice: the documents of a directory have
    pairwise distinct paths, and so have the documents that either filter
    returns. *)
Theorem documents_distinct_paths (env : Files.Env) (directory : string)
    (tags : list string) (startDate endDate : Z) :
  List.NoDup (map Files.path (Spec.documents env directory))
  /\ List.NoDup (map Files.path (Search.searchByTags env directory tags))
  /\ List.NoDup
       (map Files.path (Search.searchByDateRange env directory startDate endDate)).
Proof.
  assert (Hdocs : List.NoDup (map Files.path (Spec.documents env directory))).
  { unfold Spec.documents. rewrite readAll_omap.
    apply loaded_paths_NoDup, uniq_NoDup. }
  split; [exact Hdocs|]. split.
  - rewrite searchByTags_unfold.
    eapply Permutation_NoDup;
      [apply Permutation_map, Permutation_sym, sort_Permutation|].
    now apply filter_paths_NoDup.
  - rewrite searchByDateRange_unfold.
    eapply Permutation_NoDup;
      [apply Permutation_map, Permutation_sym, sort_Permutation|].
    now apply filter_paths_NoDup.
Qed.

(** X17. Both filters sort stably: the documents modified at the same
    instant come in the order in which the scanner found them. *)
Theorem filters_keep_scan_order (env : Files.Env) (directory : string)
    (tags : list string) (startDate endDate : Z) (time : Z) :
  List.filter (fun f => (Files.lastModified f =? time)%Z)
    (Search.searchByTags env directory tags)
  = List.filter (fun f => (Files.lastModified f =? time)%Z)
      (List.filter (Search.hasMatchingTag tags) (Spec.documents env directory))
  /\ List.filter (fun f => (Files.lastModified f =? time)%Z)
       (Search.searchByDateRange env directory startDate endDate)
     = List.filter (fun f => (Files.lastModified f =? time)%Z)
         (List.filter
            (fun f => (startDate <=? Files.lastModified f)%Z
                      && (Files.lastModified f <=? endDate)%Z)
            (Spec.documents env directory)).
Proof.
  assert (Hstable : forall l,
             List.filter (fun f => (Files.lastModified f =? time)%Z)
               (Js.sort Search.byLastModifiedDesc l)
             = List.filter (fun f => (Files.lastModified f =? time)%Z) l).
  { intros l.
    pose proof (sort_stable (fun f => inject_Z (Files.lastModified f))
                  Search.byLastModifiedDesc byLastModifiedDesc_gt
                  (inject_Z time) l) as Hs.
    assert (Hext : forall l',
               List.filter (fun f => (Files.lastModified f =? time)%Z) l'
               = List.filter
                   (fun f => Qeq_bool (inject_Z (Files.lastModified f)) (inject_Z time)) l').
    { intros l'. apply List.filter_ext. intros f.
      unfold Qeq_bool, inject_Z. cbn [Qnum Qden].
      rewrite !Z.mul_1_r. reflexivity. }
    now rewrite !Hext. }
  rewrite searchByTags_unfold, searchByDateRange_unfold. split; apply Hstable.
Qed.

(** ** What [extractFrontmatter] leaves of the text *)

Section BodySuffix.

Lemma length_substring_le (n : nat) (s : string) :
  String.length (substring 0 n s) <= String.length s.
Proof.
  revert n. induction s as [|c s IH]; intros [|n]; cbn [substring String.length];
    try lia.
  specialize (IH n). lia.
Qed.

Lemma substring_idem (n : nat) (s : string) :
  substring 0 (String.length (substring 0 n s)) s = substring 0 n s.
Proof.
  revert n. induction s as [|c s IH]; intros [|n]; cbn [substring String.length];
    try reflexivity.
  now rewrite IH.
Qed.

Lemma substring_split (i : nat) (s : string) :
  i <= String.length s ->
  s = substring 0 i s +:+ substring i (String.length s - i) s.
Proof.
  revert i. induction s as [|c s IH]; intros [|i] Hi; cbn [String.length] in *;
    try lia.
  - reflexivity.
  - rewrite Nat.sub_0_r. change (substring 0 0 (String c s)) with EmptyString.
    rewrite append_nil_l. symmetry. apply (substring_all (String c s)).
  - cbn [substring Nat.sub]. rewrite append_cons. f_equal. apply IH. lia.
Qed.

End BodySuffix.

(** X18. [extractFrontmatter] only ever takes a block off the front of
    the text: the content it returns is the text without a prefix.  That
    prefix is empty, and the mapping with it, or it starts with [---]. *)
Theorem extractFrontmatter_suffix (content : string) :
  exists block,
    content = block +:+ Markdown.content (Markdown.extractFrontmatter content)
    /\ (block = EmptyString
        /\ Markdown.frontmatter (Markdown.extractFrontmatter content) = ∅
        \/ Str.startsWith block "---" = true).
Proof.
  unfold Markdown.extractFrontmatter, Markdown.frontmatterRegex.
  rewrite exec_anchored.
  destruct (RegExp.run false _ None content) as [[n caps]|] eqn:Hrun.
  - exists (substring 0 n content). cbn [RegExp.matched Markdown.content]. split.
    + rewrite slice_from by apply length_substring_le.
      pose proof (substring_split (String.length (substring 0 n content)) content
                    (length_substring_le n content)) as Hsplit.
      now rewrite substring_idem in Hsplit.
    + right. rewrite run_lit in Hrun.
      destruct (Str.strip_prefix "---" content) as [s1|] eqn:H1; [|discriminate].
      apply strip_prefix_append in H1. subst content.
      destruct (RegExp.run false _ _ s1) as [[n1 caps1]|]; [|discriminate].
      injection Hrun as <- _. unfold Str.startsWith.
      rewrite !append_cons, append_nil_l. cbn [String.length Nat.add substring].
      apply (prefix_append "---").
  - exists EmptyString. cbn [Markdown.content Markdown.frontmatter]. auto.
Qed.
